(** * Adaptive scoring and weight-learning engine of crypto_scanner_server.js

    A shallow embedding of the scanner's numeric core (the later revision in
    src/crypto_scanner_server.js, lines 752-1578, with the earlier revision's
    learner guard kept in [Module Earlier]).

    Numbers.  A JavaScript number is modelled as an exact rational [Q]; the
    values the code can turn into [undefined] or [NaN] (an array read past the
    end, [parseFloat('N/A')]) are [option Q] with [None] for both, and every
    comparison with [None] is [false], as [NaN > c] is.  Rounding error of
    IEEE doubles is not modelled, and [x / 0] is [0] in [Q] where JavaScript
    gives an infinity or [NaN]: statements are made where no divisor is zero,
    and concrete inputs are chosen so that the double computation is exact or
    far from every threshold.

    Objects.  The weight object has the four keys of the [CURRENT_WEIGHTS]
    literal, and is modelled as the record of their values.  The order in
    which [Object.keys] lists them is that of the object at hand: the order
    of the literal for the hard-coded defaults, kept by every copy
    ([{...w}]) and by every object rebuilt key by key, but possibly another
    one for the object that [loadWeights] reads back from storage (line
    855).  The loops over the keys set each key on its own and the sums are
    exact, so the order plays no part in them; it does where the code picks
    [indicatorKeys[0]], and the functions that do so take the key order as
    their first argument ([correct_sum_in], [averageWeights_in], [learn_in],
    [calculate_and_adjust_weights_in]).  The same names without [_in] are
    these functions at the key order of the literal. *)

From Stdlib Require Import String QArith Qround Qabs Qminmax ZArith List Bool Lia Lqa
  Permutation Sorted.
Import ListNotations.
Local Open Scope Q_scope.

(* ===================================================================== *)
(** ** JavaScript numbers and arrays *)
(* ===================================================================== *)

Module JS.

(** A number that may be [NaN] or [undefined]. *)
Definition num := option Q.

Definition Qlt_bool (x y : Q) : bool := negb (Qle_bool y x).

(** [x > c] and [x < c] for a possibly-[NaN] left operand. *)
Definition gt (x : num) (c : Q) : bool :=
  match x with Some v => Qlt_bool c v | None => false end.
Definition lt (x : num) (c : Q) : bool :=
  match x with Some v => Qlt_bool v c | None => false end.

(** [Math.round]: the nearest integer, a half rounding up. *)
Definition round (x : Q) : Q := inject_Z (Qfloor (x + (1 # 2))).

(** [Math.sign] as -1, 0 or 1. *)
Definition sign (x : Q) : Z :=
  match Qcompare x 0 with Lt => (-1)%Z | Eq => 0%Z | Gt => 1%Z end.

(** [x.toFixed(d)] read back as a number: [n / 10^d] for the integer [n]
    nearest to [x * 10^d], a tie going away from zero. *)
Definition toFixed (d : nat) (x : Q) : Q :=
  let p := inject_Z (10 ^ Z.of_nat d) in
  let n := Qfloor (Qabs x * p + (1 # 2)) in
  if Qlt_bool x 0 then inject_Z (- n) / p else inject_Z n / p.

(** [a[i]]: [undefined] outside of [0 .. a.length - 1]. *)
Definition get {A} (a : list A) (i : Z) : option A :=
  if (i <? 0)%Z then None else nth_error a (Z.to_nat i).

(** The relative index of [Array.prototype.slice]. *)
Definition rel_index (len k : Z) : Z :=
  if (k <? 0)%Z then Z.max (len + k) 0 else Z.min k len.

(** [a.slice(from, to)]. *)
Definition slice {A} (a : list A) (from to : Z) : list A :=
  let len := Z.of_nat (length a) in
  let k := rel_index len from in
  let e := rel_index len to in
  firstn (Z.to_nat (e - k)) (skipn (Z.to_nat k) a).

(** [a.reduce((x, y) => x + y, 0)]. *)
Definition sum (a : list Q) : Q := fold_left Qplus a 0.

(** Arithmetic that propagates [NaN]. *)
Definition lift2 (f : Q -> Q -> Q) (x y : num) : num :=
  match x, y with Some a, Some b => Some (f a b) | _, _ => None end.

End JS.

(* ===================================================================== *)
(** ** Configuration and state (lines 782-802) *)
(* ===================================================================== *)

Inductive Key := OBV | STOCH | OI_PROXY | MACD.

Record Weights := mkWeights {
  wOBV : Q;       (* Money Flow *)
  wSTOCH : Q;     (* Momentum/Reversal *)
  wOI_PROXY : Q;  (* Immediate Candle Pressure *)
  wMACD : Q       (* Trend Confirmation *)
}.

(** [Object.keys] of the [CURRENT_WEIGHTS] literal (lines 783-788). *)
Definition indicatorKeys : list Key := [OBV; STOCH; OI_PROXY; MACD].

(** [w[key]] and [w[key] = v]. *)
Definition wget (w : Weights) (k : Key) : Q :=
  match k with
  | OBV => wOBV w | STOCH => wSTOCH w | OI_PROXY => wOI_PROXY w | MACD => wMACD w
  end.

Definition wset (w : Weights) (k : Key) (v : Q) : Weights :=
  match k with
  | OBV => mkWeights v (wSTOCH w) (wOI_PROXY w) (wMACD w)
  | STOCH => mkWeights (wOBV w) v (wOI_PROXY w) (wMACD w)
  | OI_PROXY => mkWeights (wOBV w) (wSTOCH w) v (wMACD w)
  | MACD => mkWeights (wOBV w) (wSTOCH w) (wOI_PROXY w) v
  end.

(** The range the learner clamps to. *)
Definition in_range (w : Weights) : Prop :=
  forall k, 5 <= wget w k <= 100.

(** [Object.values(w).reduce((a, b) => a + b, 0)]. *)
Definition wtotal (w : Weights) : Q :=
  JS.sum (map (wget w) indicatorKeys).

(** [for (const key of indicatorKeys) w[key] = f(key, w[key])]. *)
Definition for_keys (f : Key -> Q -> Q) (w : Weights) : Weights :=
  fold_left (fun acc k => wset acc k (f k (wget acc k))) indicatorKeys w.

Definition CURRENT_WEIGHTS : Weights := mkWeights 30 25 20 10.
Definition OBI_WEIGHT : Q := 15.
Definition LEARNING_RATE : Q := 1 # 2.
Definition LOOKBACK_PERIOD : Z := 200.
Definition LEARNING_TRADE_COUNT : Z := 50.
Definition LOOKAHEAD_CANDLES : Z := 4.
Definition CONCURRENCY_LIMIT : nat := 10.
Definition TARGET_TOTAL_WEIGHT : Q := 100 - OBI_WEIGHT.
Definition EPSILON : Q := 1 # 1000000.   (* 1e-6 *)

Record Candle := mkCandle {
  time : Z; open : Q; high : Q; low : Q; close : Q; volume : Q
}.

(* ===================================================================== *)
(** ** Prediction engine (lines 1100-1148) *)
(* ===================================================================== *)

Inductive Direction := UP | DOWN | FLAT.

Definition Direction_eqb (a b : Direction) : bool :=
  match a, b with
  | UP, UP | DOWN, DOWN | FLAT, FLAT => true
  | _, _ => false
  end.

Record ComponentScores := mkComponents {
  cOBV : Q; cSTOCH : Q; cOI_PROXY : Q; cMACD : Q; cOBI : Q
}.

(** [componentScores[key]] for an adjustable key. *)
Definition cget (c : ComponentScores) (k : Key) : Q :=
  match k with
  | OBV => cOBV c | STOCH => cSTOCH c | OI_PROXY => cOI_PROXY c | MACD => cMACD c
  end.

Record PredictionResult := mkPrediction {
  prediction : Direction;
  confidence : Q;
  score : Q;
  componentScores : ComponentScores
}.

Definition generatePrediction
    (obvPctChange stochK macdHist volumePressure obiPct : JS.num)
    (weights : Weights) : PredictionResult :=
  let score := 0 in
  (* 1. OBV *)
  let obvScore :=
    if JS.gt obvPctChange 1 then wOBV weights
    else if JS.lt obvPctChange (-1) then - wOBV weights
    else 0 in
  let score := score + obvScore in
  (* 2. Stochastic %K *)
  let stochScore :=
    if JS.lt stochK 25 then wSTOCH weights
    else if JS.gt stochK 75 then - wSTOCH weights
    else 0 in
  let score := score + stochScore in
  (* 3. Volume pressure *)
  let oiScore :=
    if JS.gt volumePressure 50 then wOI_PROXY weights
    else if JS.lt volumePressure (-50) then - wOI_PROXY weights
    else if JS.gt volumePressure 10 then wOI_PROXY weights / 2
    else if JS.lt volumePressure (-10) then - wOI_PROXY weights / 2
    else 0 in
  let score := score + oiScore in
  (* 4. MACD histogram *)
  let macdScore :=
    if JS.gt macdHist 0 then wMACD weights
    else if JS.lt macdHist 0 then - wMACD weights
    else 0 in
  let score := score + macdScore in
  (* 5. Order-book imbalance, static weight *)
  let obiScore :=
    if JS.gt obiPct 65 then OBI_WEIGHT
    else if JS.lt obiPct 35 then - OBI_WEIGHT
    else if JS.gt obiPct 55 then OBI_WEIGHT / 2
    else if JS.lt obiPct 45 then - OBI_WEIGHT / 2
    else 0 in
  let score := score + obiScore in
  let prediction := if Qle_bool 0 score then UP else DOWN in
  let confidence := Qmin 100 (Qabs score) in
  mkPrediction prediction confidence score
    (mkComponents obvScore stochScore oiScore macdScore obiScore).

(* ===================================================================== *)
(** ** Indicator library (lines 918-1048) *)
(* ===================================================================== *)

(** [a.map((x, i) => f(x, i))], the index counted from [i]. *)
Fixpoint mapi_from {A B} (f : A -> Z -> B) (i : Z) (a : list A) : list B :=
  match a with
  | [] => []
  | x :: rest => f x i :: mapi_from f (i + 1) rest
  end.

Definition mapi {A B} (f : A -> Z -> B) (a : list A) : list B := mapi_from f 0 a.

(** The loop of [calculate_ema] from index [i] on; [current_ema] is [None]
    for the JavaScript [null]. *)
Fixpoint ema_loop (alpha : Q) (data : list Q) (i : Z) (rest : list Q)
    (current_ema : option Q) : list Q :=
  match rest with
  | [] => []
  | x :: rest' =>
      let c :=
        match current_ema with
        | None => JS.sum (JS.slice data 0 (i + 1)) / inject_Z (i + 1)
        | Some e => alpha * x + (1 - alpha) * e
        end in
      c :: ema_loop alpha data (i + 1) rest' (Some c)
  end.

Definition calculate_ema (data : list Q) (window : Q) : list Q :=
  let alpha := 2 / (window + 1) in
  ema_loop alpha data 0 data None.

(** [macd_hist] of [calculate_macd]; [ema_fast] and [ema_slow] have the
    length of [closes], so [ema_slow[i]] is the element paired with [f]. *)
Definition calculate_macd_with (data : list Candle) (fast slow signal : Q) : list Q :=
  let closes := map close data in
  let ema_fast := calculate_ema closes fast in
  let ema_slow := calculate_ema closes slow in
  let macd_line := map (fun fs => fst fs - snd fs) (combine ema_fast ema_slow) in
  mapi (fun m i =>
          let signal_line := calculate_ema (JS.slice macd_line 0 (i + 1)) signal in
          m - last signal_line 0)
       macd_line.

Definition calculate_macd (data : list Candle) : list Q :=
  calculate_macd_with data 12 26 9.

(** The loop of [calculate_obv] from index 1 on. *)
Fixpoint obv_loop (prev_close prev_obv : Q) (rest : list Candle) : list Q :=
  match rest with
  | [] => []
  | c :: rest' =>
      let o :=
        if JS.Qlt_bool prev_close (close c) then prev_obv + volume c
        else if JS.Qlt_bool (close c) prev_close then prev_obv - volume c
        else prev_obv in
      o :: obv_loop (close c) o rest'
  end.

Definition calculate_obv (data : list Candle) : list Q :=
  match data with
  | [] => []
  | c0 :: rest => volume c0 :: obv_loop (close c0) (volume c0) rest
  end.

(** [Math.min(...a)] and [Math.max(...a)] of a non-empty array. *)
Definition min_of (a : list Q) : Q :=
  match a with [] => 0 | x :: rest => fold_left Qmin rest x end.
Definition max_of (a : list Q) : Q :=
  match a with [] => 0 | x :: rest => fold_left Qmax rest x end.

Definition calculate_stochastic_with (data : list Candle) (k_window : Z) : list Q :=
  mapi (fun c i =>
          if (i <? k_window - 1)%Z then 50
          else
            let windowData := JS.slice data (i - k_window + 1) (i + 1) in
            let lowestLow := min_of (map low windowData) in
            let highestHigh := max_of (map high windowData) in
            let currentClose := close c in
            let range := highestHigh - lowestLow in
            if JS.Qlt_bool EPSILON range
            then 100 * (currentClose - lowestLow) / range
            else 50)
       data.

Definition calculate_stochastic (data : list Candle) : list Q :=
  calculate_stochastic_with data 14.

(** The first loop of [calculate_atr]: one true range per candle from
    index 1 on, [prev] being the candle before. *)
Fixpoint true_ranges_from (prev : Candle) (rest : list Candle) : list Q :=
  match rest with
  | [] => []
  | c :: rest' =>
      let high_low := high c - low c in
      let high_prevClose := Qabs (high c - close prev) in
      let low_prevClose := Qabs (low c - close prev) in
      Qmax (Qmax high_low high_prevClose) low_prevClose
        :: true_ranges_from c rest'
  end.

Definition true_ranges (data : list Candle) : list Q :=
  match data with
  | [] => []
  | c0 :: rest => true_ranges_from c0 rest
  end.

(** The second loop of [calculate_atr], over [trueRanges[window ..]]. *)
Fixpoint wilder_loop (window : Q) (current_atr : Q) (rest : list Q) : list Q :=
  match rest with
  | [] => []
  | tr :: rest' =>
      let current_atr := (current_atr * (window - 1) + tr) / window in
      current_atr :: wilder_loop window current_atr rest'
  end.

Definition calculate_atr (data : list Candle) (window : nat) : list Q :=
  let trueRanges := true_ranges data in
  let w := inject_Z (Z.of_nat window) in
  let atr :=
    match trueRanges with
    | [] => []
    | _ :: _ =>
        let initial_sum := JS.sum (firstn window trueRanges) in
        let current_atr := initial_sum / w in
        current_atr :: wilder_loop w current_atr (skipn window trueRanges)
    end in
  repeat (hd 0 atr) (length data - length trueRanges) ++ atr.

Definition calculate_volume_pressure (lastCandle : Candle) : Q :=
  let range := high lastCandle - low lastCandle in
  if JS.Qlt_bool range EPSILON then 0
  else
    let close_position := (close lastCandle - low lastCandle) / range in
    let sentiment := close_position * 2 - 1 in
    sentiment * 100.

(** An order-book level [[price, qty]], both already parsed by
    [parseFloat]. *)
Definition Level : Type := Q * Q.

(** The parsed depth response; a missing [bids] or [asks] is [None]. *)
Record Book := mkBook {
  bids : option (list Level);
  asks : option (list Level)
}.

(** [levels.reduce((sum, [price, qty], index) => sum + qty * (limit - index), 0)]. *)
Definition weighted_volume (limit : Z) (levels : list Level) : Q :=
  JS.sum (mapi (fun l index => snd l * inject_Z (limit - index)) levels).

(** [book] is [None] for a [null] response. *)
Definition calculate_depth_weighted_imbalance (book : option Book) : Q :=
  match book with
  | None => 0
  | Some b =>
      match bids b, asks b with
      | Some bs, Some as_ =>
          let limit := Z.of_nat (length bs) in
          let totalWeightedBidVolume := weighted_volume limit bs in
          let totalWeightedAskVolume := weighted_volume limit as_ in
          let totalWeightedVolume := totalWeightedBidVolume + totalWeightedAskVolume in
          if JS.Qlt_bool totalWeightedVolume EPSILON then 50
          else totalWeightedBidVolume / totalWeightedVolume * 100
      | _, _ => 0
      end
  end.

(* ===================================================================== *)
(** ** Weight aggregator (lines 1050-1098) *)
(* ===================================================================== *)

(** The accuracy string of a learning pass: ['N/A'], or a decimal numeral
    (['0'] or the output of [toFixed(1)]) kept as its value. *)
Inductive Accuracy := NA | Pct (value : Q).

Definition parseFloat (a : Accuracy) : JS.num :=
  match a with NA => None | Pct v => Some v end.

Record LearningOutcome := mkOutcome {
  weights : Weights;
  accuracy : Accuracy
}.


(** The running [totalAccuracy] of [averageWeights] on its own. *)
Definition accuracy_total (rs : list LearningOutcome) : JS.num :=
  fold_left (fun ta r => JS.lift2 Qplus ta (parseFloat (accuracy r))) rs (Some 0).

(** [if (sumCorrection !== 0) w[indicatorKeys[0]] += sumCorrection], for
    the key order [keys] of the object the code takes its keys from. *)
Definition correct_sum_in (keys : list Key) (w : Weights) : Weights :=
  let sumCorrection := TARGET_TOTAL_WEIGHT - wtotal w in
  if Qeq_bool sumCorrection 0 then w
  else
    match keys with
    | [] => w
    | keyToAdjust :: _ => wset w keyToAdjust (wget w keyToAdjust + sumCorrection)
    end.

(** The same at the key order of the literal. *)
Definition correct_sum (w : Weights) : Weights := correct_sum_in indicatorKeys w.

(** Returns [averagedWeights] and [averageAccuracy], the latter [None] for
    the string ['NaN']; [keys] is [Object.keys(CURRENT_WEIGHTS)] (line 1051). *)
Definition averageWeights_in (keys : list Key)
    (allLearnedResults : list LearningOutcome) : Weights * JS.num :=
  let averagedWeights := for_keys (fun _ _ => 0) (mkWeights 0 0 0 0) in
  let totalAccuracy : JS.num := Some 0 in
  let '(averagedWeights, totalAccuracy) :=
    fold_left
      (fun (st : Weights * JS.num) (r : LearningOutcome) =>
         let '(aw, ta) := st in
         (for_keys (fun key v => v + wget (weights r) key) aw,
          JS.lift2 Qplus ta (parseFloat (accuracy r))))
      allLearnedResults (averagedWeights, totalAccuracy) in
  let count := inject_Z (Z.of_nat (length allLearnedResults)) in
  let averagedWeights := for_keys (fun _ v => JS.round (v / count)) averagedWeights in
  let currentTotal := wtotal averagedWeights in
  let normalizationFactor := TARGET_TOTAL_WEIGHT / currentTotal in
  let averagedWeights :=
    for_keys (fun _ v => Qmax 5 (JS.round (v * normalizationFactor))) averagedWeights in
  (* Re-normalize after min check *)
  let finalTotal := wtotal averagedWeights in
  let finalNormalizationFactor := TARGET_TOTAL_WEIGHT / finalTotal in
  let averagedWeights :=
    for_keys (fun _ v => JS.round (v * finalNormalizationFactor)) averagedWeights in
  (* Final check to ensure it sums exactly to TARGET_TOTAL_WEIGHT *)
  let averagedWeights := correct_sum_in keys averagedWeights in
  let averageAccuracy :=
    match totalAccuracy with
    | Some t => Some (JS.toFixed 1 (t / count))
    | None => None
    end in
  (averagedWeights, averageAccuracy).

(** The same at the key order of the literal. *)
Definition averageWeights (allLearnedResults : list LearningOutcome)
    : Weights * JS.num :=
  averageWeights_in indicatorKeys allLearnedResults.

(* ===================================================================== *)
(** ** Adaptive weight learner (lines 1151-1232) *)
(* ===================================================================== *)

(** [((final_obv - initial_obv) / Math.abs(initial_obv || 1e-6)) * 100] for
    the first and last element of [obv_window]. *)
Definition obv_pct_change_of (obv_window : list Q) : JS.num :=
  let initial_obv := JS.get obv_window 0 in
  let final_obv := JS.get obv_window (Z.of_nat (length obv_window) - 1) in
  match initial_obv, final_obv with
  | Some i, Some f =>
      Some ((f - i) / Qabs (if Qeq_bool i 0 then EPSILON else i) * 100)
  | _, _ => None
  end.

(** The prediction of one trial, from the candles up to [predictIndex]
    only and with the order-book input held at 50. *)
Definition trial_prediction (data : list Candle) (predictIndex : Z)
    (predictCandle : Candle) (adjustedWeights : Weights) : PredictionResult :=
  let subData := JS.slice data 0 (predictIndex + 1) in
  let obv_values := calculate_obv subData in
  let macd_hist := calculate_macd subData in
  let stoch_k := JS.get (calculate_stochastic subData) predictIndex in
  let volume_pressure := calculate_volume_pressure predictCandle in
  let macd_hist_val := JS.get macd_hist predictIndex in
  let obv_window_start := Z.max 0 (predictIndex - 20) in
  let obv_window := JS.slice obv_values obv_window_start predictIndex in
  let obv_pct_change := obv_pct_change_of obv_window in
  let NEUTRAL_OBI := 50 in
  generatePrediction obv_pct_change stoch_k macd_hist_val (Some volume_pressure)
    (Some NEUTRAL_OBI) adjustedWeights.

Definition actual_direction (predictCandle outcomeCandle : Candle) : Direction :=
  let actualChange := close outcomeCandle - close predictCandle in
  if JS.Qlt_bool 0 actualChange then UP
  else if JS.Qlt_bool actualChange 0 then DOWN
  else FLAT.

(** Does [key] carry the sign of the net score? *)
Definition voted_with (p : PredictionResult) (key : Key) : bool :=
  (JS.sign (cget (componentScores p) key) =? JS.sign (score p))%Z.

(** The reward and penalty loops over [indicatorKeys]. *)
Definition adjust_weights (p : PredictionResult) (isHit : bool)
    (adjustedWeights : Weights) : Weights :=
  if isHit then
    for_keys (fun key v =>
                if voted_with p key then Qmin 100 (v + LEARNING_RATE) else v)
             adjustedWeights
  else
    for_keys (fun key v =>
                if voted_with p key then Qmax 5 (v - LEARNING_RATE) else v)
             adjustedWeights.

Record LearnState := mkLearn {
  adjustedWeights : Weights;
  hits : Z;
  totalTrades : Z
}.

(** The body of the trial loop at counter [i], after the index guard.
    [None] is the [TypeError] of reading [.close] of a missing candle. *)
Definition learner_trial (data : list Candle) (i : Z) (st : LearnState)
    : option LearnState :=
  let len := Z.of_nat (length data) in
  let predictIndex := (len - LOOKAHEAD_CANDLES - 1 - i)%Z in
  let outcomeIndex := (len - 1 - i)%Z in
  match JS.get data predictIndex, JS.get data outcomeIndex with
  | Some predictCandle, Some outcomeCandle =>
      let p := trial_prediction data predictIndex predictCandle (adjustedWeights st) in
      let actualDirection := actual_direction predictCandle outcomeCandle in
      let isHit := Direction_eqb (prediction p) actualDirection in
      Some (mkLearn (adjust_weights p isHit (adjustedWeights st))
                    (if isHit then hits st + 1 else hits st)%Z
                    (totalTrades st))
  | _, _ => None
  end.

(** [for (let i = 0; i < totalTrades; i++)] with [n] iterations left; the
    index guard sets [totalTrades = i] and breaks. *)
Fixpoint learn_loop (data : list Candle) (n : nat) (i : Z) (st : LearnState)
    : option LearnState :=
  match n with
  | O => Some st
  | S n' =>
      let len := Z.of_nat (length data) in
      let predictIndex := (len - LOOKAHEAD_CANDLES - 1 - i)%Z in
      let outcomeIndex := (len - 1 - i)%Z in
      if (predictIndex <? 26)%Z || (len <=? outcomeIndex)%Z
      then Some (mkLearn (adjustedWeights st) (hits st) i)
      else
        match learner_trial data i st with
        | None => None
        | Some st' => learn_loop data n' (i + 1) st'
        end
  end.

(** The proportional scaling to [TARGET_TOTAL_WEIGHT] with rounding. *)
Definition normalize_weights (w : Weights) : Weights :=
  let currentTotal := wtotal w in
  let normalizationFactor := TARGET_TOTAL_WEIGHT / currentTotal in
  for_keys (fun _ v => JS.round (v * normalizationFactor)) w.

(** [totalTrades > 0 ? ((hits / totalTrades) * 100).toFixed(1) : '0']. *)
Definition accuracy_of (st : LearnState) : Accuracy :=
  if (0 <? totalTrades st)%Z
  then Pct (JS.toFixed 1 (inject_Z (hits st) / inject_Z (totalTrades st) * 100))
  else Pct 0.

(** The learner after its length guard; [keys] is
    [Object.keys(initialWeights)] (line 1159). *)
Definition learn_in (keys : list Key) (data : list Candle) (initialWeights : Weights)
    : option (LearnState * LearningOutcome) :=
  match learn_loop data (Z.to_nat LEARNING_TRADE_COUNT) 0
                   (mkLearn initialWeights 0 LEARNING_TRADE_COUNT) with
  | None => None
  | Some st =>
      let w := normalize_weights (adjustedWeights st) in
      (* Ensure sum is exactly 85 due to rounding *)
      let w := correct_sum_in keys w in
      Some (st, mkOutcome w (accuracy_of st))
  end.

(** [None] stands for an uncaught exception. *)
Definition calculate_and_adjust_weights_in (keys : list Key) (data : list Candle)
    (initialWeights : Weights) : option LearningOutcome :=
  if (Z.of_nat (length data) <? LOOKBACK_PERIOD)%Z
  then Some (mkOutcome initialWeights NA)
  else option_map snd (learn_in keys data initialWeights).

(** The same at the key order of the literal. *)
Definition learn (data : list Candle) (initialWeights : Weights)
    : option (LearnState * LearningOutcome) :=
  learn_in indicatorKeys data initialWeights.

Definition calculate_and_adjust_weights (data : list Candle) (initialWeights : Weights)
    : option LearningOutcome :=
  calculate_and_adjust_weights_in indicatorKeys data initialWeights.

(** The earlier revision of the learner (lines 385-461): its guard is the
    trade count plus the lookahead, its penalty keys off the predicted and
    the actual direction, and it has no remainder correction. *)
Module Earlier.

Definition adjust_weights (p : PredictionResult) (actualDirection : Direction)
    (isHit : bool) (adjustedWeights : Weights) : Weights :=
  if isHit then
    for_keys (fun key v =>
                if JS.Qlt_bool 0 (cget (componentScores p) key * score p)
                then Qmin 100 (v + LEARNING_RATE) else v)
             adjustedWeights
  else
    for_keys (fun key v =>
                if Direction_eqb (prediction p) UP && Direction_eqb actualDirection DOWN
                then
                  if JS.Qlt_bool 0 (cget (componentScores p) key)
                  then Qmax 5 (v - LEARNING_RATE) else v
                else if Direction_eqb (prediction p) DOWN && Direction_eqb actualDirection UP
                then
                  if JS.Qlt_bool (cget (componentScores p) key) 0
                  then Qmax 5 (v - LEARNING_RATE) else v
                else v)
             adjustedWeights.

Definition learner_trial (data : list Candle) (i : Z) (st : LearnState)
    : option LearnState :=
  let len := Z.of_nat (length data) in
  let predictIndex := (len - LOOKAHEAD_CANDLES - 1 - i)%Z in
  let outcomeIndex := (len - 1 - i)%Z in
  match JS.get data predictIndex, JS.get data outcomeIndex with
  | Some predictCandle, Some outcomeCandle =>
      let p := trial_prediction data predictIndex predictCandle (adjustedWeights st) in
      let actualDirection := actual_direction predictCandle outcomeCandle in
      let isHit := Direction_eqb (prediction p) actualDirection in
      Some (mkLearn (adjust_weights p actualDirection isHit (adjustedWeights st))
                    (if isHit then hits st + 1 else hits st)%Z
                    (totalTrades st))
  | _, _ => None
  end.

Fixpoint learn_loop (data : list Candle) (n : nat) (i : Z) (st : LearnState)
    : option LearnState :=
  match n with
  | O => Some st
  | S n' =>
      let len := Z.of_nat (length data) in
      let predictIndex := (len - LOOKAHEAD_CANDLES - 1 - i)%Z in
      let outcomeIndex := (len - 1 - i)%Z in
      if (predictIndex <? 26)%Z || (len <=? outcomeIndex)%Z
      then Some (mkLearn (adjustedWeights st) (hits st) i)
      else
        match learner_trial data i st with
        | None => None
        | Some st' => learn_loop data n' (i + 1) st'
        end
  end.

Definition learn (data : list Candle) (initialWeights : Weights)
    : option (LearnState * LearningOutcome) :=
  match learn_loop data (Z.to_nat LEARNING_TRADE_COUNT) 0
                   (mkLearn initialWeights 0 LEARNING_TRADE_COUNT) with
  | None => None
  | Some st =>
      Some (st, mkOutcome (normalize_weights (adjustedWeights st)) (accuracy_of st))
  end.

Definition calculate_and_adjust_weights (data : list Candle) (initialWeights : Weights)
    : option LearningOutcome :=
  if (Z.of_nat (length data) <? LEARNING_TRADE_COUNT + LOOKAHEAD_CANDLES)%Z
  then Some (mkOutcome initialWeights NA)
  else option_map snd (learn data initialWeights).

End Earlier.

(* ===================================================================== *)
(** ** Per-symbol scan evaluation (lines 1327-1381) *)
(* ===================================================================== *)

(** The outcome of an awaited network call. *)
Inductive Fetched (A : Type) :=
| Resolved (value : A)
| Rejected (message : string).
Arguments Resolved {A} value.
Arguments Rejected {A} message.

Record ScanResult := mkScanResult {
  sr_symbol : string;
  sr_score : Q;
  sr_confidence : Q;
  sr_prediction : Direction;
  sr_recentChange : Q;
  sr_atr : Q;
  sr_obiPct : Q
}.

(** The local constants of [processSymbolForScan] that its gate reads. *)
Record ScanLocals := mkScanLocals {
  sl_obiPct : Q;
  sl_current_atr : JS.num;
  sl_recent_price_change : Q;
  sl_prediction : PredictionResult;
  sl_lastCandleBody : Q;
  sl_recentVolatilityRatio : Q
}.

(** The straight-line part of [processSymbolForScan] between the two
    fetches and the gate; [None] is a [TypeError] on a missing candle. *)
Definition scan_locals (data : list Candle) (orderBook : option Book)
    (optimizedWeights : Weights) : option ScanLocals :=
  let obiPct := calculate_depth_weighted_imbalance orderBook in
  let lastIndex := (Z.of_nat (length data) - 2)%Z in
  match JS.get data lastIndex, JS.get data (lastIndex - 1) with
  | Some current, Some previous =>
      let obv_values := calculate_obv data in
      let macd_hist := calculate_macd data in
      let stoch_k := JS.get (calculate_stochastic data) lastIndex in
      let volume_pressure := calculate_volume_pressure current in
      let macd_hist_val := JS.get macd_hist lastIndex in
      let atr_values := calculate_atr data 14 in
      let current_atr := JS.get atr_values lastIndex in
      let obv_window := JS.slice obv_values (lastIndex - 20) lastIndex in
      let obv_pct_change := obv_pct_change_of obv_window in
      let recent_price_change := (close current - close previous) / close previous * 100 in
      let p := generatePrediction obv_pct_change stoch_k macd_hist_val
                 (Some volume_pressure) (Some obiPct) optimizedWeights in
      let lastCandleBody := Qabs (close current - open current) in
      let recentVolatilityRatio :=
        match current_atr with
        | Some a => if JS.Qlt_bool EPSILON a then lastCandleBody / a else 0
        | None => 0
        end in
      Some (mkScanLocals obiPct current_atr recent_price_change p lastCandleBody
                         recentVolatilityRatio)
  | _, _ => None
  end.

(** [null] is [None]; a rejected fetch and a thrown error are caught and
    give [null] as well. *)
Definition processSymbolForScan (symbol : string) (optimizedWeights : Weights)
    (fetchBinanceData : Fetched (list Candle))
    (fetchOrderBookData : Fetched (option Book)) : option ScanResult :=
  match fetchBinanceData with
  | Rejected _ => None
  | Resolved data =>
      if (Z.of_nat (length data) <? LOOKBACK_PERIOD - 1)%Z then None
      else
        match fetchOrderBookData with
        | Rejected _ => None
        | Resolved orderBook =>
            match scan_locals data orderBook optimizedWeights with
            | None => None
            | Some l =>
                if Qle_bool 50 (confidence (sl_prediction l))
                   && JS.Qlt_bool (1 # 2) (sl_recentVolatilityRatio l)
                then
                  match sl_current_atr l with
                  | Some a =>
                      Some (mkScanResult symbol
                              (score (sl_prediction l))
                              (confidence (sl_prediction l))
                              (prediction (sl_prediction l))
                              (JS.toFixed 2 (sl_recent_price_change l))
                              (JS.toFixed 4 a)
                              (JS.toFixed 1 (sl_obiPct l)))
                  | None => None
                  end
                else None
            end
        end
  end.

(* ===================================================================== *)
(** ** Learning phase of a cycle (scanAndReport, lines 1429-1463) *)
(* ===================================================================== *)




(* ===================================================================== *)
(** ** Bounded-concurrency sweep (runWithConcurrency, lines 1294-1319) *)
(* ===================================================================== *)

(** The function is modelled as a transition system.  A task is the way
    its promise settles once it does; when it does is left open, so every
    order of completion is a run.  The body of the function runs from one
    [await] to the next without interruption; a settlement runs the
    [finally] callback ([active.delete], [++completed]), then the [then]
    callback ([results.push] of a truthy result), then wakes the awaited
    [Promise.race] or [Promise.all].  A settlement seen while the body is
    not waiting has no effect on it: it is the case of a promise settling
    after the awaited race was already won. *)
Module Scheduler.

Section WithResult.

Context {R : Type}.

(** How [task()] settles: fulfilled with a result ([None] for a falsy
    one such as [null]) or rejected. *)
Inductive Outcome :=
| Fulfils (result : option R)
| Rejects.

(** Where the body of [runWithConcurrency] stands. *)
Inductive Main :=
| Running      (* in the [for] loop, about to take the next task *)
| AwaitRace    (* suspended in [await Promise.race(active)] *)
| AwaitAll     (* suspended in [await Promise.all(active)] *)
| Returned     (* [return results] *)
| Thrown.      (* an awaited promise rejected: the function rejects *)

Record State := mkState {
  next : nat;            (* index in [tasks] of the next task to start *)
  active : list nat;     (* indices of the promises in the [active] set *)
  results : list R;
  completed : nat;
  main : Main
}.

Definition initial : State := mkState 0 [] [] 0 Running.

(** [active.delete(promise)]. *)
Definition delete (i : nat) (a : list nat) : list nat :=
  filter (fun j => negb (Nat.eqb j i)) a.

(** One turn of the [for] loop, up to its [await] if it reaches it, or
    the end of the loop with its [await Promise.all(active)]. *)
Definition launch (tasks : list Outcome) (limit : nat) (s : State) : State :=
  match nth_error tasks (next s) with
  | Some _ =>
      let active' := active s ++ [next s] in
      mkState (S (next s)) active' (results s) (completed s)
              (if limit <=? length active' then AwaitRace else Running)
  | None =>
      mkState (next s) (active s) (results s) (completed s)
              (match active s with [] => Returned | _ :: _ => AwaitAll end)
  end.

(** The promise of task [i] settles as [o]. *)
Definition settle (i : nat) (o : Outcome) (s : State) : State :=
  let active' := delete i (active s) in
  let results' :=
    match o with
    | Fulfils (Some r) => results s ++ [r]
    | _ => results s
    end in
  let main' :=
    match main s, o with
    | AwaitRace, Fulfils _ => Running
    | AwaitRace, Rejects => Thrown
    | AwaitAll, Fulfils _ =>
        match active' with [] => Returned | _ :: _ => AwaitAll end
    | AwaitAll, Rejects => Thrown
    | m, _ => m
    end in
  mkState (next s) active' results' (S (completed s)) main'.

Inductive step (tasks : list Outcome) (limit : nat) : State -> State -> Prop :=
| step_launch s :
    main s = Running ->
    step tasks limit s (launch tasks limit s)
| step_settle s i o :
    In i (active s) ->
    nth_error tasks i = Some o ->
    step tasks limit s (settle i o s).

(** The states of the runs of [runWithConcurrency(tasks, limit)]. *)
Inductive reachable (tasks : list Outcome) (limit : nat) : State -> Prop :=
| reach_initial : reachable tasks limit initial
| reach_step s s' :
    reachable tasks limit s -> step tasks limit s s' ->
    reachable tasks limit s'.

(** Runs of [n] transitions. *)
Inductive steps (tasks : list Outcome) (limit : nat) : nat -> State -> State -> Prop :=
| steps_none s : steps tasks limit 0 s s
| steps_more n s s' s'' :
    steps tasks limit n s s' -> step tasks limit s' s'' ->
    steps tasks limit (S n) s s''.


(** The tasks started so far that have not settled. *)
Definition in_flight (s : State) : nat := length (active s).

Definition never_rejects (o : Outcome) : Prop :=
  match o with Fulfils _ => True | Rejects => False end.

(** What the [then] callback of task [i] pushes on [results]. *)
Definition result_of (tasks : list Outcome) (i : nat) : list R :=
  match nth_error tasks i with
  | Some (Fulfils (Some r)) => [r]
  | _ => []
  end.

(** The invariant of the runs: with [settled] the tasks that have
    settled, in the order they did, the tasks started are the settled
    and the active ones, [results] holds the truthy results of the
    settled tasks, and the body waits only with a task in flight and
    takes a new task only below the limit. *)
Definition invariant (tasks : list Outcome) (limit : nat) (s : State) : Prop :=
  exists settled : list nat,
    Permutation (settled ++ active s) (seq 0 (next s))
    /\ (next s <= length tasks)%nat
    /\ completed s = length settled
    /\ results s = flat_map (result_of tasks) settled
    /\ (length (active s) <= limit)%nat
    /\ match main s with
       | Running => (length (active s) < limit)%nat
       | AwaitRace => active s <> []
       | AwaitAll => active s <> [] /\ next s = length tasks
       | Returned => active s = [] /\ next s = length tasks
       | Thrown => exists i, nth_error tasks i = Some Rejects
       end.

(** A measure every transition decreases. *)
Definition fuel (tasks : list Outcome) (s : State) : nat :=
  3 * (length tasks - next s) + 2 * length (active s)
  + match main s with Running => 1 | _ => 0 end.

End WithResult.

Arguments Outcome R : clear implicits.
Arguments State R : clear implicits.

End Scheduler.

(* ===================================================================== *)
(** ** Concrete inputs *)
(* ===================================================================== *)

(** The candle opened at time [t] that opens and closes at 1, its low,
    below a high of 2, with volume 1. *)
Definition flat_candle (t : Z) : Candle := mkCandle t 1 2 1 1 1.

(** The first [n] such candles, oldest first. *)
Definition flat_candles (n : nat) : list Candle :=
  map (fun k => flat_candle (Z.of_nat k)) (seq 0 n).

Definition candles16 : list Candle := flat_candles 16.
Definition candles54 : list Candle := flat_candles 54.
Definition candles200 : list Candle := flat_candles 200.

(** The symmetric two-level book of the specification, at price [p]. *)
Definition symmetric_book (p : Q) : Book :=
  mkBook (Some [(p, 10); (p, 5)]) (Some [(p, 10); (p, 5)]).

(** A book with resting bids only. *)
Definition strong_bid_book : Book :=
  mkBook (Some [(1, 10); (1, 5)]) (Some []).

(** Thirty-one candles whose close rises by 1 each, in the middle of a
    range of 2, with volume 1: the shortest history on which a trial passes
    the warm-up guard of the loop (the trial at counter 0 predicts at index
    26 and observes at index 30). *)
Definition rising_candle (c : Z) : Candle :=
  mkCandle c (inject_Z c) (inject_Z c + 1) (inject_Z c - 1) (inject_Z c) 1.
Definition rising31 : list Candle :=
  map (fun n => rising_candle (Z.of_nat n)) (seq 1 31).

(** A weight vector [averageWeights] can return (see
    [averageWeights_below_floor]) and the next cycle's learner then starts
    from. *)
Definition below_floor_weights : Weights := mkWeights 4 27 27 27.

(** Two learned vectors within [5, 100] that sum to 85. *)
Definition panel_a : Weights := mkWeights 5 27 27 26.
Definition panel_b : Weights := mkWeights 5 26 27 27.

(** The keys in alphabetical order, as a document store that sorts the
    fields of a map hands them back. *)
Definition stored_key_order : list Key := [MACD; OBV; OI_PROXY; STOCH].


(** The task of one instrument in the sweep: [processSymbolForScan] catches
    every error, so its promise is always fulfilled. *)
Definition scan_task (symbol : string) (optimizedWeights : Weights)
    (fetchBinanceData : Fetched (list Candle))
    (fetchOrderBookData : Fetched (option Book)) : Scheduler.Outcome ScanResult :=
  Scheduler.Fulfils
    (processSymbolForScan symbol optimizedWeights fetchBinanceData fetchOrderBookData).

(** Two tasks of which the first rejects, and the run in which it does so
    under a limit of 1. *)
Definition rejecting_tasks : list (Scheduler.Outcome nat) :=
  [Scheduler.Rejects; Scheduler.Fulfils (Some 7%nat)].


(* ===================================================================== *)
(** ** Universe listing (fetchTopSymbols, lines 1234-1260) *)
(* ===================================================================== *)

(** [s.includes(search)]. *)
Fixpoint includes (search s : string) : bool :=
  String.prefix search s
  || match s with
     | EmptyString => false
     | String _ s' => includes search s'
     end.

(** [s.endsWith(suffix)]. *)
Definition endsWith (s suffix : string) : bool :=
  let n := String.length s in
  let m := String.length suffix in
  (m <=? n)%nat && String.eqb (String.substring (n - m) m s) suffix.

(** [a.sort(compare)]: the sort is stable, so for a comparator that orders
    by a key its result is the one of inserting each element, from the last
    to the first, in front of the first element it does not compare greater
    than. *)
Fixpoint sort_insert {A} (compare : A -> A -> Q) (x : A) (sorted : list A) : list A :=
  match sorted with
  | [] => [x]
  | y :: rest =>
      if JS.Qlt_bool 0 (compare x y) then y :: sort_insert compare x rest
      else x :: y :: rest
  end.

Definition sort_by {A} (compare : A -> A -> Q) (a : list A) : list A :=
  fold_right (sort_insert compare) [] a.

(** One entry of the 24-hour ticker response, [quoteVolume] as
    [parseFloat] reads it. *)
Record Ticker := mkTicker {
  t_symbol : string;
  t_quoteVolume : JS.num
}.

(** [parseFloat(b.quoteVolume) - parseFloat(a.quoteVolume)]; a [NaN]
    comparison result counts as 0 in [sort]. *)
Definition by_volume_desc (a b : Ticker) : Q :=
  match t_quoteVolume b, t_quoteVolume a with
  | Some vb, Some va => vb - va
  | _, _ => 0
  end.

Definition usdtPairs (tickers : list Ticker) : list Ticker :=
  filter (fun t =>
            endsWith (t_symbol t) "USDT"
            && negb (includes "UP" (t_symbol t))
            && negb (includes "DOWN" (t_symbol t))
            && JS.gt (t_quoteVolume t) 1000)
         tickers.

(** The body of the [try] block of [fetchTopSymbols]. *)
Definition topSymbols (tickers : list Ticker) (limit : Z) : list string :=
  let usdtPairs := sort_by by_volume_desc (usdtPairs tickers) in
  map t_symbol (JS.slice usdtPairs 0 limit).

(** The response of the ticker endpoint: a network error, or a status code
    with the body as [JSON.parse] reads it ([None] when parsing or reading
    an entry throws).  The rejection messages are cut to their fixed
    prefix. *)
Inductive TickerResponse :=
| NetworkError (message : string)
| HttpResponse (statusCode : Z) (body : option (list Ticker)).

Definition fetchTopSymbols (response : TickerResponse) (limit : Z)
    : Fetched (list string) :=
  match response with
  | NetworkError m => Rejected ("Network Error fetching symbols: " ++ m)
  | HttpResponse statusCode body =>
      if negb (statusCode =? 200)%Z then Rejected "HTTP Error fetching symbols"
      else
        match body with
        | None => Rejected "Error parsing symbol data"
        | Some tickers => Resolved (topSymbols tickers limit)
        end
  end.

(* ===================================================================== *)
(** ** Learning panel (scanAndReport, lines 1406-1427) *)
(* ===================================================================== *)

Definition specificLearningSymbols : list (string * string) :=
  [("BTCUSDT", "Large Cap"); ("AVAXUSDT", "Medium Cap");
   ("XVGUSDT", "Small Cap 1"); ("ROSEUSDT", "Small Cap 2");
   ("PHBUSDT", "Very Small Cap")]%string.

(** [symbolsSet.has(symbol)]. *)
Definition has (symbolsToScan : list string) (symbol : string) : bool :=
  existsb (String.eqb symbol) symbolsToScan.

Definition learningSymbols (symbolsToScan : list string) : list (string * string) :=
  let learningSymbols :=
    filter (fun sc => has symbolsToScan (fst sc)) specificLearningSymbols in
  match learningSymbols, symbolsToScan with
  | [], first :: _ => learningSymbols ++ [(first, "Primary Fallback"%string)]
  | _, _ => learningSymbols
  end.

(* ===================================================================== *)
(** ** Report ranking (formatTelegramReport, lines 1485-1488) *)
(* ===================================================================== *)

Definition by_score_desc (a b : ScanResult) : Q := sr_score b - sr_score a.
Definition by_score_asc (a b : ScanResult) : Q := sr_score a - sr_score b.

(** The two ranked lists the report prints. *)
Definition topBullish (results : list ScanResult) : list ScanResult :=
  let sorted := sort_by by_score_desc results in
  JS.slice (filter (fun r => JS.Qlt_bool 0 (sr_score r)) sorted) 0 5.

Definition topBearish (results : list ScanResult) : list ScanResult :=
  let sorted := sort_by by_score_desc results in
  JS.slice (sort_by by_score_asc (filter (fun r => JS.Qlt_bool (sr_score r) 0) sorted))
           0 5.

(* ===================================================================== *)
(** ** Predicates of the statements *)
(* ===================================================================== *)

(** A candle whose close lies within its range. *)
Definition well_formed (c : Candle) : Prop := low c <= close c <= high c.

(** A candle that does not move: high, low and close are all [p]. *)
Definition still_at (p : Q) (c : Candle) : Prop :=
  high c = p /\ low c = p /\ close c = p.

(** [for (const key of indicatorKeys) w[key] = Math.max(5, w[key] - LEARNING_RATE)]:
    the penalty of a trial in which every key voted. *)
Definition penalise_all (w : Weights) : Weights :=
  for_keys (fun _ v => Qmax 5 (v - LEARNING_RATE)) w.

(** Is every weight a whole number? *)
Definition whole (w : Weights) : Prop :=
  forall k, exists z : Z, wget w k == inject_Z z.

(** The quote volume of a ticker as a number, 0 for [NaN]. *)
Definition volume_of (t : Ticker) : Q :=
  match t_quoteVolume t with Some v => v | None => 0 end.

(** The filter of [fetchTopSymbols] in words: a USDT pair that is not a
    leveraged token and trades more than 1000 in quote volume. *)
Definition qualifies (t : Ticker) : Prop :=
  (exists a, t_symbol t = (a ++ "USDT")%string)
  /\ ~ (exists a b, t_symbol t = (a ++ "UP" ++ b)%string)
  /\ ~ (exists a b, t_symbol t = (a ++ "DOWN" ++ b)%string)
  /\ exists v, t_quoteVolume t = Some v /\ 1000 < v.

(** Four tickers: two qualifying pairs, a leveraged token and a pair with
    too little volume. *)
Definition sample_tickers : list Ticker :=
  [mkTicker "ETHUSDT" (Some 5000); mkTicker "BTCUPUSDT" (Some 9000);
   mkTicker "BTCUSDT" (Some 8000); mkTicker "XVGUSDT" (Some 10)]%string.

(** The sweep's task list for a list of instruments with the outcomes of
    their two fetches. *)
Definition scan_tasks (optimizedWeights : Weights)
    (inputs : list (string * Fetched (list Candle) * Fetched (option Book)))
    : list (Scheduler.Outcome ScanResult) :=
  map (fun x => scan_task (fst (fst x)) optimizedWeights (snd (fst x)) (snd x)) inputs.




(* ===================================================================== *)
(** * Properties *)
(* ===================================================================== *)

(** ** Comparisons and rounding *)

Lemma Qlt_bool_iff (x y : Q) : JS.Qlt_bool x y = true <-> x < y.
Proof.
  unfold JS.Qlt_bool. rewrite negb_true_iff.
  split; intro H.
  - apply Qnot_le_lt. intro Hle. apply Qle_bool_iff in Hle. congruence.
  - destruct (Qle_bool y x) eqn:E; [|reflexivity].
    apply Qle_bool_iff in E. exfalso. apply (Qlt_not_le _ _ H E).
Qed.

Lemma Qlt_bool_false_iff (x y : Q) : JS.Qlt_bool x y = false <-> y <= x.
Proof.
  unfold JS.Qlt_bool. rewrite negb_false_iff. apply Qle_bool_iff.
Qed.

Lemma Qle_bool_false_iff (x y : Q) : Qle_bool x y = false <-> y < x.
Proof.
  rewrite <- Qlt_bool_iff. unfold JS.Qlt_bool.
  destruct (Qle_bool x y); simpl; intuition congruence.
Qed.

(** ** Indicators on small inputs *)

Example calculate_ema_small :
  map Qred (calculate_ema [2; 4; 8] 3) = [2; 3; 11 # 2].
Proof. vm_compute. reflexivity. Qed.

Example calculate_obv_small :
  calculate_obv [mkCandle 0 1 1 1 1 10; mkCandle 1 1 2 1 2 5;
                 mkCandle 2 2 2 2 2 7; mkCandle 3 2 2 1 1 3]
  = [10; 15; 15; 12].
Proof. vm_compute. reflexivity. Qed.

Example calculate_stochastic_warm_up :
  calculate_stochastic (flat_candles 13) = repeat 50 13.
Proof. vm_compute. reflexivity. Qed.

Example calculate_stochastic_first_window :
  map Qred (calculate_stochastic (map (fun n => rising_candle (Z.of_nat n)) (seq 1 14)))
  = repeat 50 13 ++ [280 # 3].
Proof. vm_compute. reflexivity. Qed.

Example calculate_volume_pressure_at_low :
  Qred (calculate_volume_pressure (flat_candle 0)) = -100.
Proof. vm_compute. reflexivity. Qed.

Example slice_negative_start :
  JS.slice [1; 2; 3; 4; 5]%Z (-2) 5 = [4; 5]%Z.
Proof. reflexivity. Qed.

(** ** Prediction engine *)

(** C9: with the readings OBV change +2, Stochastic %K 10, MACD histogram
    +0.01, volume pressure 60 and order-book imbalance 70, and the default
    weights, [generatePrediction] returns the net score 100, the direction
    UP and the confidence 100, each indicator contributing its full weight. *)
Theorem generatePrediction_reference_input :
  generatePrediction (Some 2) (Some 10) (Some (1 # 100)) (Some 60) (Some 70)
                     CURRENT_WEIGHTS
  = mkPrediction UP 100 100 (mkComponents 30 25 20 10 15).
Proof. vm_compute. reflexivity. Qed.

(** C10: for all readings (a [NaN] included) and all weights, the net score
    of [generatePrediction] is the sum of the five contributions it reports,
    the direction is UP exactly when the net score is at least 0 (so a net
    score of 0 gives UP) and DOWN exactly when it is negative, and the
    confidence is the smaller of 100 and the absolute net score. *)
Theorem generatePrediction_score_direction_confidence
    (obvPctChange stochK macdHist volumePressure obiPct : JS.num) (w : Weights) :
  let p := generatePrediction obvPctChange stochK macdHist volumePressure obiPct w in
  let c := componentScores p in
  score p == cOBV c + cSTOCH c + cOI_PROXY c + cMACD c + cOBI c
  /\ (prediction p = UP <-> 0 <= score p)
  /\ (prediction p = DOWN <-> score p < 0)
  /\ prediction p <> FLAT
  /\ confidence p == Qmin 100 (Qabs (score p)).
Proof.
  intros p c. subst c p. unfold generatePrediction.
  cbv zeta.
  cbn [score prediction confidence componentScores cOBV cSTOCH cOI_PROXY cMACD cOBI].
  match goal with
  | |- ?s == _ /\ _ => set (sc := s)
  end.
  split; [unfold sc; ring|].
  destruct (Qle_bool 0 sc) eqn:E.
  - apply Qle_bool_iff in E.
    repeat split; try discriminate; try reflexivity; auto.
    intro H. exfalso. apply (Qlt_not_le _ _ H E).
  - apply Qle_bool_false_iff in E.
    repeat split; try discriminate; try reflexivity; auto.
    intro H. exfalso. apply (Qlt_not_le _ _ E H).
Qed.

(** ** Arrays *)

Lemma get_in_range {A} (a : list A) (i : Z) :
  (0 <= i < Z.of_nat (length a))%Z -> exists x, JS.get a i = Some x.
Proof.
  intros [H0 H1]. unfold JS.get.
  destruct (i <? 0)%Z eqn:E; [apply Z.ltb_lt in E; lia|].
  destruct (nth_error a (Z.to_nat i)) eqn:N; [eauto|].
  apply nth_error_None in N. lia.
Qed.

Lemma get_past_end {A} (a : list A) (i : Z) :
  (Z.of_nat (length a) <= i)%Z -> JS.get a i = None.
Proof.
  intro H. unfold JS.get.
  destruct (i <? 0)%Z; [reflexivity|].
  apply nth_error_None. lia.
Qed.

(** ** Average true range *)

Lemma true_ranges_from_length (prev : Candle) (rest : list Candle) :
  length (true_ranges_from prev rest) = length rest.
Proof.
  revert prev. induction rest as [|c rest IH]; intro prev; simpl.
  - reflexivity.
  - now rewrite IH.
Qed.

Lemma true_ranges_length (data : list Candle) :
  length (true_ranges data) = (length data - 1)%nat.
Proof.
  destruct data as [|c0 rest]; simpl.
  - reflexivity.
  - rewrite true_ranges_from_length. lia.
Qed.

Lemma wilder_loop_length (w c : Q) (rest : list Q) :
  length (wilder_loop w c rest) = length rest.
Proof.
  revert c. induction rest as [|tr rest IH]; intro c; simpl.
  - reflexivity.
  - now rewrite IH.
Qed.

(** The array returned by [calculate_atr] has one padding entry, the first
    computed value and one smoothed value per true range from index
    [window] on. *)
Lemma calculate_atr_length (data : list Candle) (window : nat) :
  (2 <= length data)%nat ->
  length (calculate_atr data window) = (2 + (length data - 1 - window))%nat.
Proof.
  intro Hlen. unfold calculate_atr.
  pose proof (true_ranges_length data) as Htr.
  destruct (true_ranges data) as [|t trs] eqn:E.
  - simpl in Htr. lia.
  - rewrite length_app, repeat_length.
    cbn [length]. rewrite wilder_loop_length, length_skipn.
    rewrite Htr. cbn [length]. simpl in Htr. lia.
Qed.

(** With at least [window] true ranges the first computed value is their
    simple average over the first [window] of them, it is also the single
    padding entry, and each later entry follows from the one before by
    Wilder's smoothing. *)
Lemma calculate_atr_shape (data : list Candle) (window : nat) :
  (2 <= length data)%nat ->
  let trs := true_ranges data in
  let w := inject_Z (Z.of_nat window) in
  let first := JS.sum (firstn window trs) / w in
  calculate_atr data window = first :: first :: wilder_loop w first (skipn window trs).
Proof.
  intros Hlen trs w first. unfold calculate_atr.
  pose proof (true_ranges_length data) as Htr.
  fold trs in Htr |- *.
  destruct trs as [|t rest] eqn:E.
  - simpl in Htr. lia.
  - cbn [hd]. rewrite Htr.
    replace (length data - (length data - 1))%nat with 1%nat by lia.
    reflexivity.
Qed.

Lemma wilder_loop_step (w c tr : Q) (rest : list Q) :
  wilder_loop w c (tr :: rest)
  = (c * (w - 1) + tr) / w :: wilder_loop w ((c * (w - 1) + tr) / w) rest.
Proof. reflexivity. Qed.

(** C2: for every candle sequence of at least 15 candles [calculate_atr]
    with window 14 returns 13 entries fewer than there are candles, not an
    array of the same length: the first computed value, the simple average
    of the first 14 true ranges, is repeated only once in front (the padding
    counts the true ranges, not the computed values), and the entries after
    it follow Wilder's smoothing. *)
Theorem calculate_atr_shorter_than_candles (data : list Candle) :
  (15 <= length data)%nat ->
  let first := JS.sum (firstn 14 (true_ranges data)) / 14 in
  calculate_atr data 14
    = first :: first :: wilder_loop 14 first (skipn 14 (true_ranges data))
  /\ length (calculate_atr data 14) = (length data - 13)%nat
  /\ length (calculate_atr data 14) <> length data.
Proof.
  intros Hlen first.
  split; [|split].
  - apply (calculate_atr_shape data 14). lia.
  - rewrite calculate_atr_length by lia. lia.
  - rewrite calculate_atr_length by lia. lia.
Qed.

Lemma calculate_atr_shorter_than_candles_witness :
  calculate_atr candles16 14
    = JS.sum (firstn 14 (true_ranges candles16)) / 14
      :: JS.sum (firstn 14 (true_ranges candles16)) / 14
      :: wilder_loop 14 (JS.sum (firstn 14 (true_ranges candles16)) / 14)
           (skipn 14 (true_ranges candles16))
  /\ length (calculate_atr candles16 14) = (length candles16 - 13)%nat
  /\ length (calculate_atr candles16 14) <> length candles16.
Proof.
  apply (calculate_atr_shorter_than_candles candles16).
  vm_compute. lia.
Defined.

(** On sixteen candles of true range 1 the result has three entries. *)
Example calculate_atr_candles16 :
  map Qred (calculate_atr candles16 14) = [1; 1; 1]
  /\ length candles16 = 16%nat.
Proof. split; vm_compute; reflexivity. Qed.

(** ** Per-symbol scan evaluation *)

(** C3: for every candle sequence of length 199 or 200 the index
    [length - 2] used by [processSymbolForScan] is past the end of the array
    returned by [calculate_atr] with window 14; the ATR value read is absent,
    the recent-volatility ratio is 0, the volatility gate [ratio > 0.5] fails,
    and [processSymbolForScan] returns [null] whatever the order book, the
    weights and hence the confidence of the prediction are. *)
Theorem processSymbolForScan_always_null
    (symbol : string) (optimizedWeights : Weights) (data : list Candle) :
  length data = 199%nat \/ length data = 200%nat ->
  (Z.of_nat (length (calculate_atr data 14)) <= Z.of_nat (length data) - 2)%Z
  /\ JS.get (calculate_atr data 14) (Z.of_nat (length data) - 2) = None
  /\ (forall orderBook,
        exists l, scan_locals data orderBook optimizedWeights = Some l
                  /\ sl_current_atr l = None
                  /\ sl_recentVolatilityRatio l = 0
                  /\ JS.Qlt_bool (1 # 2) (sl_recentVolatilityRatio l) = false)
  /\ (forall fetchOrderBookData,
        processSymbolForScan symbol optimizedWeights (Resolved data) fetchOrderBookData
        = None).
Proof.
  intro Hlen.
  assert (Hshort : (Z.of_nat (length (calculate_atr data 14))
                    <= Z.of_nat (length data) - 2)%Z).
  { rewrite calculate_atr_length by lia. lia. }
  assert (Hatr : JS.get (calculate_atr data 14) (Z.of_nat (length data) - 2) = None).
  { apply get_past_end. exact Hshort. }
  assert (Hloc : forall orderBook,
            exists l, scan_locals data orderBook optimizedWeights = Some l
                      /\ sl_current_atr l = None
                      /\ sl_recentVolatilityRatio l = 0
                      /\ JS.Qlt_bool (1 # 2) (sl_recentVolatilityRatio l) = false).
  { intro orderBook. unfold scan_locals.
    destruct (get_in_range data (Z.of_nat (length data) - 2)) as [current Hc]; [lia|].
    destruct (get_in_range data (Z.of_nat (length data) - 2 - 1)) as [previous Hp]; [lia|].
    cbv zeta. rewrite Hc, Hp, Hatr.
    eexists. split; [reflexivity|].
    cbn [sl_current_atr sl_recentVolatilityRatio].
    repeat split. }
  repeat split; try assumption.
  intro fetchOrderBookData. unfold processSymbolForScan.
  replace (Z.of_nat (length data) <? LOOKBACK_PERIOD - 1)%Z with false
    by (symmetry; apply Z.ltb_ge; unfold LOOKBACK_PERIOD; lia).
  destruct fetchOrderBookData as [orderBook | msg]; [|reflexivity].
  destruct (Hloc orderBook) as (l & Hl & _ & _ & Hgate).
  rewrite Hl, Hgate, andb_false_r. reflexivity.
Qed.

Lemma processSymbolForScan_always_null_witness :
  (length candles200 = 199%nat \/ length candles200 = 200%nat)
  /\ processSymbolForScan "BTCUSDT" CURRENT_WEIGHTS (Resolved candles200)
                          (Resolved (Some strong_bid_book))
     = None.
Proof.
  split.
  - right. reflexivity.
  - apply (processSymbolForScan_always_null "BTCUSDT" CURRENT_WEIGHTS candles200).
    right. reflexivity.
Defined.

(** ** Depth-weighted order-book imbalance *)

(** The level at index [i] of a side weighs [limit - i]: the first level
    weighs [limit] and the rest weigh as a side of depth [limit - 1]. *)
Lemma mapi_from_weight (limit i : Z) (levels : list Level) :
  mapi_from (fun (l : Level) index => snd l * inject_Z (limit - index)) (i + 1) levels
  = mapi_from (fun (l : Level) index => snd l * inject_Z (limit - 1 - index)) i levels.
Proof.
  revert i. induction levels as [|l levels IH]; intro i; simpl.
  - reflexivity.
  - rewrite IH. do 3 f_equal. lia.
Qed.

Lemma fold_left_Qplus_acc (a : list Q) (x y : Q) :
  x == y -> fold_left Qplus a x == fold_left Qplus a y.
Proof.
  revert x y. induction a as [|z a IH]; intros x y H; simpl.
  - exact H.
  - apply IH. rewrite H. reflexivity.
Qed.

Lemma fold_left_Qplus_shift (a : list Q) (x : Q) :
  fold_left Qplus a x == x + fold_left Qplus a 0.
Proof.
  revert x. induction a as [|z a IH]; intro x; simpl.
  - ring.
  - rewrite IH, (IH (0 + z)). ring.
Qed.

Lemma weighted_volume_nil (limit : Z) : weighted_volume limit [] = 0.
Proof. reflexivity. Qed.

Lemma weighted_volume_cons (limit : Z) (l : Level) (levels : list Level) :
  weighted_volume limit (l :: levels)
  == snd l * inject_Z limit + weighted_volume (limit - 1) levels.
Proof.
  unfold weighted_volume, mapi, JS.sum. simpl.
  rewrite (mapi_from_weight limit 0).
  rewrite fold_left_Qplus_shift.
  rewrite Z.sub_0_r, Qplus_0_l. reflexivity.
Qed.

(** The claim of C4 fails for an absent book: the result is 0, not 50. *)
Lemma depth_imbalance_absent_book_not_50 :
  ~ calculate_depth_weighted_imbalance None == 50.
Proof. vm_compute. discriminate. Qed.

(** A two-level side weighs its levels 2 and 1. *)
Lemma weighted_volume_two_levels (p1 x1 p2 x2 : Q) :
  weighted_volume 2 [(p1, x1); (p2, x2)] == 2 * x1 + x2.
Proof.
  rewrite weighted_volume_cons, weighted_volume_cons, weighted_volume_nil.
  cbn [snd]. simpl (2 - 1 - 1)%Z. simpl (2 - 1)%Z.
  change (inject_Z 2) with 2. change (inject_Z 1) with 1. ring.
Qed.

Lemma Qlt_bool_compat (x x' y y' : Q) :
  x == x' -> y == y' -> JS.Qlt_bool x y = JS.Qlt_bool x' y'.
Proof.
  intros Hx Hy.
  destruct (JS.Qlt_bool x y) eqn:E, (JS.Qlt_bool x' y') eqn:E'; try reflexivity.
  - apply Qlt_bool_iff in E. apply Qlt_bool_false_iff in E'.
    rewrite Hx, Hy in E. exfalso. apply (Qlt_not_le _ _ E E').
  - apply Qlt_bool_iff in E'. apply Qlt_bool_false_iff in E.
    rewrite Hx, Hy in E. exfalso. apply (Qlt_not_le _ _ E' E).
Qed.

(** C4, as the code has it: an absent book, or one without [bids] or
    without [asks], gives 0; otherwise each side's sizes are weighted by the
    number of bid levels minus the level's index and the result is
    weighted-bid / (weighted-bid + weighted-ask) * 100, or 50 when that total
    is below 1e-6 (an empty book included); a two-level book has the weights
    2 and 1 on each side, and the symmetric book [[p,10],[p,5]] gives 50. *)
Theorem depth_weighted_imbalance_cases :
  calculate_depth_weighted_imbalance None = 0
  /\ (forall a, calculate_depth_weighted_imbalance (Some (mkBook None a)) = 0)
  /\ (forall b, calculate_depth_weighted_imbalance (Some (mkBook b None)) = 0)
  /\ (forall bs as_,
        let limit := Z.of_nat (length bs) in
        let bid := weighted_volume limit bs in
        let ask := weighted_volume limit as_ in
        calculate_depth_weighted_imbalance (Some (mkBook (Some bs) (Some as_)))
        = if JS.Qlt_bool (bid + ask) EPSILON then 50 else bid / (bid + ask) * 100)
  /\ calculate_depth_weighted_imbalance (Some (mkBook (Some []) (Some []))) = 50
  /\ (forall p1 b1 p2 b2 q1 a1 q2 a2,
        let bid := 2 * b1 + b2 in
        let ask := 2 * a1 + a2 in
        EPSILON <= bid + ask ->
        calculate_depth_weighted_imbalance
          (Some (mkBook (Some [(p1, b1); (p2, b2)]) (Some [(q1, a1); (q2, a2)])))
        == bid / (bid + ask) * 100)
  /\ (forall p, calculate_depth_weighted_imbalance (Some (symmetric_book p)) == 50).
Proof.
  split; [reflexivity|].
  split; [reflexivity|].
  split; [intros [b|]; reflexivity|].
  split; [reflexivity|].
  split; [reflexivity|].
  split.
  - intros p1 b1 p2 b2 q1 a1 q2 a2 bid ask Htot.
    unfold calculate_depth_weighted_imbalance. cbn [bids asks length Z.of_nat].
    change (Z.pos (Pos.of_succ_nat 1)) with 2%Z.
    pose proof (weighted_volume_two_levels p1 b1 p2 b2) as Hb.
    pose proof (weighted_volume_two_levels q1 a1 q2 a2) as Ha.
    fold bid in Hb. fold ask in Ha.
    rewrite (Qlt_bool_compat _ (bid + ask) _ EPSILON)
      by (rewrite ?Hb, ?Ha; reflexivity).
    replace (JS.Qlt_bool (bid + ask) EPSILON) with false
      by (symmetry; apply Qlt_bool_false_iff; exact Htot).
    rewrite Hb, Ha. reflexivity.
  - intro p. vm_compute. reflexivity.
Qed.

Lemma depth_weighted_imbalance_cases_witness :
  EPSILON <= (2 * 10 + 5) + (2 * 1 + 4)
  /\ calculate_depth_weighted_imbalance
       (Some (mkBook (Some [(100, 10); (99, 5)]) (Some [(101, 1); (102, 4)])))
     == (2 * 10 + 5) / ((2 * 10 + 5) + (2 * 1 + 4)) * 100.
Proof.
  split.
  - vm_compute. discriminate.
  - apply (proj1 (proj2 (proj2 (proj2 (proj2 (proj2 depth_weighted_imbalance_cases)))))
             100 10 99 5 101 1 102 4).
    vm_compute. discriminate.
Defined.

(** ** Weight objects *)

Lemma for_keys_get (f : Key -> Q -> Q) (w : Weights) (k : Key) :
  wget (for_keys f w) k = f k (wget w k).
Proof. destruct k; reflexivity. Qed.

Lemma wtotal_sum (w : Weights) :
  wtotal w == wOBV w + wSTOCH w + wOI_PROXY w + wMACD w.
Proof. unfold wtotal, JS.sum. simpl. ring. Qed.

Lemma Qmin_100_range (x : Q) : 5 <= x -> 5 <= Qmin 100 x <= 100.
Proof.
  intro H. destruct (Q.min_spec 100 x) as [[? E]|[? E]]; rewrite E; split; lra.
Qed.

Lemma Qmax_5_range (x : Q) : x <= 100 -> 5 <= Qmax 5 x <= 100.
Proof.
  intro H. destruct (Q.max_spec 5 x) as [[? E]|[? E]]; rewrite E; split; lra.
Qed.

(** ** The update rule of a trial *)

Lemma sign_cases (x : Q) :
  (x < 0 /\ JS.sign x = (-1)%Z) \/ (x == 0 /\ JS.sign x = 0%Z)
  \/ (0 < x /\ JS.sign x = 1%Z).
Proof.
  unfold JS.sign. destruct (Qcompare x 0) eqn:E.
  - right; left. split; [apply Qeq_alt; exact E | reflexivity].
  - left. split; [apply Qlt_alt; exact E | reflexivity].
  - right; right. split; [apply Qgt_alt; exact E | reflexivity].
Qed.

(** A key votes with the prediction when its contribution and the net
    score are both negative, both zero or both positive. *)
Lemma voted_with_iff (p : PredictionResult) (key : Key) :
  let c := cget (componentScores p) key in
  voted_with p key = true
  <-> (c < 0 /\ score p < 0) \/ (c == 0 /\ score p == 0) \/ (0 < c /\ 0 < score p).
Proof.
  intro c. unfold voted_with. fold c. rewrite Z.eqb_eq.
  destruct (sign_cases c) as [[Hc Ec]|[[Hc Ec]|[Hc Ec]]];
    destruct (sign_cases (score p)) as [[Hs Es]|[[Hs Es]|[Hs Es]]];
    rewrite Ec, Es; split; intro H; try discriminate; auto;
    exfalso; destruct H as [[H1 H2]|[[H1 H2]|[H1 H2]]]; lra.
Qed.

Lemma adjust_weights_get (p : PredictionResult) (isHit : bool) (w : Weights) (key : Key) :
  wget (adjust_weights p isHit w) key
  = if voted_with p key
    then if isHit then Qmin 100 (wget w key + LEARNING_RATE)
         else Qmax 5 (wget w key - LEARNING_RATE)
    else wget w key.
Proof.
  unfold adjust_weights. destruct isHit; rewrite for_keys_get; reflexivity.
Qed.

Lemma adjust_weights_in_range (p : PredictionResult) (isHit : bool) (w : Weights) :
  in_range w -> in_range (adjust_weights p isHit w).
Proof.
  intros Hw key. rewrite adjust_weights_get. specialize (Hw key).
  unfold LEARNING_RATE.
  destruct (voted_with p key); [|exact Hw].
  destruct isHit.
  - apply Qmin_100_range. lra.
  - apply Qmax_5_range. lra.
Qed.

(** The rule of one trial for one key, for any prediction. *)
Lemma adjust_weights_rule (p : PredictionResult) (isHit : bool) (w : Weights)
    (key : Key) :
  (voted_with p key = true
   <-> (cget (componentScores p) key < 0 /\ score p < 0)
       \/ (cget (componentScores p) key == 0 /\ score p == 0)
       \/ (0 < cget (componentScores p) key /\ 0 < score p))
  /\ wget (adjust_weights p isHit w) key
     = (if voted_with p key
        then if isHit then Qmin 100 (wget w key + (1 # 2))
             else Qmax 5 (wget w key - (1 # 2))
        else wget w key)
  /\ (5 <= wget w key <= 100 -> 5 <= wget (adjust_weights p isHit w) key <= 100).
Proof.
  split; [apply voted_with_iff|].
  split; [apply adjust_weights_get|].
  intro Hw. rewrite adjust_weights_get. unfold LEARNING_RATE.
  destruct (voted_with p key); [|exact Hw].
  destruct isHit.
  - apply Qmin_100_range. lra.
  - apply Qmax_5_range. lra.
Qed.

(** The claim of C6 fails where a weight enters a trial below the floor: on
    a hit only the ceiling is applied.  From the weights (4, 27, 27, 27) the
    trial at counter 0 over [rising31] is a hit in which OBV voted with the
    prediction, and it leaves OBV at 4.5. *)
Lemma learner_trial_leaves_weight_below_floor :
  exists predictCandle st',
    JS.get rising31 26 = Some predictCandle
    /\ learner_trial rising31 0 (mkLearn below_floor_weights 0 LEARNING_TRADE_COUNT)
       = Some st'
    /\ voted_with (trial_prediction rising31 26 predictCandle below_floor_weights) OBV
       = true
    /\ hits st' = 1%Z
    /\ wget (adjustedWeights st') OBV == 9 # 2
    /\ ~ 5 <= wget (adjustedWeights st') OBV.
Proof.
  eexists. eexists.
  split; [vm_compute; reflexivity|].
  split; [vm_compute; reflexivity|].
  split; [vm_compute; reflexivity|].
  split; [reflexivity|].
  split; [reflexivity|].
  vm_compute. intro H. apply H. reflexivity.
Qed.

(** C6, as the code has it: in every trial of the learner exactly the keys
    whose contribution has the sign of the net score (both negative, both
    zero or both positive) are adjusted; such a weight [w] becomes
    [min(100, w + 0.5)] on a hit and [max(5, w - 0.5)] on a miss, every other
    weight is left unchanged, and a weight that enters the trial within
    [5, 100] leaves it within [5, 100]. *)
Theorem learner_trial_adjusts_voters
    (data : list Candle) (i : Z) (st st' : LearnState) :
  learner_trial data i st = Some st' ->
  exists predictCandle outcomeCandle,
    let len := Z.of_nat (length data) in
    let predictIndex := (len - LOOKAHEAD_CANDLES - 1 - i)%Z in
    let p := trial_prediction data predictIndex predictCandle (adjustedWeights st) in
    let isHit := Direction_eqb (prediction p)
                               (actual_direction predictCandle outcomeCandle) in
    JS.get data predictIndex = Some predictCandle
    /\ JS.get data (len - 1 - i)%Z = Some outcomeCandle
    /\ hits st' = (if isHit then hits st + 1 else hits st)%Z
    /\ forall key,
         let c := cget (componentScores p) key in
         let old := wget (adjustedWeights st) key in
         let new := wget (adjustedWeights st') key in
         (voted_with p key = true
          <-> (c < 0 /\ score p < 0) \/ (c == 0 /\ score p == 0)
              \/ (0 < c /\ 0 < score p))
         /\ new = (if voted_with p key
                   then if isHit then Qmin 100 (old + (1 # 2))
                        else Qmax 5 (old - (1 # 2))
                   else old)
         /\ (5 <= old <= 100 -> 5 <= new <= 100).
Proof.
  unfold learner_trial. intro H.
  destruct (JS.get data (Z.of_nat (length data) - LOOKAHEAD_CANDLES - 1 - i))
    as [predictCandle|] eqn:Hp; [|discriminate].
  destruct (JS.get data (Z.of_nat (length data) - 1 - i))
    as [outcomeCandle|] eqn:Ho; [|discriminate].
  exists predictCandle, outcomeCandle.
  revert H.
  generalize (trial_prediction data
                (Z.of_nat (length data) - LOOKAHEAD_CANDLES - 1 - i)
                predictCandle (adjustedWeights st)).
  generalize (actual_direction predictCandle outcomeCandle).
  intros actualDirection p H. cbv zeta in H |- *.
  injection H as <-. cbn [adjustedWeights hits].
  split; [reflexivity|]. split; [reflexivity|]. split; [reflexivity|].
  intro key. apply adjust_weights_rule.
Qed.

Lemma learner_trial_adjusts_voters_witness :
  exists predictCandle outcomeCandle,
    let st := mkLearn CURRENT_WEIGHTS 0 LEARNING_TRADE_COUNT in
    let st' := mkLearn (mkWeights (61 # 2) 25 20 (21 # 2)) 1 LEARNING_TRADE_COUNT in
    let len := Z.of_nat (length rising31) in
    let predictIndex := (len - LOOKAHEAD_CANDLES - 1 - 0)%Z in
    let p := trial_prediction rising31 predictIndex predictCandle (adjustedWeights st) in
    let isHit := Direction_eqb (prediction p)
                               (actual_direction predictCandle outcomeCandle) in
    JS.get rising31 predictIndex = Some predictCandle
    /\ JS.get rising31 (len - 1 - 0)%Z = Some outcomeCandle
    /\ hits st' = (if isHit then hits st + 1 else hits st)%Z
    /\ forall key,
         let c := cget (componentScores p) key in
         let old := wget (adjustedWeights st) key in
         let new := wget (adjustedWeights st') key in
         (voted_with p key = true
          <-> (c < 0 /\ score p < 0) \/ (c == 0 /\ score p == 0)
              \/ (0 < c /\ 0 < score p))
         /\ new = (if voted_with p key
                   then if isHit then Qmin 100 (old + (1 # 2))
                        else Qmax 5 (old - (1 # 2))
                   else old)
         /\ (5 <= old <= 100 -> 5 <= new <= 100).
Proof.
  apply (learner_trial_adjusts_voters rising31 0
           (mkLearn CURRENT_WEIGHTS 0 LEARNING_TRADE_COUNT)
           (mkLearn (mkWeights (61 # 2) 25 20 (21 # 2)) 1 LEARNING_TRADE_COUNT)).
  vm_compute. reflexivity.
Defined.

(** ** The trial loop *)

(** Both revisions read the same two candles in a trial and share the index
    guard of the loop, so the facts below have one proof each. *)
Ltac trial_defined :=
  let Hi := fresh "Hi" in
  let Hp := fresh "Hp" in
  let pc := fresh "pc" in
  let oc := fresh "oc" in
  let Hpc := fresh "Hpc" in
  let Hoc := fresh "Hoc" in
  unfold LOOKAHEAD_CANDLES;
  intros Hi Hp;
  match goal with
  | |- context [(Z.of_nat (length ?data) - 4 - 1 - ?i)%Z] =>
      destruct (get_in_range data (Z.of_nat (length data) - 4 - 1 - i)%Z)
        as [pc Hpc]; [lia|];
      destruct (get_in_range data (Z.of_nat (length data) - 1 - i)%Z)
        as [oc Hoc]; [lia|];
      rewrite Hpc, Hoc
  end;
  cbv zeta; eexists; split; [reflexivity|];
  cbn [totalTrades hits]; split; [reflexivity|];
  destruct (Direction_eqb _ _); lia.

(** The index guard of the loop keeps both reads of a trial inside the
    candle array, so the body of a trial never throws. *)
Lemma learner_trial_defined (data : list Candle) (i : Z) (st : LearnState) :
  (0 <= i)%Z ->
  (26 <= Z.of_nat (length data) - LOOKAHEAD_CANDLES - 1 - i)%Z ->
  exists st', learner_trial data i st = Some st'
              /\ totalTrades st' = totalTrades st
              /\ (hits st <= hits st' <= hits st + 1)%Z.
Proof. unfold learner_trial. trial_defined. Qed.

Lemma earlier_learner_trial_defined (data : list Candle) (i : Z) (st : LearnState) :
  (0 <= i)%Z ->
  (26 <= Z.of_nat (length data) - LOOKAHEAD_CANDLES - 1 - i)%Z ->
  exists st', Earlier.learner_trial data i st = Some st'
              /\ totalTrades st' = totalTrades st
              /\ (hits st <= hits st' <= hits st + 1)%Z.
Proof. unfold Earlier.learner_trial. trial_defined. Qed.

(** Induction on the iterations left, given that a guarded trial is
    defined ([trial_ok]). *)
Ltac loop_trials trial_ok :=
  let n := fresh "n" in
  let IH := fresh "IH" in
  let i := fresh "i" in
  let st := fresh "st" in
  let Hi := fresh "Hi" in
  let Hn := fresh "Hn" in
  let Ht := fresh "Ht" in
  let G := fresh "G" in
  let G1 := fresh "G1" in
  let G2 := fresh "G2" in
  let st1 := fresh "st1" in
  let E1 := fresh "E1" in
  let T1 := fresh "T1" in
  let H1 := fresh "H1" in
  let st' := fresh "st'" in
  let E' := fresh "E'" in
  let T' := fresh "T'" in
  let H' := fresh "H'" in
  unfold LEARNING_TRADE_COUNT;
  intro n; induction n as [|n IH]; intros i st Hi Hn Ht;
  [ exists st; simpl; repeat split; lia
  | cbn [learn_loop Earlier.learn_loop]; cbv zeta;
    match goal with
    | |- context [if ?g then _ else _] => destruct g eqn:G
    end;
    [ eexists; split; [reflexivity|]; cbn [totalTrades hits];
      apply orb_true_iff in G; unfold LOOKAHEAD_CANDLES in G;
      rewrite Z.ltb_lt, Z.leb_le in G; lia
    | apply orb_false_iff in G; rewrite Z.ltb_ge, Z.leb_gt in G;
      destruct G as [G1 G2];
      destruct (trial_ok _ i st Hi G1) as (st1 & E1 & T1 & H1);
      rewrite E1;
      destruct (IH (i + 1)%Z st1) as (st' & E' & T' & H'); try lia;
      exists st'; split; [exact E'|];
      unfold LOOKAHEAD_CANDLES in G1; split; lia ] ].

(** The loop always ends normally; it runs the trials [0 .. t - 1] for
    [t = min(50, max(0, length - 30))], the first counter at which the
    prediction index would fall below 26. *)
Lemma learn_loop_trials (data : list Candle) :
  forall (n : nat) (i : Z) (st : LearnState),
    (0 <= i)%Z ->
    Z.of_nat n = (LEARNING_TRADE_COUNT - i)%Z ->
    totalTrades st = LEARNING_TRADE_COUNT ->
    exists st',
      learn_loop data n i st = Some st'
      /\ totalTrades st'
         = Z.min LEARNING_TRADE_COUNT (Z.max i (Z.of_nat (length data) - 30))
      /\ (hits st <= hits st' <= hits st + (totalTrades st' - i))%Z.
Proof. loop_trials learner_trial_defined. Qed.

Lemma earlier_learn_loop_trials (data : list Candle) :
  forall (n : nat) (i : Z) (st : LearnState),
    (0 <= i)%Z ->
    Z.of_nat n = (LEARNING_TRADE_COUNT - i)%Z ->
    totalTrades st = LEARNING_TRADE_COUNT ->
    exists st',
      Earlier.learn_loop data n i st = Some st'
      /\ totalTrades st'
         = Z.min LEARNING_TRADE_COUNT (Z.max i (Z.of_nat (length data) - 30))
      /\ (hits st <= hits st' <= hits st + (totalTrades st' - i))%Z.
Proof. loop_trials earlier_learner_trial_defined. Qed.

(** ** The length guard of the learner *)

(** The claim of C5 fails between 54 and 199 candles: for 54 candles the
    learner returns the input weights with the accuracy ['N/A']. *)
Lemma learner_skips_54_candles :
  (LEARNING_TRADE_COUNT + LOOKAHEAD_CANDLES <= Z.of_nat (length candles54))%Z
  /\ calculate_and_adjust_weights candles54 CURRENT_WEIGHTS
     = Some (mkOutcome CURRENT_WEIGHTS NA).
Proof. split; [vm_compute; discriminate | vm_compute; reflexivity]. Qed.

(** The trials the loop runs, one state after the other: while the index
    guard lets every counter through, the loop ends normally exactly when
    each trial does, in the state the last trial leaves. *)
Lemma learn_loop_run (data : list Candle) :
  forall (n : nat) (i : Z) (st st' : LearnState),
    (0 <= i)%Z ->
    (i + Z.of_nat n <= Z.of_nat (length data) - 30)%Z ->
    learn_loop data n i st = Some st' ->
    exists run : nat -> LearnState,
      run 0%nat = st
      /\ run n = st'
      /\ forall k : nat, (k < n)%nat ->
           learner_trial data (i + Z.of_nat k) (run k) = Some (run (S k)).
Proof.
  induction n as [|n IH]; intros i st st' Hi Hn H.
  - cbn [learn_loop] in H. injection H as <-. exists (fun _ => st).
    split; [reflexivity|]. split; [reflexivity|]. intros k Hk. lia.
  - cbn [learn_loop] in H. cbv zeta in H.
    match type of H with
    | context [if ?g then _ else _] => destruct g eqn:G
    end.
    + exfalso. apply orb_true_iff in G. unfold LOOKAHEAD_CANDLES in G.
      rewrite Z.ltb_lt, Z.leb_le in G. lia.
    + destruct (learner_trial data i st) as [st1|] eqn:E1; [|discriminate].
      destruct (IH (i + 1)%Z st1 st') as (run & R0 & Rn & Rk); [lia|lia|exact H|].
      exists (fun k => match k with O => st | S k' => run k' end).
      split; [reflexivity|]. split; [exact Rn|].
      intros [|k] Hk.
      * cbn [Z.of_nat]. rewrite Z.add_0_r, R0. exact E1.
      * replace (i + Z.of_nat (S k))%Z with (i + 1 + Z.of_nat k)%Z by lia.
        apply Rk. lia.
Qed.

(** The length guard and the run behind it, for any key order. *)
Lemma learner_guard (keys : list Key) (data : list Candle) (w : Weights) :
  ((Z.of_nat (length data) < LOOKBACK_PERIOD)%Z ->
   calculate_and_adjust_weights_in keys data w = Some (mkOutcome w NA))
  /\ ((LOOKBACK_PERIOD <= Z.of_nat (length data))%Z ->
      exists st out,
        learn_in keys data w = Some (st, out)
        /\ calculate_and_adjust_weights_in keys data w = Some out
        /\ totalTrades st = LEARNING_TRADE_COUNT
        /\ (0 <= hits st <= LEARNING_TRADE_COUNT)%Z
        /\ weights out = correct_sum_in keys (normalize_weights (adjustedWeights st))
        /\ accuracy out
           = Pct (JS.toFixed 1 (inject_Z (hits st) / inject_Z LEARNING_TRADE_COUNT * 100))
        /\ exists run : nat -> LearnState,
             run 0%nat = mkLearn w 0 LEARNING_TRADE_COUNT
             /\ run (Z.to_nat LEARNING_TRADE_COUNT) = st
             /\ forall i : nat, (i < Z.to_nat LEARNING_TRADE_COUNT)%nat ->
                  learner_trial data (Z.of_nat i) (run i) = Some (run (S i))).
Proof.
  unfold calculate_and_adjust_weights_in. split; intro H.
  - apply Z.ltb_lt in H. rewrite H. reflexivity.
  - apply Z.ltb_ge in H. rewrite H. apply Z.ltb_ge in H.
    destruct (learn_loop_trials data (Z.to_nat LEARNING_TRADE_COUNT) 0
                (mkLearn w 0 LEARNING_TRADE_COUNT))
      as (st & E & T & Hh); try reflexivity; try lia.
    cbn [hits] in Hh.
    assert (T50 : totalTrades st = 50%Z).
    { unfold LOOKBACK_PERIOD in H. unfold LEARNING_TRADE_COUNT in T. lia. }
    assert (El : learn_in keys data w
                 = Some (st, mkOutcome (correct_sum_in keys
                                          (normalize_weights (adjustedWeights st)))
                                       (accuracy_of st))).
    { unfold learn_in. rewrite E. reflexivity. }
    exists st, (mkOutcome (correct_sum_in keys (normalize_weights (adjustedWeights st)))
                          (accuracy_of st)).
    split; [exact El|].
    split; [rewrite El; reflexivity|].
    split; [exact T50|].
    split; [unfold LEARNING_TRADE_COUNT in Hh |- *; lia|].
    split; [reflexivity|].
    split; [cbn [accuracy]; unfold accuracy_of; rewrite T50; reflexivity|].
    destruct (learn_loop_run data (Z.to_nat LEARNING_TRADE_COUNT) 0
                (mkLearn w 0 LEARNING_TRADE_COUNT) st) as (run & R0 & Rn & Rk);
      [lia|unfold LOOKBACK_PERIOD in H; unfold LEARNING_TRADE_COUNT; lia|exact E|].
    exists run. split; [exact R0|]. split; [exact Rn|].
    intros i Hi. specialize (Rk i Hi). rewrite Z.add_0_l in Rk. exact Rk.
Qed.

(** C5, as the code has it: the guard of the learner is the scan lookback.
    With fewer than 200 candles it returns the input weights unchanged with
    the accuracy ['N/A']; with 200 candles or more it runs all 50 trials,
    the trial at each counter from 0 to 49 starting in the state the one
    before left, none of them throwing, and returns the normalised weights
    of the state after the last trial with the accuracy [hits / 50] as a
    percentage with one decimal. *)
Theorem calculate_and_adjust_weights_guard (data : list Candle) (w : Weights) :
  ((Z.of_nat (length data) < LOOKBACK_PERIOD)%Z ->
   calculate_and_adjust_weights data w = Some (mkOutcome w NA))
  /\ ((LOOKBACK_PERIOD <= Z.of_nat (length data))%Z ->
      exists st out,
        learn data w = Some (st, out)
        /\ calculate_and_adjust_weights data w = Some out
        /\ totalTrades st = LEARNING_TRADE_COUNT
        /\ (0 <= hits st <= LEARNING_TRADE_COUNT)%Z
        /\ weights out = correct_sum (normalize_weights (adjustedWeights st))
        /\ accuracy out
           = Pct (JS.toFixed 1 (inject_Z (hits st) / inject_Z LEARNING_TRADE_COUNT * 100))
        /\ exists run : nat -> LearnState,
             run 0%nat = mkLearn w 0 LEARNING_TRADE_COUNT
             /\ run (Z.to_nat LEARNING_TRADE_COUNT) = st
             /\ forall i : nat, (i < Z.to_nat LEARNING_TRADE_COUNT)%nat ->
                  learner_trial data (Z.of_nat i) (run i) = Some (run (S i))).
Proof. exact (learner_guard indicatorKeys data w). Qed.

Lemma calculate_and_adjust_weights_guard_witness :
  calculate_and_adjust_weights candles54 CURRENT_WEIGHTS
    = Some (mkOutcome CURRENT_WEIGHTS NA)
  /\ exists st out,
       learn candles200 CURRENT_WEIGHTS = Some (st, out)
       /\ calculate_and_adjust_weights candles200 CURRENT_WEIGHTS = Some out
       /\ totalTrades st = LEARNING_TRADE_COUNT
       /\ (0 <= hits st <= LEARNING_TRADE_COUNT)%Z
       /\ weights out = correct_sum (normalize_weights (adjustedWeights st))
       /\ accuracy out
          = Pct (JS.toFixed 1 (inject_Z (hits st) / inject_Z LEARNING_TRADE_COUNT * 100))
       /\ exists run : nat -> LearnState,
            run 0%nat = mkLearn CURRENT_WEIGHTS 0 LEARNING_TRADE_COUNT
            /\ run (Z.to_nat LEARNING_TRADE_COUNT) = st
            /\ forall i : nat, (i < Z.to_nat LEARNING_TRADE_COUNT)%nat ->
                 learner_trial candles200 (Z.of_nat i) (run i) = Some (run (S i)).
Proof.
  split.
  - apply (proj1 (calculate_and_adjust_weights_guard candles54 CURRENT_WEIGHTS)).
    vm_compute. reflexivity.
  - apply (proj2 (calculate_and_adjust_weights_guard candles200 CURRENT_WEIGHTS)).
    vm_compute. discriminate.
Defined.

(** The earlier revision does have the guard of the claim: from 54 candles
    on it runs the trials (24 of them on 54 candles, all 50 from 80 on). *)
Lemma earlier_calculate_and_adjust_weights_guard (data : list Candle) (w : Weights) :
  ((Z.of_nat (length data) < LEARNING_TRADE_COUNT + LOOKAHEAD_CANDLES)%Z ->
   Earlier.calculate_and_adjust_weights data w = Some (mkOutcome w NA))
  /\ ((LEARNING_TRADE_COUNT + LOOKAHEAD_CANDLES <= Z.of_nat (length data))%Z ->
      exists st out,
        Earlier.learn data w = Some (st, out)
        /\ Earlier.calculate_and_adjust_weights data w = Some out
        /\ totalTrades st = Z.min 50 (Z.of_nat (length data) - 30)
        /\ (0 <= hits st <= totalTrades st)%Z
        /\ accuracy out
           = Pct (JS.toFixed 1 (inject_Z (hits st) / inject_Z (totalTrades st) * 100))).
Proof.
  unfold Earlier.calculate_and_adjust_weights. split; intro H.
  - apply Z.ltb_lt in H. rewrite H. reflexivity.
  - apply Z.ltb_ge in H. rewrite H. apply Z.ltb_ge in H.
    unfold Earlier.learn.
    destruct (earlier_learn_loop_trials data (Z.to_nat LEARNING_TRADE_COUNT) 0
                (mkLearn w 0 LEARNING_TRADE_COUNT))
      as (st & E & T & Hh); try reflexivity; try lia.
    rewrite E. cbn [hits] in Hh.
    unfold LEARNING_TRADE_COUNT, LOOKAHEAD_CANDLES in H.
    unfold LEARNING_TRADE_COUNT in T, Hh.
    assert (T' : totalTrades st = Z.min 50 (Z.of_nat (length data) - 30)) by lia.
    eexists. eexists. split; [reflexivity|]. cbn [option_map snd].
    split; [reflexivity|].
    split; [exact T'|].
    split; [lia|].
    cbn [accuracy]. unfold accuracy_of.
    replace (0 <? totalTrades st)%Z with true by (symmetry; apply Z.ltb_lt; lia).
    reflexivity.
Qed.

(** ** Exact-sum correction *)

(** The remainder correction makes the four weights sum to 85. *)
Lemma correct_sum_in_total (first : Key) (others : list Key) (w : Weights) :
  wtotal (correct_sum_in (first :: others) w) == 85.
Proof.
  unfold correct_sum_in.
  destruct (Qeq_bool (TARGET_TOTAL_WEIGHT - wtotal w) 0) eqn:E.
  - apply Qeq_bool_eq in E. unfold TARGET_TOTAL_WEIGHT, OBI_WEIGHT in E. lra.
  - rewrite !wtotal_sum. destruct w as [a b c d], first;
      cbn [wset wget wOBV wSTOCH wOI_PROXY wMACD];
      unfold TARGET_TOTAL_WEIGHT, OBI_WEIGHT; rewrite wtotal_sum;
      cbn [wOBV wSTOCH wOI_PROXY wMACD]; ring.
Qed.

Lemma correct_sum_total (w : Weights) : wtotal (correct_sum w) == 85.
Proof. exact (correct_sum_in_total OBV [STOCH; OI_PROXY; MACD] w). Qed.



Lemma learn_in_total (first : Key) (others : list Key) (data : list Candle)
    (w : Weights) st out :
  learn_in (first :: others) data w = Some (st, out) -> wtotal (weights out) == 85.
Proof.
  unfold learn_in. destruct (learn_loop _ _ _ _) as [st0|]; [|discriminate].
  intro H. injection H as <- <-. cbn [weights]. apply correct_sum_in_total.
Qed.

Lemma learn_total (data : list Candle) (w : Weights) st out :
  learn data w = Some (st, out) -> wtotal (weights out) == 85.
Proof. exact (learn_in_total OBV [STOCH; OI_PROXY; MACD] data w st out). Qed.

(** ** Weight aggregator *)

(** C1: the aggregator breaks the floor of 5.  The two learned vectors
    (5, 27, 27, 26) and (5, 26, 27, 27) lie within [5, 100] and sum to 85;
    [averageWeights] returns (4, 27, 27, 27), which sums to 85 but has OBV
    below 5: the floor is applied before the last rescaling and the
    remainder correction, not after.  The learner's closing rescaling has no
    floor either: it maps the in-range trial weights (95, 5, 5, 5) to
    (73, 4, 4, 4). *)
Theorem averageWeights_below_floor :
  in_range panel_a /\ wtotal panel_a == 85
  /\ in_range panel_b /\ wtotal panel_b == 85
  /\ fst (averageWeights [mkOutcome panel_a (Pct 50); mkOutcome panel_b (Pct 60)])
     = below_floor_weights
  /\ wtotal below_floor_weights == 85
  /\ wget below_floor_weights OBV < 5
  /\ ~ in_range below_floor_weights
  /\ in_range (mkWeights 95 5 5 5)
  /\ correct_sum (normalize_weights (mkWeights 95 5 5 5)) = mkWeights 73 4 4 4.
Proof.
  assert (R : forall a b c d,
             (Qle_bool 5 a && Qle_bool a 100 && Qle_bool 5 b && Qle_bool b 100
              && Qle_bool 5 c && Qle_bool c 100 && Qle_bool 5 d && Qle_bool d 100
              = true)%bool -> in_range (mkWeights a b c d)).
  { intros a b c d H. repeat (apply andb_true_iff in H; destruct H as [H ?]).
    intros [| | |]; cbn [wget wOBV wSTOCH wOI_PROXY wMACD];
      split; apply Qle_bool_iff; assumption. }
  split; [apply R; reflexivity|].
  split; [reflexivity|].
  split; [apply R; reflexivity|].
  split; [reflexivity|].
  split; [vm_compute; reflexivity|].
  split; [reflexivity|].
  split; [reflexivity|].
  split.
  - intro H. destruct (H OBV) as [H5 _]. vm_compute in H5. apply H5. reflexivity.
  - split; [apply R; reflexivity | vm_compute; reflexivity].
Qed.

Lemma fold_left_pair {A B C} (F : A -> C -> A) (G : B -> C -> B)
    (rs : list C) (a : A) (b : B) :
  fold_left (fun (st : A * B) r => let '(x, y) := st in (F x r, G y r)) rs (a, b)
  = (fold_left F rs a, fold_left G rs b).
Proof.
  revert a b. induction rs as [|r rs IH]; intros a b; simpl.
  - reflexivity.
  - apply IH.
Qed.

(** The accuracy [averageWeights] reports is the mean of the running total,
    which is a number only while every accuracy parsed so far was one. *)
Lemma averageWeights_in_accuracy (keys : list Key) (rs : list LearningOutcome) :
  snd (averageWeights_in keys rs)
  = match accuracy_total rs with
    | Some t => Some (JS.toFixed 1 (t / inject_Z (Z.of_nat (length rs))))
    | None => None
    end.
Proof.
  unfold averageWeights_in, accuracy_total.
  rewrite (fold_left_pair
             (fun aw r => for_keys (fun key v => v + wget (weights r) key) aw)
             (fun ta r => JS.lift2 Qplus ta (parseFloat (accuracy r)))).
  reflexivity.
Qed.

Lemma averageWeights_accuracy (rs : list LearningOutcome) :
  snd (averageWeights rs)
  = match accuracy_total rs with
    | Some t => Some (JS.toFixed 1 (t / inject_Z (Z.of_nat (length rs))))
    | None => None
    end.
Proof. exact (averageWeights_in_accuracy indicatorKeys rs). Qed.










(** ** Bounded-concurrency sweep *)

Section SchedulerFacts.

Import Scheduler.
Context {R : Type}.
Implicit Types (tasks : list (Outcome R)) (s : State R).

Lemma delete_absent (i : nat) (a : list nat) :
  ~ In i a -> delete i a = a.
Proof.
  induction a as [|x a IH]; intro H; simpl; [reflexivity|].
  destruct (Nat.eqb_spec x i) as [->|Hne]; simpl.
  - exfalso. apply H. left. reflexivity.
  - rewrite IH; [reflexivity|]. intro Hin. apply H. right. exact Hin.
Qed.

Lemma delete_present (i : nat) (a : list nat) :
  NoDup a -> In i a -> Permutation a (i :: delete i a).
Proof.
  induction a as [|x a IH]; intros Hnd Hin; [destruct Hin|].
  inversion Hnd as [|? ? Hx Hnd']; subst. simpl.
  destruct (Nat.eqb_spec x i) as [->|Hne]; simpl.
  - rewrite delete_absent by exact Hx. reflexivity.
  - destruct Hin as [->|Hin]; [congruence|].
    rewrite (IH Hnd' Hin) at 1. apply perm_swap.
Qed.

Lemma delete_shorter (i : nat) (a : list nat) :
  In i a -> (length (delete i a) < length a)%nat.
Proof.
  induction a as [|x a IH]; intro Hin; [destruct Hin|]. simpl.
  destruct (Nat.eqb_spec x i) as [->|Hne]; simpl.
  - pose proof (filter_length_le (fun j => negb (Nat.eqb j i)) a) as Hle.
    unfold delete. lia.
  - destruct Hin as [->|Hin]; [congruence|]. specialize (IH Hin). lia.
Qed.

Lemma invariant_initial tasks (limit : nat) :
  (1 <= limit)%nat -> invariant tasks limit initial.
Proof.
  intro H. exists []. simpl. repeat split; try reflexivity; lia.
Qed.

Lemma invariant_step tasks (limit : nat) s s' :
  invariant tasks limit s -> step tasks limit s s' -> invariant tasks limit s'.
Proof.
  intros (settled & Hperm & Hnext & Hcomp & Hres & Hlim & Hmain) Hstep.
  destruct Hstep as [s Hrun | s i o Hin Hnth].
  - (* launch *)
    rewrite Hrun in Hmain. unfold launch.
    destruct (nth_error tasks (next s)) as [o|] eqn:E.
    + exists settled. cbn [next active results completed main].
      assert (Hlt : (next s < length tasks)%nat)
        by (apply nth_error_Some; congruence).
      rewrite length_app. cbn [length].
      split.
      { rewrite seq_S, app_assoc. cbn [Nat.add].
        apply Permutation_app_tail. exact Hperm. }
      split; [lia|]. split; [exact Hcomp|]. split; [exact Hres|].
      split; [lia|].
      destruct (Nat.leb_spec limit (length (active s) + 1)).
      * destruct (active s); discriminate.
      * lia.
    + exists settled. cbn [next active results completed main].
      apply nth_error_None in E.
      repeat (split; [assumption || lia|]).
      destruct (active s) eqn:Ea.
      * split; [reflexivity|lia].
      * split; [discriminate|lia].
  - (* settle *)
    assert (Hnd : NoDup (active s)).
    { apply (NoDup_app_remove_l settled).
      apply (Permutation_NoDup (Permutation_sym Hperm)), seq_NoDup. }
    pose proof (delete_present i (active s) Hnd Hin) as Hdel.
    pose proof (delete_shorter i (active s) Hin) as Hshort.
    exists (settled ++ [i]). unfold settle.
    cbn [next active results completed main].
    split.
    { rewrite <- Hperm, <- app_assoc. apply Permutation_app_head.
      cbn [app]. symmetry. exact Hdel. }
    split; [exact Hnext|].
    split; [rewrite length_app; cbn [length]; lia|].
    split.
    { rewrite flat_map_app. cbn [flat_map]. rewrite app_nil_r.
      unfold result_of at 2. rewrite Hnth, Hres.
      destruct o as [[r|]|]; rewrite ?app_nil_r; reflexivity. }
    split; [lia|].
    destruct (main s) eqn:Em, o as [r|];
      try solve [lia | eauto | exact Hmain].
    + destruct (delete i (active s)) eqn:Ed.
      * split; [reflexivity|apply Hmain].
      * split; [discriminate|apply Hmain].
    + destruct Hmain as [Ha Hn]. rewrite Ha in Hin. destruct Hin.
    + destruct Hmain as [Ha Hn]. rewrite Ha in Hin. destruct Hin.
Qed.

Lemma invariant_reachable tasks (limit : nat) s :
  (1 <= limit)%nat -> reachable tasks limit s -> invariant tasks limit s.
Proof.
  intros Hl Hr. induction Hr as [|s s' _ IH Hstep].
  - apply invariant_initial. exact Hl.
  - eapply invariant_step; eassumption.
Qed.

(** Every run ends: a transition uses up fuel. *)
Lemma step_decreases tasks (limit : nat) s s' :
  step tasks limit s s' -> (fuel tasks s' < fuel tasks s)%nat.
Proof.
  intros [s0 Hrun | s0 i o Hin Hnth]; unfold fuel.
  - rewrite Hrun. unfold launch.
    destruct (nth_error tasks (next s0)) as [o|] eqn:E.
    + assert (Hlt : (next s0 < length tasks)%nat)
        by (apply nth_error_Some; congruence).
      cbn [next active main]. rewrite length_app. cbn [length].
      destruct (limit <=? length (active s0) + 1)%nat; lia.
    + cbn [next active main]. destruct (active s0); lia.
  - pose proof (delete_shorter i (active s0) Hin) as Hshort.
    unfold settle. cbn [next active main].
    destruct (main s0), o as [r|]; try lia;
      destruct (delete i (active s0)); simpl in *; lia.
Qed.


Lemma steps_bounded tasks (limit n : nat) s s' :
  steps tasks limit n s s' -> (n + fuel tasks s' <= fuel tasks s)%nat.
Proof.
  induction 1 as [s|n s s1 s2 H IH Hstep]; [lia|].
  pose proof (step_decreases tasks limit s1 s2 Hstep). lia.
Qed.








End SchedulerFacts.

(** The tasks of the sweep never reject. *)
Lemma scan_task_never_rejects (symbol : string) (w : Weights)
    (fetchBinanceData : Fetched (list Candle))
    (fetchOrderBookData : Fetched (option Book)) :
  Scheduler.never_rejects (scan_task symbol w fetchBinanceData fetchOrderBookData).
Proof. exact I. Qed.




(** ** Exponential moving average *)

Lemma slice_first {A} (x : A) (l : list A) : JS.slice (x :: l) 0 1 = [x].
Proof.
  unfold JS.slice, JS.rel_index. cbn [Z.ltb Z.compare].
  rewrite Z.min_l by (cbn [length]; lia).
  rewrite Z.min_l by (cbn [length]; lia).
  reflexivity.
Qed.

Lemma ema_loop_length (alpha : Q) (data rest : list Q) (i : Z) (cur : option Q) :
  length (ema_loop alpha data i rest cur) = length rest.
Proof.
  revert i cur. induction rest as [|x rest IH]; intros i cur; simpl.
  - reflexivity.
  - now rewrite IH.
Qed.

Lemma smoothing_factor_range (window : Q) :
  1 <= window -> 0 <= 2 / (window + 1) <= 1.
Proof.
  intro H. split.
  - apply Qle_shift_div_l; lra.
  - apply Qle_shift_div_r; lra.
Qed.

Lemma convex_step (a x e lo hi : Q) :
  0 <= a <= 1 -> lo <= x <= hi -> lo <= e <= hi ->
  lo <= a * x + (1 - a) * e <= hi.
Proof.
  intros [Ha0 Ha1] [Hx0 Hx1] [He0 He1].
  assert (H1 : 0 <= a * (x - lo)) by (apply Qmult_le_0_compat; lra).
  assert (H2 : 0 <= (1 - a) * (e - lo)) by (apply Qmult_le_0_compat; lra).
  assert (H3 : 0 <= a * (hi - x)) by (apply Qmult_le_0_compat; lra).
  assert (H4 : 0 <= (1 - a) * (hi - e)) by (apply Qmult_le_0_compat; lra).
  split; lra.
Qed.

Lemma ema_loop_between (alpha lo hi : Q) (data rest : list Q) (i : Z) (e : Q) :
  0 <= alpha <= 1 -> lo <= e <= hi ->
  Forall (fun x => lo <= x <= hi) rest ->
  Forall (fun x => lo <= x <= hi) (ema_loop alpha data i rest (Some e)).
Proof.
  intros Ha. revert i e. induction rest as [|x rest IH]; intros i e He Hr; simpl.
  - constructor.
  - inversion Hr as [|? ? Hx Hr']; subst.
    assert (Hc : lo <= alpha * x + (1 - alpha) * e <= hi)
      by (apply convex_step; assumption).
    constructor; [exact Hc|]. apply IH; assumption.
Qed.


(** ** Lists *)

Lemma Forall_skipn {A} (P : A -> Prop) (n : nat) (l : list A) :
  Forall P l -> Forall P (skipn n l).
Proof.
  intro H. rewrite <- (firstn_skipn n l) in H. apply Forall_app in H. tauto.
Qed.

Lemma Forall_firstn {A} (P : A -> Prop) (n : nat) (l : list A) :
  Forall P l -> Forall P (firstn n l).
Proof.
  intro H. rewrite <- (firstn_skipn n l) in H. apply Forall_app in H. tauto.
Qed.

Lemma Forall_slice {A} (P : A -> Prop) (l : list A) (from to : Z) :
  Forall P l -> Forall P (JS.slice l from to).
Proof. intro H. unfold JS.slice. apply Forall_firstn, Forall_skipn, H. Qed.

Lemma Forall_last {A} (P : A -> Prop) (l : list A) (d : A) :
  P d -> Forall P l -> P (last l d).
Proof.
  intros Hd H. induction H as [|x l Hx H IH]; [exact Hd|].
  destruct l; [exact Hx|exact IH].
Qed.

Lemma mapi_from_length {A B} (f : A -> Z -> B) (i : Z) (a : list A) :
  length (mapi_from f i a) = length a.
Proof.
  revert i. induction a as [|x a IH]; intro i; simpl; [reflexivity|].
  now rewrite IH.
Qed.

(** What holds of [f x i] for every element [x] at its index [i] holds of
    every element of [a.map(f)]. *)
Lemma Forall_mapi_from {A B} (f : A -> Z -> B) (P : B -> Prop) (a : list A) :
  forall k : Z,
    (forall j x, nth_error a j = Some x -> P (f x (k + Z.of_nat j)%Z)) ->
    Forall P (mapi_from f k a).
Proof.
  induction a as [|x a IH]; intros k H; simpl; [constructor|].
  constructor.
  - specialize (H 0%nat x eq_refl). rewrite Z.add_0_r in H. exact H.
  - apply IH. intros j y Hj. specialize (H (S j) y Hj).
    replace (k + 1 + Z.of_nat j)%Z with (k + Z.of_nat (S j))%Z by lia. exact H.
Qed.

Lemma Forall_mapi {A B} (f : A -> Z -> B) (P : B -> Prop) (a : list A) :
  (forall j x, nth_error a j = Some x -> P (f x (Z.of_nat j))) ->
  Forall P (mapi f a).
Proof. intro H. apply Forall_mapi_from. exact H. Qed.

(** ** MACD histogram *)

Lemma calculate_ema_range (data : list Q) (window lo hi : Q) :
  1 <= window ->
  Forall (fun x => lo <= x <= hi) data ->
  Forall (fun x => lo <= x <= hi) (calculate_ema data window).
Proof.
  intros Hw Hd. unfold calculate_ema.
  destruct data as [|x rest]; [constructor|].
  cbn [ema_loop]. change (0 + 1)%Z with 1%Z. rewrite slice_first.
  assert (E : JS.sum [x] / inject_Z 1 == x).
  { unfold JS.sum. cbn [fold_left]. change (inject_Z 1) with 1. field. }
  inversion Hd as [|? ? Hx Hr]; subst.
  constructor; [rewrite E; exact Hx|].
  apply ema_loop_between; [apply smoothing_factor_range; exact Hw| |exact Hr].
  rewrite E. exact Hx.
Qed.

Lemma calculate_macd_with_length (data : list Candle) (fast slow signal : Q) :
  length (calculate_macd_with data fast slow signal) = length data.
Proof.
  unfold calculate_macd_with, mapi, calculate_ema.
  rewrite mapi_from_length, length_map, length_combine, !ema_loop_length, length_map.
  apply Nat.min_id.
Qed.

(** ** On-balance volume *)

Lemma obv_loop_length (pc po : Q) (rest : list Candle) :
  length (obv_loop pc po rest) = length rest.
Proof.
  revert pc po. induction rest as [|c rest IH]; intros pc po; simpl; [reflexivity|].
  now rewrite IH.
Qed.

Lemma calculate_obv_length (data : list Candle) :
  length (calculate_obv data) = length data.
Proof.
  destruct data as [|c0 rest]; simpl; [reflexivity|]. now rewrite obv_loop_length.
Qed.

Lemma obv_loop_still (p pc po : Q) (rest : list Candle) :
  pc == p -> Forall (fun c => close c == p) rest ->
  obv_loop pc po rest = repeat po (length rest).
Proof.
  revert pc. induction rest as [|c rest IH]; intros pc Hpc H; simpl; [reflexivity|].
  inversion H as [|? ? Hc Hr]; subst.
  replace (JS.Qlt_bool pc (close c)) with false
    by (symmetry; apply Qlt_bool_false_iff; rewrite Hpc, Hc; apply Qle_refl).
  replace (JS.Qlt_bool (close c) pc) with false
    by (symmetry; apply Qlt_bool_false_iff; rewrite Hpc, Hc; apply Qle_refl).
  f_equal. apply IH; assumption.
Qed.

Lemma calculate_obv_still (p : Q) (c0 : Candle) (rest : list Candle) :
  Forall (fun c => close c == p) (c0 :: rest) ->
  calculate_obv (c0 :: rest) = repeat (volume c0) (length (c0 :: rest)).
Proof.
  intro H. inversion H as [|? ? H0 Hr]; subst. simpl. f_equal.
  apply (obv_loop_still p); assumption.
Qed.

(** ** Stochastic %K *)

Lemma fold_left_Qmin_le (l : list Q) (a : Q) :
  fold_left Qmin l a <= a /\ forall x, In x l -> fold_left Qmin l a <= x.
Proof.
  revert a. induction l as [|y l IH]; intro a; simpl.
  - split; [apply Qle_refl|intros x []].
  - destruct (IH (Qmin a y)) as [H1 H2]. split.
    + eapply Qle_trans; [exact H1|apply Q.le_min_l].
    + intros x [<-|Hx]; [|apply H2, Hx].
      eapply Qle_trans; [exact H1|apply Q.le_min_r].
Qed.

Lemma fold_left_Qmax_ge (l : list Q) (a : Q) :
  a <= fold_left Qmax l a /\ forall x, In x l -> x <= fold_left Qmax l a.
Proof.
  revert a. induction l as [|y l IH]; intro a; simpl.
  - split; [apply Qle_refl|intros x []].
  - destruct (IH (Qmax a y)) as [H1 H2]. split.
    + eapply Qle_trans; [apply Q.le_max_l|exact H1].
    + intros x [<-|Hx]; [|apply H2, Hx].
      eapply Qle_trans; [apply Q.le_max_r|exact H1].
Qed.

Lemma min_of_le (l : list Q) (x : Q) : In x l -> min_of l <= x.
Proof.
  destruct l as [|a l]; [intros []|]. cbn [min_of].
  destruct (fold_left_Qmin_le l a) as [H1 H2].
  intros [<-|Hx]; [exact H1|apply H2, Hx].
Qed.

Lemma max_of_ge (l : list Q) (x : Q) : In x l -> x <= max_of l.
Proof.
  destruct l as [|a l]; [intros []|]. cbn [max_of].
  destruct (fold_left_Qmax_ge l a) as [H1 H2].
  intros [<-|Hx]; [exact H1|apply H2, Hx].
Qed.

(** The candle at index [j] is the last one of the window that ends at
    it. *)
Lemma window_has_last {A} (data : list A) (j : nat) (x : A) (k_window : Z) :
  nth_error data j = Some x ->
  (1 <= k_window <= Z.of_nat j + 1)%Z ->
  In x (JS.slice data (Z.of_nat j - k_window + 1) (Z.of_nat j + 1)).
Proof.
  intros Hj Hk.
  assert (Hlen : (j < length data)%nat) by (apply nth_error_Some; congruence).
  unfold JS.slice, JS.rel_index.
  replace (Z.of_nat j - k_window + 1 <? 0)%Z with false by (symmetry; apply Z.ltb_ge; lia).
  replace (Z.of_nat j + 1 <? 0)%Z with false by (symmetry; apply Z.ltb_ge; lia).
  rewrite !Z.min_l by lia.
  apply (nth_error_In _ (Z.to_nat (k_window - 1))).
  rewrite nth_error_firstn.
  replace (Z.to_nat (k_window - 1) <? Z.to_nat (Z.of_nat j + 1 - (Z.of_nat j - k_window + 1)))%nat
    with true by (symmetry; apply Nat.ltb_lt; lia).
  rewrite nth_error_skipn.
  replace (Z.to_nat (Z.of_nat j - k_window + 1) + Z.to_nat (k_window - 1))%nat with j by lia.
  exact Hj.
Qed.

Lemma calculate_stochastic_with_length (data : list Candle) (k_window : Z) :
  length (calculate_stochastic_with data k_window) = length data.
Proof. unfold calculate_stochastic_with, mapi. apply mapi_from_length. Qed.

Lemma calculate_stochastic_range (data : list Candle) :
  Forall well_formed data ->
  Forall (fun k => 0 <= k <= 100) (calculate_stochastic data).
Proof.
  intro Hwf. unfold calculate_stochastic, calculate_stochastic_with.
  apply Forall_mapi. intros j c Hj.
  destruct (Z.of_nat j <? 14 - 1)%Z eqn:Ew; [split; lra|].
  apply Z.ltb_ge in Ew.
  set (windowData := JS.slice data (Z.of_nat j - 14 + 1) (Z.of_nat j + 1)).
  assert (Hin : In c windowData).
  { apply window_has_last; [exact Hj|lia]. }
  assert (Hc : well_formed c).
  { rewrite Forall_forall in Hwf. apply Hwf. eapply nth_error_In. exact Hj. }
  destruct Hc as [Hlo Hhi].
  pose proof (min_of_le (map low windowData) (low c) (in_map low _ _ Hin)) as Hmin.
  pose proof (max_of_ge (map high windowData) (high c) (in_map high _ _ Hin)) as Hmax.
  destruct (JS.Qlt_bool EPSILON
              (max_of (map high windowData) - min_of (map low windowData))) eqn:Er;
    [|split; lra].
  apply Qlt_bool_iff in Er. unfold EPSILON in Er.
  set (ll := min_of (map low windowData)) in *.
  set (hh := max_of (map high windowData)) in *.
  assert (Hr : 0 < hh - ll) by lra.
  split.
  - apply Qle_shift_div_l; [exact Hr|]. lra.
  - apply Qle_shift_div_r; [exact Hr|]. lra.
Qed.

Lemma calculate_stochastic_warm_up_values (data : list Candle) (i : Z) (k : Q) :
  (i < 13)%Z -> JS.get (calculate_stochastic data) i = Some k -> k = 50.
Proof.
  intros Hi. unfold JS.get. destruct (i <? 0)%Z eqn:E0; [discriminate|].
  apply Z.ltb_ge in E0.
  unfold calculate_stochastic, calculate_stochastic_with, mapi.
  intro H.
  assert (G : forall (l : list Candle) (k0 : Z) (n : nat) (f : Candle -> Z -> Q) v,
             nth_error (mapi_from f k0 l) n = Some v ->
             exists c, nth_error l n = Some c /\ v = f c (k0 + Z.of_nat n)%Z).
  { induction l as [|c l IH]; intros k0 n f v Hn; [destruct n; discriminate|].
    destruct n as [|n]; simpl in Hn.
    - injection Hn as <-. exists c. split; [reflexivity|]. f_equal. lia.
    - destruct (IH _ _ _ _ Hn) as (c' & Hc' & ->). exists c'. split; [exact Hc'|].
      f_equal. lia. }
  destruct (G _ _ _ _ _ H) as (c & _ & ->).
  replace (0 + Z.of_nat (Z.to_nat i) <? 14 - 1)%Z with true
    by (symmetry; apply Z.ltb_lt; lia).
  reflexivity.
Qed.

(** ** Average true range: sign *)

Lemma fold_left_Qplus_nonneg (l : list Q) (a : Q) :
  0 <= a -> Forall (fun x => 0 <= x) l -> 0 <= fold_left Qplus l a.
Proof.
  revert a. induction l as [|x l IH]; intros a Ha H; simpl; [exact Ha|].
  inversion H as [|? ? Hx Hl]; subst. apply IH; [lra|exact Hl].
Qed.

Lemma sum_nonneg (l : list Q) : Forall (fun x => 0 <= x) l -> 0 <= JS.sum l.
Proof. apply fold_left_Qplus_nonneg. apply Qle_refl. Qed.

Lemma true_ranges_from_nonneg (prev : Candle) (rest : list Candle) :
  Forall (fun x => 0 <= x) (true_ranges_from prev rest).
Proof.
  revert prev. induction rest as [|c rest IH]; intro prev; simpl; constructor.
  - eapply Qle_trans; [apply (Qabs_nonneg (high c - close prev))|].
    eapply Qle_trans; [apply Q.le_max_r|apply Q.le_max_l].
  - apply IH.
Qed.

Lemma true_ranges_nonneg (data : list Candle) :
  Forall (fun x => 0 <= x) (true_ranges data).
Proof.
  destruct data as [|c0 rest]; [constructor|apply true_ranges_from_nonneg].
Qed.

Lemma wilder_loop_nonneg (w c : Q) (rest : list Q) :
  1 <= w -> 0 <= c -> Forall (fun x => 0 <= x) rest ->
  Forall (fun x => 0 <= x) (wilder_loop w c rest).
Proof.
  intro Hw. revert c. induction rest as [|tr rest IH]; intros c Hc H; simpl.
  - constructor.
  - inversion H as [|? ? Ht Hr]; subst.
    assert (Hn : 0 <= (c * (w - 1) + tr) / w).
    { apply Qle_shift_div_l; [lra|].
      assert (0 <= c * (w - 1)) by (apply Qmult_le_0_compat; lra). lra. }
    constructor; [exact Hn|]. apply IH; assumption.
Qed.

Lemma calculate_atr_nonneg (data : list Candle) (window : nat) :
  (1 <= window)%nat ->
  Forall (fun x => 0 <= x) (calculate_atr data window).
Proof.
  intro Hw. unfold calculate_atr.
  assert (Hq : 1 <= inject_Z (Z.of_nat window)).
  { change 1 with (inject_Z 1). rewrite <- Zle_Qle. lia. }
  pose proof (true_ranges_nonneg data) as Htr.
  set (trs := true_ranges data) in *.
  assert (Ha : Forall (fun x => 0 <= x)
                 match trs with
                 | [] => []
                 | _ :: _ =>
                     JS.sum (firstn window trs) / inject_Z (Z.of_nat window)
                     :: wilder_loop (inject_Z (Z.of_nat window))
                          (JS.sum (firstn window trs) / inject_Z (Z.of_nat window))
                          (skipn window trs)
                 end).
  { destruct trs as [|t rest] eqn:E; [constructor|]. rewrite <- E in *.
    assert (H0 : 0 <= JS.sum (firstn window trs) / inject_Z (Z.of_nat window)).
    { apply Qle_shift_div_l; [lra|]. rewrite Qmult_0_l.
      apply sum_nonneg, Forall_firstn, Htr. }
    constructor; [exact H0|].
    apply wilder_loop_nonneg; [exact Hq|exact H0|apply Forall_skipn, Htr]. }
  apply Forall_app. split; [|exact Ha].
  apply Forall_forall. intros x Hx. apply repeat_spec in Hx. subst x.
  destruct Ha as [|a l Ha0 _]; [apply Qle_refl|exact Ha0].
Qed.

(** ** Volume pressure *)

Lemma calculate_volume_pressure_range (c : Candle) :
  well_formed c -> -100 <= calculate_volume_pressure c <= 100.
Proof.
  intros [Hlo Hhi]. unfold calculate_volume_pressure.
  destruct (JS.Qlt_bool (high c - low c) EPSILON) eqn:E; [split; lra|].
  apply Qlt_bool_false_iff in E. unfold EPSILON in E.
  assert (Hr : 0 < high c - low c) by lra.
  assert (H0 : 0 <= (close c - low c) / (high c - low c))
    by (apply Qle_shift_div_l; [exact Hr|lra]).
  assert (H1 : (close c - low c) / (high c - low c) <= 1)
    by (apply Qle_shift_div_r; [exact Hr|lra]).
  split; lra.
Qed.

Lemma calculate_volume_pressure_extremes (c : Candle) :
  EPSILON <= high c - low c ->
  (close c == high c -> calculate_volume_pressure c == 100)
  /\ (close c == low c -> calculate_volume_pressure c == -100).
Proof.
  intro Hr. unfold calculate_volume_pressure.
  replace (JS.Qlt_bool (high c - low c) EPSILON) with false
    by (symmetry; apply Qlt_bool_false_iff; exact Hr).
  unfold EPSILON in Hr.
  split; intro E; rewrite E; field; lra.
Qed.

(** ** Depth-weighted imbalance: range *)

Lemma weighted_volume_nonneg (limit : Z) (levels : list Level) :
  (Z.of_nat (length levels) <= limit)%Z ->
  Forall (fun l => 0 <= snd l) levels ->
  0 <= weighted_volume limit levels.
Proof.
  intros Hlen Hq. unfold weighted_volume. apply sum_nonneg.
  apply Forall_mapi. intros j l Hj.
  assert (Hjl : (j < length levels)%nat)
    by (apply nth_error_Some; intro Hn;
        pose proof (eq_trans (eq_sym Hn) Hj) as Hx; discriminate Hx).
  apply Qmult_le_0_compat.
  - rewrite Forall_forall in Hq. apply Hq. eapply nth_error_In. exact Hj.
  - change 0 with (inject_Z 0). rewrite <- Zle_Qle. lia.
Qed.

Lemma depth_weighted_imbalance_range_aux (bs as_ : list Level) :
  (length as_ <= length bs)%nat ->
  Forall (fun l => 0 <= snd l) bs ->
  Forall (fun l => 0 <= snd l) as_ ->
  0 <= calculate_depth_weighted_imbalance (Some (mkBook (Some bs) (Some as_))) <= 100.
Proof.
  intros Hlen Hb Ha. unfold calculate_depth_weighted_imbalance. cbn [bids asks].
  pose proof (weighted_volume_nonneg (Z.of_nat (length bs)) bs ltac:(lia) Hb) as HB.
  pose proof (weighted_volume_nonneg (Z.of_nat (length bs)) as_ ltac:(lia) Ha) as HA.
  set (B := weighted_volume (Z.of_nat (length bs)) bs) in *.
  set (A := weighted_volume (Z.of_nat (length bs)) as_) in *.
  destruct (JS.Qlt_bool (B + A) EPSILON) eqn:E; [split; lra|].
  apply Qlt_bool_false_iff in E. unfold EPSILON in E.
  assert (Hr : 0 < B + A) by lra.
  assert (H0 : 0 <= B / (B + A)) by (apply Qle_shift_div_l; [exact Hr|lra]).
  assert (H1 : B / (B + A) <= 1) by (apply Qle_shift_div_r; [exact Hr|lra]).
  split; lra.
Qed.

(** ** Prediction engine: bounds *)

Lemma ladder2_bound (b1 b2 : bool) (w : Q) :
  0 <= w -> - w <= (if b1 then w else if b2 then - w else 0) <= w.
Proof. intro H. destruct b1, b2; split; lra. Qed.

Lemma ladder4_bound (b1 b2 b3 b4 : bool) (w : Q) :
  0 <= w ->
  - w <= (if b1 then w else if b2 then - w else if b3 then w / 2
          else if b4 then - w / 2 else 0) <= w.
Proof.
  intro H.
  assert (H2 : 0 <= w / 2) by (apply Qle_shift_div_l; lra).
  assert (H3 : w / 2 <= w) by (apply Qle_shift_div_r; lra).
  assert (H4 : - w / 2 == - (w / 2)) by (field).
  destruct b1, b2, b3, b4; rewrite ?H4; split; lra.
Qed.

(** The result of [generatePrediction] in terms of its five contributions,
    each within its weight. *)
Lemma generatePrediction_shape
    (obvPctChange stochK macdHist volumePressure obiPct : JS.num) (w : Weights) :
  exists a b c d e : Q,
    generatePrediction obvPctChange stochK macdHist volumePressure obiPct w
    = mkPrediction (if Qle_bool 0 (0 + a + b + c + d + e) then UP else DOWN)
                   (Qmin 100 (Qabs (0 + a + b + c + d + e)))
                   (0 + a + b + c + d + e)
                   (mkComponents a b c d e)
    /\ (0 <= wOBV w -> - wOBV w <= a <= wOBV w)
    /\ (0 <= wSTOCH w -> - wSTOCH w <= b <= wSTOCH w)
    /\ (0 <= wOI_PROXY w -> - wOI_PROXY w <= c <= wOI_PROXY w)
    /\ (0 <= wMACD w -> - wMACD w <= d <= wMACD w)
    /\ - 15 <= e <= 15.
Proof.
  unfold generatePrediction. cbv zeta.
  do 5 eexists. split; [reflexivity|].
  split; [apply ladder2_bound|].
  split; [apply ladder2_bound|].
  split; [apply ladder4_bound|].
  split; [apply ladder2_bound|].
  apply (ladder4_bound _ _ _ _ OBI_WEIGHT). unfold OBI_WEIGHT. lra.
Qed.

Lemma generatePrediction_bounds_aux
    (obvPctChange stochK macdHist volumePressure obiPct : JS.num) (w : Weights) :
  (forall k, 0 <= wget w k) ->
  let p := generatePrediction obvPctChange stochK macdHist volumePressure obiPct w in
  (forall k, Qabs (cget (componentScores p) k) <= wget w k)
  /\ Qabs (cOBI (componentScores p)) <= 15
  /\ Qabs (score p) <= wtotal w + 15
  /\ 0 <= confidence p <= 100
  /\ (wtotal w <= 85 -> confidence p == Qabs (score p)).
Proof.
  intros Hw p. subst p.
  destruct (generatePrediction_shape obvPctChange stochK macdHist volumePressure
              obiPct w) as (a & b & c & d & e & -> & Ha & Hb & Hc & Hd & He).
  cbn [componentScores score confidence cOBI].
  specialize (Ha (Hw OBV)). specialize (Hb (Hw STOCH)).
  specialize (Hc (Hw OI_PROXY)). specialize (Hd (Hw MACD)).
  cbn [wget] in *.
  pose proof (wtotal_sum w) as Ht.
  assert (Hs : Qabs (0 + a + b + c + d + e) <= wtotal w + 15)
    by (apply Qabs_Qle_condition; split; lra).
  split; [intros [| | |]; cbn [cget cOBV cSTOCH cOI_PROXY cMACD];
          apply Qabs_Qle_condition; assumption|].
  split; [apply Qabs_Qle_condition; assumption|].
  split; [exact Hs|].
  split.
  - split; [|apply Q.le_min_l].
    apply Q.min_glb; [lra|apply Qabs_nonneg].
  - intro H85. apply Q.min_r. lra.
Qed.

(** ** Learner: what a run keeps *)

(** A trial replaces the weights by [adjust_weights] of some prediction. *)
Lemma learner_trial_step (data : list Candle) (i : Z) (st st' : LearnState) :
  learner_trial data i st = Some st' ->
  exists p isHit,
    adjustedWeights st' = adjust_weights p isHit (adjustedWeights st)
    /\ hits st' = (if isHit then hits st + 1 else hits st)%Z
    /\ totalTrades st' = totalTrades st.
Proof.
  unfold learner_trial. intro H.
  destruct (JS.get data (Z.of_nat (length data) - LOOKAHEAD_CANDLES - 1 - i))
    as [predictCandle|]; [|discriminate].
  destruct (JS.get data (Z.of_nat (length data) - 1 - i))
    as [outcomeCandle|]; [|discriminate].
  revert H.
  generalize (trial_prediction data
                (Z.of_nat (length data) - LOOKAHEAD_CANDLES - 1 - i)
                predictCandle (adjustedWeights st)).
  generalize (actual_direction predictCandle outcomeCandle).
  intros actualDirection p H. cbv zeta in H. injection H as <-.
  exists p, (Direction_eqb (prediction p) actualDirection).
  repeat split.
Qed.

Lemma learn_loop_keeps (data : list Candle) (n : nat) :
  forall (i : Z) (st st' : LearnState),
    learn_loop data n i st = Some st' ->
    in_range (adjustedWeights st) ->
    in_range (adjustedWeights st').
Proof.
  induction n as [|n IH]; intros i st st' H Hr.
  - injection H as <-. exact Hr.
  - cbn [learn_loop] in H. cbv zeta in H.
    destruct ((_ <? 26)%Z || _)%bool.
    + injection H as <-. exact Hr.
    + destruct (learner_trial data i st) as [st1|] eqn:E; [|discriminate].
      destruct (learner_trial_step _ _ _ _ E) as (p & isHit & Ew & _ & _).
      apply (IH _ _ _ H). rewrite Ew. apply adjust_weights_in_range. exact Hr.
Qed.

Lemma in_range_total (w : Weights) : in_range w -> 20 <= wtotal w <= 400.
Proof.
  intro H. rewrite wtotal_sum.
  pose proof (H OBV). pose proof (H STOCH). pose proof (H OI_PROXY). pose proof (H MACD).
  cbn [wget] in *. split; lra.
Qed.

(** ** Rounding *)

Lemma toFixed_1_range (x : Q) : 0 <= x <= 100 -> 0 <= JS.toFixed 1 x <= 100.
Proof.
  intros [H0 H1]. unfold JS.toFixed.
  replace (JS.Qlt_bool x 0) with false by (symmetry; apply Qlt_bool_false_iff; exact H0).
  change (inject_Z (10 ^ Z.of_nat 1)) with 10.
  assert (Ha : Qabs x == x) by (apply Qabs_pos; exact H0).
  assert (Hlo : (0 <= Qfloor (Qabs x * 10 + (1 # 2)))%Z).
  { change 0%Z with (Qfloor 0). apply Qfloor_resp_le. rewrite Ha. lra. }
  assert (Hhi : (Qfloor (Qabs x * 10 + (1 # 2)) <= 1000)%Z).
  { change 1000%Z with (Qfloor (2001 # 2)). apply Qfloor_resp_le. rewrite Ha. lra. }
  rewrite Zle_Qle in Hlo, Hhi.
  change (inject_Z 0) with 0 in Hlo. change (inject_Z 1000) with 1000 in Hhi.
  split.
  - apply Qle_shift_div_l; lra.
  - apply Qle_shift_div_r; lra.
Qed.

Lemma round_whole (x : Q) : exists z : Z, JS.round x = inject_Z z.
Proof. eexists. reflexivity. Qed.

Lemma round_near (x : Q) : x - (1 # 2) < JS.round x <= x + (1 # 2).
Proof.
  unfold JS.round. split.
  - pose proof (Qlt_floor (x + (1 # 2))) as H.
    rewrite inject_Z_plus in H. change (inject_Z 1) with 1 in H. lra.
  - apply Qfloor_le.
Qed.

Lemma round_ge (x : Q) (z : Z) : inject_Z z <= x -> inject_Z z <= JS.round x.
Proof.
  intro H. unfold JS.round. rewrite <- Zle_Qle.
  rewrite <- (Qfloor_Z z). apply Qfloor_resp_le. lra.
Qed.

Lemma accuracy_of_range (st : LearnState) :
  (0 <= hits st <= totalTrades st)%Z ->
  exists v, accuracy_of st = Pct v /\ 0 <= v <= 100.
Proof.
  intros [H0 H1]. unfold accuracy_of.
  destruct (0 <? totalTrades st)%Z eqn:E.
  - eexists. split; [reflexivity|]. apply toFixed_1_range.
    apply Z.ltb_lt in E.
    assert (Ht : 0 < inject_Z (totalTrades st))
      by (change 0 with (inject_Z 0); rewrite <- Zlt_Qlt; exact E).
    assert (Hh0 : 0 <= inject_Z (hits st))
      by (change 0 with (inject_Z 0); rewrite <- Zle_Qle; exact H0).
    assert (Hh1 : inject_Z (hits st) <= inject_Z (totalTrades st))
      by (rewrite <- Zle_Qle; exact H1).
    assert (Hq0 : 0 <= inject_Z (hits st) / inject_Z (totalTrades st))
      by (apply Qle_shift_div_l; lra).
    assert (Hq1 : inject_Z (hits st) / inject_Z (totalTrades st) <= 1)
      by (apply Qle_shift_div_r; lra).
    split; lra.
  - exists 0. split; [reflexivity|split; lra].
Qed.

(** ** Learner: how far a run moves the weights *)

Lemma adjust_weights_step_size (p : PredictionResult) (isHit : bool) (w : Weights)
    (key : Key) :
  5 <= wget w key <= 100 ->
  (if isHit then 0 <= wget (adjust_weights p isHit w) key - wget w key <= 1 # 2
   else - (1 # 2) <= wget (adjust_weights p isHit w) key - wget w key <= 0).
Proof.
  intro Hw. rewrite adjust_weights_get. unfold LEARNING_RATE.
  destruct isHit, (voted_with p key); try (split; lra).
  - destruct (Q.min_spec 100 (wget w key + (1 # 2))) as [[? E]|[? E]];
      rewrite E; split; lra.
  - destruct (Q.max_spec 5 (wget w key - (1 # 2))) as [[? E]|[? E]];
      rewrite E; split; lra.
Qed.

Lemma learn_loop_drift (data : list Candle) (n : nat) :
  forall (i : Z) (st st' : LearnState),
    learn_loop data n i st = Some st' ->
    in_range (adjustedWeights st) ->
    forall key,
      Qabs (wget (adjustedWeights st') key - wget (adjustedWeights st) key)
      <= inject_Z (Z.of_nat n) * (1 # 2).
Proof.
  induction n as [|n IH]; intros i st st' H Hr key.
  - injection H as <-. setoid_replace (wget (adjustedWeights st) key
                                       - wget (adjustedWeights st) key) with 0 by ring.
    vm_compute. discriminate.
  - assert (Hn : inject_Z (Z.of_nat (S n)) == inject_Z (Z.of_nat n) + 1).
    { rewrite Nat2Z.inj_succ. unfold Z.succ. rewrite inject_Z_plus. reflexivity. }
    assert (Hn0 : 0 <= inject_Z (Z.of_nat n)).
    { change 0 with (inject_Z 0). rewrite <- Zle_Qle. lia. }
    cbn [learn_loop] in H. cbv zeta in H.
    destruct ((_ <? 26)%Z || _)%bool.
    + injection H as <-. cbn [adjustedWeights].
      setoid_replace (wget (adjustedWeights st) key
                      - wget (adjustedWeights st) key) with 0 by ring.
      rewrite Hn. change (Qabs 0) with 0. lra.
    + destruct (learner_trial data i st) as [st1|] eqn:E; [|discriminate].
      destruct (learner_trial_step _ _ _ _ E) as (p & isHit & Ew & _ & _).
      assert (Hr1 : in_range (adjustedWeights st1))
        by (rewrite Ew; apply adjust_weights_in_range; exact Hr).
      pose proof (IH _ _ _ H Hr1 key) as H1.
      pose proof (adjust_weights_step_size p isHit (adjustedWeights st) key (Hr key)) as H2.
      rewrite <- Ew in H2.
      apply Qabs_Qle_condition in H1. apply Qabs_Qle_condition.
      rewrite Hn. destruct isHit; split; lra.
Qed.

(** ** Whole-number outputs *)

Lemma normalize_weights_whole (w : Weights) : whole (normalize_weights w).
Proof.
  intro k. unfold normalize_weights. rewrite for_keys_get.
  destruct (round_whole (wget w k * (TARGET_TOTAL_WEIGHT / wtotal w))) as [z ->].
  exists z. reflexivity.
Qed.

Lemma correct_sum_in_whole (keys : list Key) (w : Weights) :
  whole w -> whole (correct_sum_in keys w).
Proof.
  intro H. unfold correct_sum_in.
  destruct (Qeq_bool (TARGET_TOTAL_WEIGHT - wtotal w) 0); [exact H|].
  destruct keys as [|first others]; [exact H|].
  destruct (H OBV) as [z1 E1], (H STOCH) as [z2 E2],
           (H OI_PROXY) as [z3 E3], (H MACD) as [z4 E4].
  assert (Hc : TARGET_TOTAL_WEIGHT - wtotal w
               == inject_Z (85 - (z1 + z2 + z3 + z4))).
  { rewrite (wtotal_sum w). cbn [wget] in E1, E2, E3, E4.
    unfold TARGET_TOTAL_WEIGHT, OBI_WEIGHT. rewrite E1, E2, E3, E4.
    unfold Z.sub. rewrite !inject_Z_plus, inject_Z_opp, !inject_Z_plus.
    change (inject_Z 85) with 85. ring. }
  revert Hc. generalize (TARGET_TOTAL_WEIGHT - wtotal w). intros corr Hc k.
  destruct w as [a b c d]. cbn [wget wOBV wSTOCH wOI_PROXY wMACD] in E1, E2, E3, E4.
  destruct first, k; cbn [wset wget wOBV wSTOCH wOI_PROXY wMACD];
    try (eexists; eassumption);
    match goal with
    | E : ?x == inject_Z ?z |- exists _, ?x + corr == _ =>
        exists (z + (85 - (z1 + z2 + z3 + z4)))%Z;
        rewrite inject_Z_plus, <- Hc, <- E; reflexivity
    end.
Qed.


(** ** Flat outcomes *)

Lemma Direction_eqb_eq (a b : Direction) : Direction_eqb a b = true <-> a = b.
Proof. destruct a, b; simpl; split; intro H; try reflexivity; discriminate. Qed.

Lemma prediction_not_flat
    (obvPctChange stochK macdHist volumePressure obiPct : JS.num) (w : Weights) :
  prediction (generatePrediction obvPctChange stochK macdHist volumePressure obiPct w)
  <> FLAT.
Proof.
  destruct (generatePrediction_shape obvPctChange stochK macdHist volumePressure
              obiPct w) as (a & b & c & d & e & -> & _).
  cbn [prediction]. destruct (Qle_bool 0 _); discriminate.
Qed.

Lemma trial_prediction_not_flat (data : list Candle) (predictIndex : Z)
    (predictCandle : Candle) (w : Weights) :
  prediction (trial_prediction data predictIndex predictCandle w) <> FLAT.
Proof. unfold trial_prediction. cbv zeta. apply prediction_not_flat. Qed.

Lemma actual_direction_flat (pc oc : Candle) :
  close oc == close pc -> actual_direction pc oc = FLAT.
Proof.
  intro E. unfold actual_direction.
  replace (JS.Qlt_bool 0 (close oc - close pc)) with false
    by (symmetry; apply Qlt_bool_false_iff; lra).
  replace (JS.Qlt_bool (close oc - close pc) 0) with false
    by (symmetry; apply Qlt_bool_false_iff; lra).
  reflexivity.
Qed.

Lemma for_keys_id (w : Weights) : for_keys (fun _ v => v) w = w.
Proof. destruct w. reflexivity. Qed.

(** ** The scan never reports *)

Lemma scan_locals_gate_closed (data : list Candle) (orderBook : option Book)
    (w : Weights) :
  (LOOKBACK_PERIOD - 1 <= Z.of_nat (length data))%Z ->
  exists l, scan_locals data orderBook w = Some l
            /\ sl_current_atr l = None
            /\ sl_recentVolatilityRatio l = 0.
Proof.
  unfold LOOKBACK_PERIOD. intro Hlen.
  assert (Hatr : JS.get (calculate_atr data 14) (Z.of_nat (length data) - 2) = None).
  { apply get_past_end. rewrite calculate_atr_length by lia. lia. }
  unfold scan_locals.
  destruct (get_in_range data (Z.of_nat (length data) - 2)) as [current Hc]; [lia|].
  destruct (get_in_range data (Z.of_nat (length data) - 2 - 1)) as [previous Hp]; [lia|].
  cbv zeta. rewrite Hc, Hp, Hatr.
  eexists. split; [reflexivity|].
  cbn [sl_current_atr sl_recentVolatilityRatio]. split; reflexivity.
Qed.

Lemma processSymbolForScan_none (symbol : string) (w : Weights)
    (fetchBinanceData : Fetched (list Candle))
    (fetchOrderBookData : Fetched (option Book)) :
  processSymbolForScan symbol w fetchBinanceData fetchOrderBookData = None.
Proof.
  unfold processSymbolForScan.
  destruct fetchBinanceData as [data|m]; [|reflexivity].
  destruct (Z.of_nat (length data) <? LOOKBACK_PERIOD - 1)%Z eqn:G; [reflexivity|].
  apply Z.ltb_ge in G.
  destruct fetchOrderBookData as [orderBook|m]; [|reflexivity].
  destruct (scan_locals_gate_closed data orderBook w G) as (l & Hl & _ & Hr).
  rewrite Hl, Hr, andb_false_r. reflexivity.
Qed.

(** ** Sweep: counters, termination, any limit *)

Section SweepFacts.

Import Scheduler.
Context {R : Type}.
Implicit Types (tasks : list (Outcome R)) (s : State R).

Lemma invariant_counters tasks (limit : nat) s :
  invariant tasks limit s ->
  (completed s + in_flight s = next s)%nat
  /\ (next s <= length tasks)%nat
  /\ (length (results s) <= completed s)%nat.
Proof.
  intros (settled & Hperm & Hnext & Hcomp & Hres & _ & _).
  apply Permutation_length in Hperm.
  rewrite length_app, length_seq in Hperm.
  split; [unfold in_flight; lia|]. split; [exact Hnext|].
  rewrite Hres, Hcomp. clear.
  induction settled as [|i settled IH]; [apply Nat.le_refl|].
  cbn [flat_map]. rewrite length_app. cbn [length].
  assert (length (result_of tasks i) <= 1)%nat.
  { unfold result_of. destruct (nth_error tasks i) as [[[r|]|]|]; simpl; lia. }
  lia.
Qed.

Lemma in_flight_any_limit tasks (limit : nat) s :
  reachable tasks limit s ->
  (in_flight s <= Nat.max limit 1)%nat
  /\ (main s = Running -> in_flight s < Nat.max limit 1)%nat.
Proof.
  unfold in_flight.
  induction 1 as [|s s' _ [IH1 IH2] Hstep]; [simpl; split; lia|].
  destruct Hstep as [s Hrun | s i o Hin Hnth].
  - specialize (IH2 Hrun). unfold launch.
    destruct (nth_error tasks (next s)); cbn [active main].
    + rewrite length_app. cbn [length].
      destruct (Nat.leb_spec limit (length (active s) + 1)); split;
        try discriminate; lia.
    + split; [lia|]. destruct (active s); discriminate.
  - pose proof (delete_shorter i (active s) Hin) as Hs.
    unfold settle. cbn [active main]. split; [lia|]. intros _. lia.
Qed.

End SweepFacts.

(** ** Strings *)

Lemma prefix_iff (a s : string) :
  String.prefix a s = true <-> exists b, s = (a ++ b)%string.
Proof.
  revert s. induction a as [|c a IH]; intro s.
  - split; [intros _; exists s; reflexivity|intros _; destruct s; reflexivity].
  - destruct s as [|d s]; cbn [String.prefix].
    + split; [discriminate|intros [b Hb]; discriminate].
    + destruct (Ascii.ascii_dec c d) as [->|Hne].
      * rewrite IH. split; intros [b Hb]; exists b.
        -- simpl. now rewrite Hb.
        -- simpl in Hb. now injection Hb.
      * split; [discriminate|]. intros [b Hb]. simpl in Hb. injection Hb as -> _.
        contradiction Hne. reflexivity.
Qed.

Lemma includes_iff (search s : string) :
  includes search s = true <-> exists a b, s = (a ++ search ++ b)%string.
Proof.
  induction s as [|c s IH]; cbn [includes]; rewrite orb_true_iff, prefix_iff.
  - split.
    + intros [[b Hb]|H]; [exists ""%string, b; exact Hb|discriminate].
    + intros (a & b & H). left.
      destruct a; [exists b; exact H|discriminate].
  - rewrite IH. split.
    + intros [[b Hb]|(a & b & Hab)].
      * exists ""%string, b. exact Hb.
      * exists (String c a), b. simpl. now rewrite Hab.
    + intros (a & b & H). destruct a as [|d a].
      * left. exists b. exact H.
      * right. simpl in H. injection H as _ H. exists a, b. exact H.
Qed.

Lemma substring_skip (a b : string) :
  String.substring (String.length a) (String.length b) (a ++ b) = b.
Proof.
  induction a as [|c a IH]; simpl; [|exact IH].
  induction b as [|d b IHb]; simpl; [reflexivity|now rewrite IHb].
Qed.

Lemma length_append (a b : string) :
  String.length (a ++ b) = (String.length a + String.length b)%nat.
Proof. induction a as [|c a IH]; simpl; [reflexivity|now rewrite IH]. Qed.

Lemma substring_all (s : string) : String.substring 0 (String.length s) s = s.
Proof. induction s as [|c s IH]; simpl; [reflexivity|now rewrite IH]. Qed.

Lemma substring_split (n m : nat) (s : string) :
  (n + m = String.length s)%nat ->
  s = (String.substring 0 n s ++ String.substring n m s)%string.
Proof.
  revert s m. induction n as [|n IH]; intros s m H.
  - simpl in H. subst m.
    replace (String.substring 0 0 s) with ""%string by (destruct s; reflexivity).
    simpl. symmetry. apply substring_all.
  - destruct s as [|c s]; [discriminate|]. simpl in H |- *.
    f_equal. apply IH. lia.
Qed.

Lemma endsWith_iff (s suffix : string) :
  endsWith s suffix = true <-> exists a, s = (a ++ suffix)%string.
Proof.
  unfold endsWith. rewrite andb_true_iff, Nat.leb_le, String.eqb_eq. split.
  - intros [Hle E].
    exists (String.substring 0 (String.length s - String.length suffix) s).
    rewrite <- E at 2. apply substring_split. lia.
  - intros [a ->]. rewrite length_append. split; [lia|].
    replace (String.length a + String.length suffix - String.length suffix)%nat
      with (String.length a) by lia.
    apply substring_skip.
Qed.

(** ** Stable sort *)

Section Sorting.

Context {A : Type} (compare : A -> A -> Q) (R : A -> A -> Prop) (P : A -> Prop).
Hypothesis R_trans : forall x y z, R x y -> R y z -> R x z.
Hypothesis compare_after :
  forall x y, P x -> P y -> JS.Qlt_bool 0 (compare x y) = true -> R y x.
Hypothesis compare_before :
  forall x y, P x -> P y -> JS.Qlt_bool 0 (compare x y) = false -> R x y.

Lemma sort_insert_perm (x : A) (l : list A) :
  Permutation (sort_insert compare x l) (x :: l).
Proof.
  induction l as [|y l IH]; simpl; [reflexivity|].
  destruct (JS.Qlt_bool 0 (compare x y)); [|reflexivity].
  rewrite IH. apply perm_swap.
Qed.

Lemma sort_by_perm (l : list A) : Permutation (sort_by compare l) l.
Proof.
  induction l as [|x l IH]; simpl; [reflexivity|].
  rewrite sort_insert_perm. now constructor.
Qed.

Lemma sort_insert_sorted (x : A) (l : list A) :
  P x -> Forall P l ->
  StronglySorted R l -> StronglySorted R (sort_insert compare x l).
Proof.
  intros Px Pl Hs. induction Hs as [|y l Hs IH Hy]; simpl.
  - constructor; constructor.
  - inversion Pl as [|? ? Py Pl']; subst.
    destruct (JS.Qlt_bool 0 (compare x y)) eqn:E.
    + constructor; [apply IH; exact Pl'|].
      apply Forall_forall. intros z Hz.
      apply (Permutation_in _ (sort_insert_perm x l)) in Hz.
      destruct Hz as [<-|Hz]; [apply compare_after; assumption|].
      rewrite Forall_forall in Hy. apply Hy, Hz.
    + pose proof (compare_before _ _ Px Py E) as Hxy.
      constructor; [constructor; assumption|].
      constructor; [exact Hxy|].
      eapply Forall_impl; [|exact Hy]. intros z Hz. eapply R_trans; eassumption.
Qed.

Lemma sort_by_sorted (l : list A) :
  Forall P l -> StronglySorted R (sort_by compare l).
Proof.
  induction 1 as [|x l Px Pl IH]; simpl; [constructor|].
  apply sort_insert_sorted; [exact Px| |exact IH].
  apply Forall_forall. intros y Hy.
  apply (Permutation_in _ (sort_by_perm l)) in Hy.
  rewrite Forall_forall in Pl. apply Pl, Hy.
Qed.

End Sorting.

Lemma StronglySorted_filter {A} (R : A -> A -> Prop) (f : A -> bool) (l : list A) :
  StronglySorted R l -> StronglySorted R (filter f l).
Proof.
  induction 1 as [|x l Hs IH Hx]; simpl; [constructor|].
  destruct (f x); [|exact IH].
  constructor; [exact IH|].
  apply Forall_forall. intros y Hy. apply filter_In in Hy.
  rewrite Forall_forall in Hx. apply Hx, Hy.
Qed.

Lemma StronglySorted_app {A} (R : A -> A -> Prop) (l1 l2 : list A) :
  StronglySorted R (l1 ++ l2) ->
  StronglySorted R l1 /\ forall a b, In a l1 -> In b l2 -> R a b.
Proof.
  induction l1 as [|x l1 IH]; simpl; intro H.
  - split; [constructor|intros a b []].
  - inversion H as [|? ? Hs Hx]; subst. destruct (IH Hs) as [H1 H2].
    apply Forall_app in Hx. destruct Hx as [Hx1 Hx2].
    split; [constructor; assumption|].
    intros a b [<-|Ha] Hb; [|apply H2; assumption].
    rewrite Forall_forall in Hx2. apply Hx2, Hb.
Qed.

(** [a.slice(0, n)] for [n >= 0] keeps the first [n] elements. *)
Lemma slice_prefix {A} (l : list A) (n : Z) :
  (0 <= n)%Z -> JS.slice l 0 n = firstn (Z.to_nat n) l.
Proof.
  intro Hn. unfold JS.slice, JS.rel_index. cbn [Z.ltb Z.compare].
  replace (n <? 0)%Z with false by (symmetry; apply Z.ltb_ge; exact Hn).
  rewrite (Z.min_l 0) by lia. rewrite Z.sub_0_r. cbn [Z.to_nat skipn].
  destruct (Z.le_ge_cases n (Z.of_nat (length l))) as [H|H].
  - rewrite Z.min_l by exact H. reflexivity.
  - rewrite Z.min_r by lia. rewrite Nat2Z.id.
    rewrite firstn_all. symmetry. apply firstn_all2. lia.
Qed.

Lemma StronglySorted_firstn {A} (R : A -> A -> Prop) (n : nat) (l : list A) :
  StronglySorted R l -> StronglySorted R (firstn n l).
Proof.
  intro H. rewrite <- (firstn_skipn n l) in H.
  apply StronglySorted_app in H. tauto.
Qed.

Lemma Permutation_filter {A} (f : A -> bool) (l l' : list A) :
  Permutation l l' -> Permutation (filter f l) (filter f l').
Proof.
  induction 1 as [|x l l' _ IH|x y l|l l' l'' _ IH1 _ IH2]; simpl.
  - constructor.
  - destruct (f x); [constructor|]; exact IH.
  - destruct (f x), (f y); try reflexivity. apply perm_swap.
  - etransitivity; eassumption.
Qed.

(** ** Universe listing *)

Lemma usdtPairs_iff (tickers : list Ticker) (t : Ticker) :
  In t (usdtPairs tickers) <-> In t tickers /\ qualifies t.
Proof.
  unfold usdtPairs, qualifies. rewrite filter_In, !andb_true_iff, !negb_true_iff.
  rewrite endsWith_iff.
  rewrite <- !not_true_iff_false, !includes_iff.
  assert (Hv : JS.gt (t_quoteVolume t) 1000 = true
               <-> exists v, t_quoteVolume t = Some v /\ 1000 < v).
  { unfold JS.gt. destruct (t_quoteVolume t) as [v|].
    - rewrite Qlt_bool_iff. split; [intro H; exists v; auto|].
      intros (v' & E & H). injection E as <-. exact H.
    - split; [discriminate|]. intros (v & E & _). discriminate. }
  rewrite Hv. tauto.
Qed.

Lemma usdtPairs_volume (tickers : list Ticker) :
  Forall (fun t => exists v, t_quoteVolume t = Some v) (usdtPairs tickers).
Proof.
  apply Forall_forall. intros t Ht. apply usdtPairs_iff in Ht.
  destruct Ht as (_ & _ & _ & _ & v & E & _). exists v. exact E.
Qed.

Lemma topSymbols_ranked (tickers : list Ticker) (limit : Z) :
  (0 <= limit)%Z ->
  exists top rest,
    topSymbols tickers limit = map t_symbol top
    /\ Permutation (top ++ rest) (usdtPairs tickers)
    /\ length top = Nat.min (Z.to_nat limit) (length (usdtPairs tickers))
    /\ StronglySorted (fun a b => volume_of b <= volume_of a) top
    /\ (forall a b, In a top -> In b rest -> volume_of b <= volume_of a).
Proof.
  intro Hl. unfold topSymbols. cbv zeta.
  set (sorted := sort_by by_volume_desc (usdtPairs tickers)).
  assert (Hp : Permutation sorted (usdtPairs tickers)) by apply sort_by_perm.
  assert (Hs : StronglySorted (fun a b => volume_of b <= volume_of a) sorted).
  { apply (sort_by_sorted by_volume_desc _
             (fun t => exists v, t_quoteVolume t = Some v)).
    - intros x y z Hxy Hyz. eapply Qle_trans; eassumption.
    - intros x y [vx Ex] [vy Ey]. unfold by_volume_desc, volume_of.
      rewrite Ex, Ey, Qlt_bool_iff. lra.
    - intros x y [vx Ex] [vy Ey]. unfold by_volume_desc, volume_of.
      rewrite Ex, Ey, Qlt_bool_false_iff. lra.
    - apply usdtPairs_volume. }
  rewrite slice_prefix by exact Hl.
  exists (firstn (Z.to_nat limit) sorted), (skipn (Z.to_nat limit) sorted).
  split; [reflexivity|].
  split; [rewrite firstn_skipn; exact Hp|].
  split; [rewrite length_firstn, (Permutation_length Hp); reflexivity|].
  rewrite <- (firstn_skipn (Z.to_nat limit) sorted) in Hs.
  apply StronglySorted_app in Hs. exact Hs.
Qed.

(** ** Report ranking *)

Lemma sorted_by_score_desc (results : list ScanResult) :
  StronglySorted (fun a b => sr_score b <= sr_score a) (sort_by by_score_desc results).
Proof.
  apply (sort_by_sorted by_score_desc _ (fun _ => True)).
  - intros x y z Hxy Hyz. eapply Qle_trans; eassumption.
  - intros x y _ _. unfold by_score_desc. rewrite Qlt_bool_iff. lra.
  - intros x y _ _. unfold by_score_desc. rewrite Qlt_bool_false_iff. lra.
  - apply Forall_forall. intros; exact I.
Qed.

Lemma sorted_by_score_asc (results : list ScanResult) :
  StronglySorted (fun a b => sr_score a <= sr_score b) (sort_by by_score_asc results).
Proof.
  apply (sort_by_sorted by_score_asc _ (fun _ => True)).
  - intros x y z Hxy Hyz. eapply Qle_trans; eassumption.
  - intros x y _ _. unfold by_score_asc. rewrite Qlt_bool_iff. lra.
  - intros x y _ _. unfold by_score_asc. rewrite Qlt_bool_false_iff. lra.
  - apply Forall_forall. intros; exact I.
Qed.

Lemma topBullish_ranked (results : list ScanResult) :
  exists rest,
    Permutation (topBullish results ++ rest)
                (filter (fun r => JS.Qlt_bool 0 (sr_score r)) results)
    /\ (length (topBullish results) <= 5)%nat
    /\ length (topBullish results)
       = Nat.min 5 (length (filter (fun r => JS.Qlt_bool 0 (sr_score r)) results))
    /\ StronglySorted (fun a b => sr_score b <= sr_score a) (topBullish results)
    /\ (forall a b, In a (topBullish results) -> In b rest -> sr_score b <= sr_score a)
    /\ (forall r, In r (topBullish results) -> In r results /\ 0 < sr_score r).
Proof.
  unfold topBullish. cbv zeta. rewrite slice_prefix by lia.
  set (pos := filter (fun r => JS.Qlt_bool 0 (sr_score r))
                (sort_by by_score_desc results)).
  assert (Hs : StronglySorted (fun a b => sr_score b <= sr_score a) pos)
    by (apply StronglySorted_filter, sorted_by_score_desc).
  assert (Hp : Permutation pos (filter (fun r => JS.Qlt_bool 0 (sr_score r)) results))
    by (apply Permutation_filter, sort_by_perm).
  exists (skipn (Z.to_nat 5) pos).
  split; [rewrite firstn_skipn; exact Hp|].
  split; [apply firstn_le_length|].
  split; [rewrite length_firstn, (Permutation_length Hp); reflexivity|].
  rewrite <- (firstn_skipn (Z.to_nat 5) pos) in Hs.
  apply StronglySorted_app in Hs. destruct Hs as [Hs1 Hs2].
  split; [exact Hs1|]. split; [exact Hs2|].
  intros r Hr.
  assert (Hin : In r pos).
  { rewrite <- (firstn_skipn (Z.to_nat 5) pos). apply in_or_app. left. exact Hr. }
  apply (Permutation_in _ Hp), filter_In in Hin.
  rewrite Qlt_bool_iff in Hin. exact Hin.
Qed.

Lemma topBearish_ranked (results : list ScanResult) :
  exists rest,
    Permutation (topBearish results ++ rest)
                (filter (fun r => JS.Qlt_bool (sr_score r) 0) results)
    /\ (length (topBearish results) <= 5)%nat
    /\ length (topBearish results)
       = Nat.min 5 (length (filter (fun r => JS.Qlt_bool (sr_score r) 0) results))
    /\ StronglySorted (fun a b => sr_score a <= sr_score b) (topBearish results)
    /\ (forall a b, In a (topBearish results) -> In b rest -> sr_score a <= sr_score b)
    /\ (forall r, In r (topBearish results) -> In r results /\ sr_score r < 0).
Proof.
  unfold topBearish. cbv zeta. rewrite slice_prefix by lia.
  set (neg := sort_by by_score_asc
                (filter (fun r => JS.Qlt_bool (sr_score r) 0)
                   (sort_by by_score_desc results))).
  assert (Hs : StronglySorted (fun a b => sr_score a <= sr_score b) neg)
    by apply sorted_by_score_asc.
  assert (Hp : Permutation neg (filter (fun r => JS.Qlt_bool (sr_score r) 0) results)).
  { unfold neg. rewrite sort_by_perm. apply Permutation_filter, sort_by_perm. }
  exists (skipn (Z.to_nat 5) neg).
  split; [rewrite firstn_skipn; exact Hp|].
  split; [apply firstn_le_length|].
  split; [rewrite length_firstn, (Permutation_length Hp); reflexivity|].
  rewrite <- (firstn_skipn (Z.to_nat 5) neg) in Hs.
  apply StronglySorted_app in Hs. destruct Hs as [Hs1 Hs2].
  split; [exact Hs1|]. split; [exact Hs2|].
  intros r Hr.
  assert (Hin : In r neg).
  { rewrite <- (firstn_skipn (Z.to_nat 5) neg). apply in_or_app. left. exact Hr. }
  apply (Permutation_in _ Hp), filter_In in Hin.
  rewrite Qlt_bool_iff in Hin. exact Hin.
Qed.

(** ** Learning panel *)

Lemma has_iff (symbolsToScan : list string) (symbol : string) :
  has symbolsToScan symbol = true <-> In symbol symbolsToScan.
Proof.
  unfold has. rewrite existsb_exists. split.
  - intros (x & Hx & E). apply String.eqb_eq in E. now subst.
  - intro H. exists symbol. split; [exact H|apply String.eqb_refl].
Qed.

Lemma learningSymbols_panel (symbolsToScan : list string) :
  (forall sc, In sc (learningSymbols symbolsToScan) -> In (fst sc) symbolsToScan)
  /\ (length (learningSymbols symbolsToScan) <= 5)%nat
  /\ (learningSymbols symbolsToScan = [] <-> symbolsToScan = [])
  /\ NoDup (map fst (learningSymbols symbolsToScan))
  /\ (forall sc, In sc specificLearningSymbols -> In (fst sc) symbolsToScan ->
                 In sc (learningSymbols symbolsToScan)).
Proof.
  unfold learningSymbols. cbv zeta.
  set (found := filter (fun sc => has symbolsToScan (fst sc)) specificLearningSymbols).
  assert (Hf : forall sc, In sc found
                          <-> In sc specificLearningSymbols /\ In (fst sc) symbolsToScan).
  { intro sc. unfold found. rewrite filter_In, has_iff. reflexivity. }
  assert (Hlen : (length found <= 5)%nat)
    by (unfold found; apply (filter_length_le _ specificLearningSymbols)).
  assert (Hnd : NoDup (map fst found)).
  { unfold found, specificLearningSymbols. cbn [filter fst].
    destruct (has symbolsToScan "BTCUSDT"), (has symbolsToScan "AVAXUSDT"),
             (has symbolsToScan "XVGUSDT"), (has symbolsToScan "ROSEUSDT"),
             (has symbolsToScan "PHBUSDT"); cbn [map fst];
      repeat (constructor; [cbn [In]; intuition discriminate|]); constructor. }
  destruct found as [|sc0 found'] eqn:Ef.
  - destruct symbolsToScan as [|first rest].
    + repeat split; auto; try (intros sc []); try constructor; try lia.
    + cbn [app]. split; [intros sc [<-|[]]; left; reflexivity|].
      split; [cbn [length]; lia|]. split; [split; discriminate|].
      split; [repeat constructor; intros []|].
      intros sc Hs Hi. exfalso. apply (proj2 (Hf sc)). split; assumption.
  - rewrite <- Ef in *.
    split; [intros sc Hsc; apply Hf, Hsc|]. split; [exact Hlen|].
    split.
    { split; [rewrite Ef; discriminate|]. intros ->.
      exfalso. assert (Hin : In sc0 found) by (rewrite Ef; left; reflexivity).
      apply Hf in Hin. destruct Hin as [_ []]. }
    split; [exact Hnd|]. intros sc Hs Hi. apply Hf. split; assumption.
Qed.

(** The panel is the preset list cut down to the list to scan, or the
    fallback. *)
Lemma learningSymbols_exact (symbolsToScan : list string) :
  ((exists sc, In sc specificLearningSymbols /\ In (fst sc) symbolsToScan) ->
   exists keep : string * string -> bool,
     (forall sc, keep sc = true <-> In (fst sc) symbolsToScan)
     /\ learningSymbols symbolsToScan = filter keep specificLearningSymbols)
  /\ ((forall sc, In sc specificLearningSymbols -> ~ In (fst sc) symbolsToScan) ->
      learningSymbols symbolsToScan
      = match symbolsToScan with
        | [] => []
        | first :: _ => [(first, "Primary Fallback"%string)]
        end).
Proof.
  unfold learningSymbols. cbv zeta.
  set (keep := fun sc : string * string => has symbolsToScan (fst sc)).
  assert (Hk : forall sc, keep sc = true <-> In (fst sc) symbolsToScan)
    by (intro sc; apply has_iff).
  split.
  - intros (sc & Hs & Hi). exists keep. split; [exact Hk|].
    assert (Hin : In sc (filter keep specificLearningSymbols))
      by (apply filter_In; split; [exact Hs|apply Hk, Hi]).
    destruct (filter keep specificLearningSymbols) as [|x found];
      [destruct Hin|reflexivity].
  - intro Hnone.
    assert (E : filter keep specificLearningSymbols = []).
    { destruct (filter keep specificLearningSymbols) as [|x found] eqn:Ef;
        [reflexivity|]. exfalso.
      assert (Hin : In x (filter keep specificLearningSymbols))
        by (rewrite Ef; left; reflexivity).
      apply filter_In in Hin. destruct Hin as [Hs Hx].
      apply (Hnone x Hs), Hk, Hx. }
    rewrite E. destruct symbolsToScan; reflexivity.
Qed.

(** ** Aggregator on well-formed panels *)

Lemma round_ge_half (x : Q) (z : Z) :
  inject_Z z - (1 # 2) <= x -> inject_Z z <= JS.round x.
Proof.
  intro H. unfold JS.round. rewrite <- Zle_Qle.
  rewrite <- (Qfloor_Z z). apply Qfloor_resp_le. lra.
Qed.

Lemma target_is_85 : TARGET_TOTAL_WEIGHT == 85.
Proof. reflexivity. Qed.

(** One proportional rescaling with rounding, of weights of at least 5
    whose total is within 2 of the budget: the rounded weights are again at
    least 5 and their total is again within 2 of the budget. *)
Lemma rescale_step (v : Weights) (f : Q -> Q) :
  (forall x, f x == JS.round x \/ (JS.round x <= 5 /\ f x == 5)) ->
  (forall k, 5 <= wget v k) ->
  83 <= wtotal v <= 87 ->
  let r := for_keys (fun _ x => f (x * (TARGET_TOTAL_WEIGHT / wtotal v))) v in
  (forall k, 5 <= wget r k) /\ 83 <= wtotal r <= 87.
Proof.
  intros Hf Hv HT r.
  pose proof (wtotal_sum v) as Hs. pose proof (wtotal_sum r) as Hr.
  set (T := wtotal v) in *.
  set (g := TARGET_TOTAL_WEIGHT / T).
  assert (Hg : (85 # 87) <= g).
  { unfold g. rewrite target_is_85. apply Qle_shift_div_l; lra. }
  assert (HTg : (wOBV v + wSTOCH v + wOI_PROXY v + wMACD v) * g == 85).
  { rewrite <- Hs. unfold g. rewrite target_is_85. field. lra. }
  assert (Hx : forall k, 5 * g <= wget v k * g).
  { intro k. assert (0 <= (wget v k - 5) * g)
      by (apply Qmult_le_0_compat; [specialize (Hv k)|]; lra). lra. }
  assert (Hk : forall k, 5 <= wget r k
                         /\ wget v k * g - (1 # 2) < wget r k <= wget v k * g + (1 # 2)).
  { intro k. unfold r. rewrite for_keys_get. fold T. fold g.
    pose proof (round_near (wget v k * g)) as Hn.
    assert (H5 : 5 <= JS.round (wget v k * g)).
    { change 5 with (inject_Z 5). apply round_ge_half.
      change (inject_Z 5) with 5. specialize (Hx k). lra. }
    destruct (Hf (wget v k * g)) as [E|[Hle E]]; rewrite E; split; lra. }
  split; [intro k; apply Hk|].
  destruct (Hk OBV) as [_ H1], (Hk STOCH) as [_ H2],
           (Hk OI_PROXY) as [_ H3], (Hk MACD) as [_ H4].
  cbn [wget] in *. split; lra.
Qed.

Lemma round_or_floor (x : Q) :
  JS.round x == JS.round x \/ (JS.round x <= 5 /\ JS.round x == 5).
Proof. left. reflexivity. Qed.

Lemma max5_round_or_floor (x : Q) :
  Qmax 5 (JS.round x) == JS.round x \/ (JS.round x <= 5 /\ Qmax 5 (JS.round x) == 5).
Proof.
  destruct (Q.max_spec 5 (JS.round x)) as [[H E]|[H E]]; [left|right; split];
    assumption.
Qed.

(** The remainder correction touches the first key only. *)
Lemma correct_sum_in_keys (first : Key) (others : list Key) (w : Weights) :
  wget (correct_sum_in (first :: others) w) first == wget w first + (85 - wtotal w)
  /\ forall k, k <> first -> wget (correct_sum_in (first :: others) w) k = wget w k.
Proof.
  unfold correct_sum_in.
  destruct (Qeq_bool (TARGET_TOTAL_WEIGHT - wtotal w) 0) eqn:E.
  - apply Qeq_bool_eq in E. rewrite target_is_85 in E. split; [lra|reflexivity].
  - destruct w as [a b c d]. split.
    + destruct first; cbn [wset wget wOBV wSTOCH wOI_PROXY wMACD];
        rewrite target_is_85; reflexivity.
    + intros k Hk. destruct first, k; try contradiction; reflexivity.
Qed.

(** Under the budget, floors on the weights cap each of them. *)
Lemma budget_caps (first : Key) (w : Weights) :
  wtotal w == 85 -> 3 <= wget w first -> (forall k, k <> first -> 5 <= wget w k) ->
  forall k, wget w k <= 72.
Proof.
  intros Hs H3 H5. rewrite wtotal_sum in Hs.
  destruct w as [a b c d]. cbn [wget wOBV wSTOCH wOI_PROXY wMACD] in Hs.
  intro k.
  destruct first; cbn [wget wOBV wSTOCH wOI_PROXY wMACD] in H3;
    [ pose proof (H5 STOCH ltac:(discriminate)) as F1;
      pose proof (H5 OI_PROXY ltac:(discriminate)) as F2;
      pose proof (H5 MACD ltac:(discriminate)) as F3
    | pose proof (H5 OBV ltac:(discriminate)) as F1;
      pose proof (H5 OI_PROXY ltac:(discriminate)) as F2;
      pose proof (H5 MACD ltac:(discriminate)) as F3
    | pose proof (H5 OBV ltac:(discriminate)) as F1;
      pose proof (H5 STOCH ltac:(discriminate)) as F2;
      pose proof (H5 MACD ltac:(discriminate)) as F3
    | pose proof (H5 OBV ltac:(discriminate)) as F1;
      pose proof (H5 STOCH ltac:(discriminate)) as F2;
      pose proof (H5 OI_PROXY ltac:(discriminate)) as F3 ];
    cbn [wget wOBV wSTOCH wOI_PROXY wMACD] in F1, F2, F3; clear H5;
    destruct k; cbn [wget wOBV wSTOCH wOI_PROXY wMACD]; lra.
Qed.

(** The running sums of [averageWeights] over a panel of vectors in range
    that sum to the budget. *)
Lemma panel_sums (rs : list LearningOutcome) :
  Forall (fun r => in_range (weights r) /\ wtotal (weights r) == 85) rs ->
  forall (acc : Weights) (n : Q),
    (forall k, 5 * n <= wget acc k <= 100 * n) ->
    wtotal acc == 85 * n ->
    let S := fold_left
               (fun aw r => for_keys (fun key v => v + wget (weights r) key) aw)
               rs acc in
    let m := n + inject_Z (Z.of_nat (length rs)) in
    (forall k, 5 * m <= wget S k <= 100 * m) /\ wtotal S == 85 * m.
Proof.
  induction 1 as [|r rs [Hr Ht] _ IH]; intros acc n Hk HT; cbn [fold_left length].
  - cbv zeta. change (inject_Z (Z.of_nat 0)) with 0.
    split; [intro k; specialize (Hk k); lra|lra].
  - assert (E : n + inject_Z (Z.of_nat (S (length rs)))
                == (n + 1) + inject_Z (Z.of_nat (length rs))).
    { rewrite Nat2Z.inj_succ. unfold Z.succ. rewrite inject_Z_plus.
      change (inject_Z 1) with 1. ring. }
    cbv zeta.
    destruct (IH (for_keys (fun key v => v + wget (weights r) key) acc) (n + 1))
      as [H1 H2].
    + intro k. rewrite for_keys_get. specialize (Hk k). specialize (Hr k). lra.
    + rewrite wtotal_sum. rewrite wtotal_sum in HT, Ht.
      pose proof (for_keys_get (fun key v => v + wget (weights r) key) acc) as G.
      pose proof (G OBV) as G1. pose proof (G STOCH) as G2.
      pose proof (G OI_PROXY) as G3. pose proof (G MACD) as G4.
      cbn [wget] in G1, G2, G3, G4. rewrite G1, G2, G3, G4. lra.
    + cbv zeta in H1, H2. split; [intro k; specialize (H1 k); lra|lra].
Qed.

Lemma averageWeights_well_formed_aux (first : Key) (others : list Key)
    (rs : list LearningOutcome) :
  rs <> [] ->
  Forall (fun r => in_range (weights r) /\ wtotal (weights r) == 85) rs ->
  let out := fst (averageWeights_in (first :: others) rs) in
  wtotal out == 85
  /\ whole out
  /\ 3 <= wget out first
  /\ (forall k, k <> first -> 5 <= wget out k)
  /\ (forall k, wget out k <= 72).
Proof.
  intros Hne Hrs out. subst out. unfold averageWeights_in.
  rewrite (fold_left_pair
             (fun aw r => for_keys (fun key v => v + wget (weights r) key) aw)
             (fun ta r => JS.lift2 Qplus ta (parseFloat (accuracy r)))).
  cbn [fst].
  change (for_keys (fun (_ : Key) (_ : Q) => 0) (mkWeights 0 0 0 0))
    with (mkWeights 0 0 0 0).
  set (S := fold_left _ rs (mkWeights 0 0 0 0)).
  set (count := inject_Z (Z.of_nat (length rs))).
  assert (Hc : 1 <= count).
  { unfold count. change 1 with (inject_Z 1). rewrite <- Zle_Qle.
    destruct rs; [contradiction|cbn [length]; lia]. }
  destruct (panel_sums rs Hrs (mkWeights 0 0 0 0) 0) as [HS HST].
  { intros [| | |]; cbn; split; lra. }
  { reflexivity. }
  cbv zeta in HS, HST. fold S in HS, HST. fold count in HS, HST.
  (* the rounded means *)
  set (a := for_keys (fun _ v => JS.round (v / count)) S).
  assert (Ha : (forall k, 5 <= wget a k) /\ 83 <= wtotal a <= 87).
  { assert (Hk : forall k, 5 <= wget a k
                           /\ wget S k / count - (1 # 2) < wget a k
                              <= wget S k / count + (1 # 2)).
    { intro k. unfold a. rewrite for_keys_get.
      pose proof (round_near (wget S k / count)) as Hn.
      split; [|exact Hn].
      change 5 with (inject_Z 5). apply round_ge_half. change (inject_Z 5) with 5.
      assert (5 <= wget S k / count)
        by (apply Qle_shift_div_l; [lra|specialize (HS k); lra]).
      lra. }
    split; [intro k; apply Hk|].
    assert (Hsum : wOBV S / count + wSTOCH S / count + wOI_PROXY S / count
                   + wMACD S / count == 85).
    { rewrite wtotal_sum in HST.
      setoid_replace (wOBV S / count + wSTOCH S / count + wOI_PROXY S / count
                      + wMACD S / count)
        with ((wOBV S + wSTOCH S + wOI_PROXY S + wMACD S) / count) by (field; lra).
      rewrite HST. field. lra. }
    rewrite wtotal_sum.
    destruct (Hk OBV) as [_ H1], (Hk STOCH) as [_ H2],
             (Hk OI_PROXY) as [_ H3], (Hk MACD) as [_ H4].
    cbn [wget] in *. split; lra. }
  destruct Ha as [Ha1 Ha2].
  destruct (rescale_step a (fun x => Qmax 5 (JS.round x)) max5_round_or_floor Ha1 Ha2)
    as [Hb1 Hb2].
  cbv zeta in Hb1, Hb2.
  set (b := for_keys (fun _ v => Qmax 5 (JS.round (v * (TARGET_TOTAL_WEIGHT / wtotal a)))) a)
    in *.
  destruct (rescale_step b JS.round round_or_floor Hb1 Hb2) as [Hc1 Hc2].
  cbv zeta in Hc1, Hc2.
  set (c := for_keys (fun _ v => JS.round (v * (TARGET_TOTAL_WEIGHT / wtotal b))) b) in *.
  assert (Hw : whole c).
  { intro k. unfold c. rewrite for_keys_get. eexists. reflexivity. }
  pose proof (correct_sum_in_total first others c) as Hsum.
  pose proof (correct_sum_in_whole (first :: others) c Hw) as Hwhole.
  pose proof (correct_sum_in_keys first others c) as Hk.
  destruct Hk as [Ho Hrest].
  assert (L3 : 3 <= wget (correct_sum_in (first :: others) c) first)
    by (specialize (Hc1 first); lra).
  assert (L5 : forall k, k <> first -> 5 <= wget (correct_sum_in (first :: others) c) k)
    by (intros k Hk; rewrite (Hrest k Hk); apply Hc1).
  split; [exact Hsum|]. split; [exact Hwhole|]. split; [exact L3|].
  split; [exact L5|].
  apply (budget_caps first); assumption.
Qed.

(* ===================================================================== *)
(** * Further properties of the code *)
(* ===================================================================== *)

(** ** Indicators *)

(** X1: the EMA, MACD-histogram, OBV and Stochastic arrays have one entry
    per input element, so every candle index reads a value in them. *)
Theorem indicator_arrays_align (data : list Candle) (values : list Q) (window : Q) :
  length (calculate_ema values window) = length values
  /\ length (calculate_macd data) = length data
  /\ length (calculate_obv data) = length data
  /\ length (calculate_stochastic data) = length data
  /\ forall i, (0 <= i < Z.of_nat (length data))%Z ->
       (exists m, JS.get (calculate_macd data) i = Some m)
       /\ (exists o, JS.get (calculate_obv data) i = Some o)
       /\ (exists k, JS.get (calculate_stochastic data) i = Some k).
Proof.
  pose proof (calculate_macd_with_length data 12 26 9) as Hm.
  pose proof (calculate_obv_length data) as Ho.
  pose proof (calculate_stochastic_with_length data 14) as Hs.
  fold (calculate_macd data) in Hm. fold (calculate_stochastic data) in Hs.
  split; [apply ema_loop_length|].
  split; [exact Hm|]. split; [exact Ho|]. split; [exact Hs|].
  intros i Hi. repeat split; apply get_in_range; lia.
Qed.

(** X2: for a window of at least 1, every EMA value lies between any two
    bounds that enclose the input values, and the first EMA value is the
    first input value. *)
Theorem calculate_ema_between (data : list Q) (window lo hi : Q) :
  1 <= window ->
  Forall (fun x => lo <= x <= hi) data ->
  Forall (fun x => lo <= x <= hi) (calculate_ema data window)
  /\ (forall x rest, data = x :: rest -> hd 0 (calculate_ema data window) == x).
Proof.
  intros Hw Hd. split; [apply calculate_ema_range; assumption|].
  intros x rest ->. unfold calculate_ema. cbn [ema_loop hd].
  change (0 + 1)%Z with 1%Z. rewrite slice_first.
  unfold JS.sum. cbn [fold_left]. change (inject_Z 1) with 1. field.
Qed.

Lemma calculate_ema_between_witness :
  Forall (fun x => 2 <= x <= 8) (calculate_ema [2; 4; 8] 3)
  /\ (forall x rest, [2; 4; 8] = x :: rest -> hd 0 (calculate_ema [2; 4; 8] 3) == x).
Proof.
  apply (calculate_ema_between [2; 4; 8] 3 2 8).
  - vm_compute. discriminate.
  - repeat constructor; vm_compute; discriminate.
Defined.

(** X3: while the close does not change, OBV stays at the volume of the
    first candle. *)
Theorem calculate_obv_flat_closes (p : Q) (c0 : Candle) (rest : list Candle) :
  Forall (fun c => close c == p) (c0 :: rest) ->
  calculate_obv (c0 :: rest) = repeat (volume c0) (length (c0 :: rest)).
Proof. apply calculate_obv_still. Qed.

Lemma calculate_obv_flat_closes_witness :
  calculate_obv (flat_candle 0 :: [flat_candle 1; flat_candle 2])
  = repeat (volume (flat_candle 0)) (length (flat_candle 0 :: [flat_candle 1; flat_candle 2])).
Proof.
  apply (calculate_obv_flat_closes 1).
  repeat constructor.
Defined.

(** X4: when every candle closes within its range, every Stochastic %K
    value lies in [0, 100]; before the first full window of 14 candles the
    value is 50. *)
Theorem calculate_stochastic_in_range (data : list Candle) :
  Forall well_formed data ->
  Forall (fun k => 0 <= k <= 100) (calculate_stochastic data)
  /\ forall i k, (i < 13)%Z -> JS.get (calculate_stochastic data) i = Some k -> k = 50.
Proof.
  intro H. split; [apply calculate_stochastic_range, H|].
  intros i k. apply calculate_stochastic_warm_up_values.
Qed.

Lemma calculate_stochastic_in_range_witness :
  Forall (fun k => 0 <= k <= 100) (calculate_stochastic candles16)
  /\ forall i k, (i < 13)%Z -> JS.get (calculate_stochastic candles16) i = Some k -> k = 50.
Proof.
  apply (calculate_stochastic_in_range candles16).
  repeat constructor; vm_compute; discriminate.
Defined.

(** X5: for a window of at least 1, no entry of the array returned by
    [calculate_atr] is negative, whatever the candles are. *)
Theorem calculate_atr_never_negative (data : list Candle) (window : nat) :
  (1 <= window)%nat ->
  Forall (fun x => 0 <= x) (calculate_atr data window).
Proof. apply calculate_atr_nonneg. Qed.

Lemma calculate_atr_never_negative_witness :
  Forall (fun x => 0 <= x) (calculate_atr candles16 14).
Proof. apply (calculate_atr_never_negative candles16 14). lia. Defined.

(** X6: for a candle that closes within its range the volume pressure lies
    in [-100, 100]; with a range of at least 1e-6 it is 100 for a close at
    the high and -100 for a close at the low. *)
Theorem calculate_volume_pressure_in_range (c : Candle) :
  well_formed c ->
  -100 <= calculate_volume_pressure c <= 100
  /\ (EPSILON <= high c - low c ->
      (close c == high c -> calculate_volume_pressure c == 100)
      /\ (close c == low c -> calculate_volume_pressure c == -100)).
Proof.
  intro H. split; [apply calculate_volume_pressure_range, H|].
  apply calculate_volume_pressure_extremes.
Qed.

Lemma calculate_volume_pressure_in_range_witness :
  -100 <= calculate_volume_pressure (flat_candle 0) <= 100
  /\ (EPSILON <= high (flat_candle 0) - low (flat_candle 0) ->
      (close (flat_candle 0) == high (flat_candle 0) ->
       calculate_volume_pressure (flat_candle 0) == 100)
      /\ (close (flat_candle 0) == low (flat_candle 0) ->
          calculate_volume_pressure (flat_candle 0) == -100)).
Proof.
  apply (calculate_volume_pressure_in_range (flat_candle 0)).
  split; vm_compute; discriminate.
Defined.

(** X7: for a book whose sizes are not negative and whose ask side is no
    deeper than its bid side, the imbalance lies in [0, 100]. *)
Theorem depth_weighted_imbalance_in_range (bs as_ : list Level) :
  (length as_ <= length bs)%nat ->
  Forall (fun l => 0 <= snd l) bs ->
  Forall (fun l => 0 <= snd l) as_ ->
  0 <= calculate_depth_weighted_imbalance (Some (mkBook (Some bs) (Some as_))) <= 100.
Proof. apply depth_weighted_imbalance_range_aux. Qed.

Lemma depth_weighted_imbalance_in_range_witness :
  0 <= calculate_depth_weighted_imbalance
         (Some (mkBook (Some [(100, 10); (99, 5)]) (Some [(101, 1)]))) <= 100.
Proof.
  apply (depth_weighted_imbalance_in_range [(100, 10); (99, 5)] [(101, 1)]).
  - simpl. lia.
  - repeat constructor; vm_compute; discriminate.
  - repeat constructor; vm_compute; discriminate.
Defined.

(** ** Prediction engine *)

(** X8: with weights that are not negative, each contribution of
    [generatePrediction] is bounded by its weight (15 for the order book),
    the net score by the total of the weights plus 15, and the confidence
    lies in [0, 100]; when the four weights total at most 85 the cap of 100
    never cuts, so the confidence is the absolute net score. *)
Theorem generatePrediction_bounds
    (obvPctChange stochK macdHist volumePressure obiPct : JS.num) (w : Weights) :
  (forall k, 0 <= wget w k) ->
  let p := generatePrediction obvPctChange stochK macdHist volumePressure obiPct w in
  (forall k, Qabs (cget (componentScores p) k) <= wget w k)
  /\ Qabs (cOBI (componentScores p)) <= 15
  /\ Qabs (score p) <= wtotal w + 15
  /\ 0 <= confidence p <= 100
  /\ (wtotal w <= 85 -> confidence p == Qabs (score p)).
Proof. apply generatePrediction_bounds_aux. Qed.

Lemma generatePrediction_bounds_witness :
  let p := generatePrediction (Some 2) (Some 10) None (Some (-60)) (Some 50)
             CURRENT_WEIGHTS in
  (forall k, Qabs (cget (componentScores p) k) <= wget CURRENT_WEIGHTS k)
  /\ Qabs (cOBI (componentScores p)) <= 15
  /\ Qabs (score p) <= wtotal CURRENT_WEIGHTS + 15
  /\ 0 <= confidence p <= 100
  /\ (wtotal CURRENT_WEIGHTS <= 85 -> confidence p == Qabs (score p)).
Proof.
  apply (generatePrediction_bounds (Some 2) (Some 10) None (Some (-60)) (Some 50)
           CURRENT_WEIGHTS).
  intros [| | |]; vm_compute; discriminate.
Defined.

(** ** Learner *)

Lemma in_range_check (a b c d : Q) :
  (Qle_bool 5 a && Qle_bool a 100 && Qle_bool 5 b && Qle_bool b 100
   && Qle_bool 5 c && Qle_bool c 100 && Qle_bool 5 d && Qle_bool d 100 = true)%bool ->
  in_range (mkWeights a b c d).
Proof.
  intro H. repeat (apply andb_true_iff in H; destruct H as [H ?]).
  intros [| | |]; cbn [wget wOBV wSTOCH wOI_PROXY wMACD];
    split; apply Qle_bool_iff; assumption.
Qed.

Lemma in_range_default : in_range CURRENT_WEIGHTS.
Proof. apply in_range_check. reflexivity. Qed.

(** The run of the learner past its length guard. *)
Lemma learn_in_run (first : Key) (others : list Key) (data : list Candle)
    (w : Weights) :
  (LOOKBACK_PERIOD <= Z.of_nat (length data))%Z ->
  in_range w ->
  exists st out v,
    learn_in (first :: others) data w = Some (st, out)
    /\ calculate_and_adjust_weights_in (first :: others) data w = Some out
    /\ in_range (adjustedWeights st)
    /\ (forall key, Qabs (wget (adjustedWeights st) key - wget w key) <= 25)
    /\ 20 <= wtotal (adjustedWeights st)
    /\ wtotal (weights out) == 85
    /\ whole (weights out)
    /\ accuracy out = Pct v /\ 0 <= v <= 100.
Proof.
  intros Hlen Hw.
  destruct (learn_loop_trials data (Z.to_nat LEARNING_TRADE_COUNT) 0
              (mkLearn w 0 LEARNING_TRADE_COUNT))
    as (st & E & T & Hh); try reflexivity; try lia.
  cbn [hits] in Hh.
  pose proof (learn_loop_keeps _ _ _ _ _ E Hw) as Hr.
  pose proof (learn_loop_drift _ _ _ _ _ E Hw) as Hd.
  cbn [adjustedWeights] in Hd.
  assert (Hacc : (0 <= hits st <= totalTrades st)%Z).
  { unfold LOOKBACK_PERIOD in Hlen. unfold LEARNING_TRADE_COUNT in T, Hh. lia. }
  destruct (accuracy_of_range st Hacc) as (v & Ev & Hv).
  exists st, (mkOutcome (correct_sum_in (first :: others)
                           (normalize_weights (adjustedWeights st)))
                        (accuracy_of st)), v.
  assert (El : learn_in (first :: others) data w
               = Some (st, mkOutcome (correct_sum_in (first :: others)
                                        (normalize_weights (adjustedWeights st)))
                                     (accuracy_of st))).
  { unfold learn_in. rewrite E. reflexivity. }
  split; [exact El|].
  split.
  { unfold calculate_and_adjust_weights_in.
    replace (Z.of_nat (length data) <? LOOKBACK_PERIOD)%Z with false
      by (symmetry; apply Z.ltb_ge; exact Hlen).
    rewrite El. reflexivity. }
  split; [exact Hr|].
  split.
  { intro key. eapply Qle_trans; [exact (Hd key)|]. vm_compute. discriminate. }
  split; [apply in_range_total, Hr|].
  cbn [weights accuracy].
  split; [apply correct_sum_in_total|].
  split; [apply correct_sum_in_whole, normalize_weights_whole|].
  split; assumption.
Qed.

Lemma learn_run (data : list Candle) (w : Weights) :
  (LOOKBACK_PERIOD <= Z.of_nat (length data))%Z ->
  in_range w ->
  exists st out v,
    learn data w = Some (st, out)
    /\ calculate_and_adjust_weights data w = Some out
    /\ in_range (adjustedWeights st)
    /\ (forall key, Qabs (wget (adjustedWeights st) key - wget w key) <= 25)
    /\ 20 <= wtotal (adjustedWeights st)
    /\ wtotal (weights out) == 85
    /\ whole (weights out)
    /\ accuracy out = Pct v /\ 0 <= v <= 100.
Proof. exact (learn_in_run OBV [STOCH; OI_PROXY; MACD] data w). Qed.

(** X9: on a history of at least 200 candles and from weights within
    [5, 100] the learner returns normally; through its 50 trials the weights
    stay within [5, 100] and none moves by more than 25 in all, so the total
    it divides by is at least 20; the returned weights are whole numbers
    that sum to 85, and the accuracy is a number between 0 and 100. *)
Theorem learner_run_bounds (data : list Candle) (w : Weights) :
  (LOOKBACK_PERIOD <= Z.of_nat (length data))%Z ->
  in_range w ->
  exists st out v,
    learn data w = Some (st, out)
    /\ calculate_and_adjust_weights data w = Some out
    /\ in_range (adjustedWeights st)
    /\ (forall key, Qabs (wget (adjustedWeights st) key - wget w key) <= 25)
    /\ 20 <= wtotal (adjustedWeights st)
    /\ wtotal (weights out) == 85
    /\ whole (weights out)
    /\ accuracy out = Pct v /\ 0 <= v <= 100.
Proof. apply learn_run. Qed.

Lemma learner_run_bounds_witness :
  exists st out v,
    learn candles200 CURRENT_WEIGHTS = Some (st, out)
    /\ calculate_and_adjust_weights candles200 CURRENT_WEIGHTS = Some out
    /\ in_range (adjustedWeights st)
    /\ (forall key, Qabs (wget (adjustedWeights st) key - wget CURRENT_WEIGHTS key) <= 25)
    /\ 20 <= wtotal (adjustedWeights st)
    /\ wtotal (weights out) == 85
    /\ whole (weights out)
    /\ accuracy out = Pct v /\ 0 <= v <= 100.
Proof.
  apply (learner_run_bounds candles200 CURRENT_WEIGHTS).
  - vm_compute. discriminate.
  - exact in_range_default.
Defined.

(** X10: a trial whose outcome candle closes where the prediction candle
    closed is never a hit, since a prediction is UP or DOWN.  The learner
    then lowers by 0.5, not below 5, the weight of every key that carries
    the sign of the net score and leaves the others; the earlier revision
    of the learner leaves every weight as it is. *)
Theorem flat_outcome_trial (data : list Candle) (i : Z) (st : LearnState)
    (predictCandle outcomeCandle : Candle) :
  let predictIndex := (Z.of_nat (length data) - LOOKAHEAD_CANDLES - 1 - i)%Z in
  JS.get data predictIndex = Some predictCandle ->
  JS.get data (Z.of_nat (length data) - 1 - i)%Z = Some outcomeCandle ->
  close outcomeCandle == close predictCandle ->
  let p := trial_prediction data predictIndex predictCandle (adjustedWeights st) in
  (exists st',
     learner_trial data i st = Some st'
     /\ hits st' = hits st
     /\ forall key,
          wget (adjustedWeights st') key
          = (if voted_with p key then Qmax 5 (wget (adjustedWeights st) key - (1 # 2))
             else wget (adjustedWeights st) key))
  /\ Earlier.learner_trial data i st = Some st.
Proof.
  intros predictIndex Hp Ho Hc p. subst predictIndex p.
  pose proof (actual_direction_flat _ _ Hc) as Hflat.
  unfold learner_trial, Earlier.learner_trial. rewrite Hp, Ho, Hflat.
  pose proof (trial_prediction_not_flat data
                (Z.of_nat (length data) - LOOKAHEAD_CANDLES - 1 - i)
                predictCandle (adjustedWeights st)) as Hnf.
  revert Hnf.
  generalize (trial_prediction data
                (Z.of_nat (length data) - LOOKAHEAD_CANDLES - 1 - i)
                predictCandle (adjustedWeights st)).
  intros p Hnf. cbv zeta.
  assert (Hmiss : Direction_eqb (prediction p) FLAT = false).
  { destruct (prediction p); [reflexivity|reflexivity|contradiction]. }
  rewrite Hmiss. split.
  - eexists. split; [reflexivity|]. cbn [hits adjustedWeights].
    split; [reflexivity|]. intro key. apply adjust_weights_get.
  - unfold Earlier.adjust_weights.
    replace (Direction_eqb FLAT DOWN) with false by reflexivity.
    replace (Direction_eqb FLAT UP) with false by reflexivity.
    rewrite !andb_false_r. rewrite for_keys_id. destruct st; reflexivity.
Qed.


(** ** Scan and sweep *)

(** X12: [processSymbolForScan] returns [null] for every input: for a
    failed fetch, for fewer than 199 candles, and for any longer history,
    where the ATR value it reads is absent. *)
Theorem processSymbolForScan_never_reports (symbol : string) (w : Weights)
    (fetchBinanceData : Fetched (list Candle))
    (fetchOrderBookData : Fetched (option Book)) :
  processSymbolForScan symbol w fetchBinanceData fetchOrderBookData = None.
Proof. apply processSymbolForScan_none. Qed.

Section SweepTheorems.

Import Scheduler.

Lemma results_come_from_tasks {R : Type} (tasks : list (Outcome R)) (limit : nat)
    (s : State R) :
  reachable tasks limit s ->
  forall r, In r (results s) -> exists i, nth_error tasks i = Some (Fulfils (Some r)).
Proof.
  induction 1 as [|s s' _ IH Hstep]; [intros r []|].
  destruct Hstep as [s Hrun | s i o Hin Hnth].
  - unfold launch. destruct (nth_error tasks (next s)); exact IH.
  - unfold settle. cbn [results]. intros r Hr.
    destruct o as [[r'|]|]; try (apply IH; exact Hr).
    apply in_app_or in Hr. destruct Hr as [Hr|[<-|[]]]; [apply IH, Hr|].
    exists i. exact Hnth.
Qed.

(** X13: whatever the instruments, the fetch outcomes, the limit and the
    order of completion, the sweep of [scanAndReport] collects no result. *)
Theorem sweep_collects_nothing (w : Weights)
    (inputs : list (string * Fetched (list Candle) * Fetched (option Book)))
    (limit : nat) (s : State ScanResult) :
  reachable (scan_tasks w inputs) limit s -> results s = [].
Proof.
  intro H. destruct (results s) as [|r rs] eqn:E; [reflexivity|]. exfalso.
  destruct (results_come_from_tasks _ _ _ H r) as [i Hi]; [rewrite E; left; reflexivity|].
  unfold scan_tasks in Hi. rewrite nth_error_map in Hi.
  destruct (nth_error inputs i) as [x|]; [|discriminate].
  cbn [option_map] in Hi. unfold scan_task in Hi.
  rewrite processSymbolForScan_none in Hi. discriminate.
Qed.

Lemma sweep_collects_nothing_witness :
  results (launch (scan_tasks CURRENT_WEIGHTS
                     [("BTCUSDT"%string, Resolved candles200, Resolved None)])
                  CONCURRENCY_LIMIT initial)
  = [].
Proof.
  apply (sweep_collects_nothing CURRENT_WEIGHTS
           [("BTCUSDT"%string, Resolved candles200, Resolved None)] CONCURRENCY_LIMIT).
  eapply reach_step; [apply reach_initial|].
  apply step_launch. reflexivity.
Defined.

(** X14: with a limit of at least 1, at every point of a run the tasks
    started are the settled and the unsettled ones, no more tasks are
    started than there are, and [results] holds at most one entry per
    settled task. *)
Theorem sweep_counters {R : Type} (tasks : list (Outcome R)) (limit : nat)
    (s : State R) :
  (1 <= limit)%nat ->
  reachable tasks limit s ->
  (completed s + in_flight s = next s)%nat
  /\ (next s <= length tasks)%nat
  /\ (length (results s) <= completed s)%nat.
Proof.
  intros Hl Hr. apply (invariant_counters tasks limit).
  apply invariant_reachable; assumption.
Qed.

Lemma sweep_counters_witness :
  (completed (launch rejecting_tasks 1 initial)
   + in_flight (launch rejecting_tasks 1 initial)
   = next (launch rejecting_tasks 1 initial))%nat
  /\ (next (launch rejecting_tasks 1 initial) <= length rejecting_tasks)%nat
  /\ (length (results (launch rejecting_tasks 1 initial))
      <= completed (launch rejecting_tasks 1 initial))%nat.
Proof.
  apply (sweep_counters rejecting_tasks 1).
  - lia.
  - eapply reach_step; [apply reach_initial|apply step_launch; reflexivity].
Defined.

(** X15: every run is finite: no run has more than three transitions per
    task plus one. *)
Theorem sweep_terminates {R : Type} (tasks : list (Outcome R)) (limit n : nat)
    (s : State R) :
  steps tasks limit n initial s -> (n <= 3 * length tasks + 1)%nat.
Proof.
  intro H. apply steps_bounded in H. unfold fuel in H at 2.
  cbn [next active main initial length] in H. lia.
Qed.

Lemma sweep_terminates_witness : (1 <= 3 * length rejecting_tasks + 1)%nat.
Proof.
  apply (sweep_terminates rejecting_tasks 1 1 (launch rejecting_tasks 1 initial)).
  eapply steps_more; [apply steps_none|apply step_launch; reflexivity].
Defined.

(** X16: for any limit, zero included, no more than [max(limit, 1)] tasks
    are in flight: with a limit of 0 the tasks run one at a time. *)
Theorem sweep_any_limit {R : Type} (tasks : list (Outcome R)) (limit : nat)
    (s : State R) :
  reachable tasks limit s -> (in_flight s <= Nat.max limit 1)%nat.
Proof. intro H. apply (in_flight_any_limit tasks limit s H). Qed.

Lemma sweep_any_limit_witness :
  (in_flight (launch rejecting_tasks 0 initial) <= Nat.max 0 1)%nat.
Proof.
  apply (sweep_any_limit rejecting_tasks 0).
  eapply reach_step; [apply reach_initial|apply step_launch; reflexivity].
Defined.

End SweepTheorems.

Lemma flat_outcome_trial_witness :
  let data := flat_candles 31 in
  let st := mkLearn CURRENT_WEIGHTS 0 LEARNING_TRADE_COUNT in
  let p := trial_prediction data 26 (flat_candle 26) (adjustedWeights st) in
  (exists st',
     learner_trial data 0 st = Some st'
     /\ hits st' = hits st
     /\ forall key,
          wget (adjustedWeights st') key
          = (if voted_with p key then Qmax 5 (wget (adjustedWeights st) key - (1 # 2))
             else wget (adjustedWeights st) key))
  /\ Earlier.learner_trial data 0 st = Some st.
Proof.
  apply (flat_outcome_trial (flat_candles 31) 0
           (mkLearn CURRENT_WEIGHTS 0 LEARNING_TRADE_COUNT)
           (flat_candle 26) (flat_candle 30)).
  - vm_compute. reflexivity.
  - vm_compute. reflexivity.
  - reflexivity.
Defined.

(** ** Universe listing, learning panel and report *)

(** X17: [fetchTopSymbols] resolves only for status 200 with a readable
    body.  For a limit that is not negative the symbols it returns are then
    those of the tickers that pass its filter (a USDT pair whose symbol
    contains neither UP nor DOWN, with a quote volume above 1000), in
    descending order of volume, cut to the limit: none is missing below the
    limit and no ticker left out has a larger volume than one returned. *)
Theorem fetchTopSymbols_ranked (response : TickerResponse) (limit : Z)
    (symbols : list string) :
  (0 <= limit)%Z ->
  fetchTopSymbols response limit = Resolved symbols ->
  exists tickers top rest,
    response = HttpResponse 200 (Some tickers)
    /\ symbols = map t_symbol top
    /\ Permutation (top ++ rest) (usdtPairs tickers)
    /\ (forall t, In t (usdtPairs tickers) <-> In t tickers /\ qualifies t)
    /\ length top = Nat.min (Z.to_nat limit) (length (usdtPairs tickers))
    /\ StronglySorted (fun a b => volume_of b <= volume_of a) top
    /\ (forall a b, In a top -> In b rest -> volume_of b <= volume_of a).
Proof.
  intros Hl H. unfold fetchTopSymbols in H.
  destruct response as [m|statusCode [tickers|]]; try discriminate.
  - destruct (statusCode =? 200)%Z eqn:E; [|discriminate].
    apply Z.eqb_eq in E. subst statusCode. cbn [negb] in H. injection H as <-.
    destruct (topSymbols_ranked tickers limit Hl) as (top & rest & H1 & H2 & H3 & H4 & H5).
    exists tickers, top, rest.
    repeat (split; [assumption || (intro t; apply usdtPairs_iff) || reflexivity|]).
    exact H5.
  - destruct (statusCode =? 200)%Z; discriminate.
Qed.

Lemma fetchTopSymbols_ranked_witness :
  exists tickers top rest,
    HttpResponse 200 (Some sample_tickers) = HttpResponse 200 (Some tickers)
    /\ ["BTCUSDT"; "ETHUSDT"]%string = map t_symbol top
    /\ Permutation (top ++ rest) (usdtPairs tickers)
    /\ (forall t, In t (usdtPairs tickers) <-> In t tickers /\ qualifies t)
    /\ length top = Nat.min (Z.to_nat 5) (length (usdtPairs tickers))
    /\ StronglySorted (fun a b => volume_of b <= volume_of a) top
    /\ (forall a b, In a top -> In b rest -> volume_of b <= volume_of a).
Proof.
  apply (fetchTopSymbols_ranked (HttpResponse 200 (Some sample_tickers)) 5).
  - lia.
  - vm_compute. reflexivity.
Defined.

(** X18: when some preset instrument is in the list to scan, the learning
    panel is the preset list, in its order and with its categories, cut
    down to the instruments that are in the list to scan; when none is, the
    panel is the first symbol of the list to scan as the fallback, or empty
    for an empty list.  So every panel instrument is in the list to scan,
    each once, the panel has at most five, and it is empty only when the
    list to scan is. *)
Theorem learningSymbols_from_universe (symbolsToScan : list string) :
  (forall sc, In sc (learningSymbols symbolsToScan) -> In (fst sc) symbolsToScan)
  /\ (length (learningSymbols symbolsToScan) <= 5)%nat
  /\ (learningSymbols symbolsToScan = [] <-> symbolsToScan = [])
  /\ NoDup (map fst (learningSymbols symbolsToScan))
  /\ (forall sc, In sc specificLearningSymbols -> In (fst sc) symbolsToScan ->
                 In sc (learningSymbols symbolsToScan))
  /\ ((exists sc, In sc specificLearningSymbols /\ In (fst sc) symbolsToScan) ->
      exists keep : string * string -> bool,
        (forall sc, keep sc = true <-> In (fst sc) symbolsToScan)
        /\ learningSymbols symbolsToScan = filter keep specificLearningSymbols)
  /\ ((forall sc, In sc specificLearningSymbols -> ~ In (fst sc) symbolsToScan) ->
      learningSymbols symbolsToScan
      = match symbolsToScan with
        | [] => []
        | first :: _ => [(first, "Primary Fallback"%string)]
        end).
Proof.
  pose proof (learningSymbols_panel symbolsToScan) as (H1 & H2 & H3 & H4 & H5).
  pose proof (learningSymbols_exact symbolsToScan) as (H6 & H7).
  repeat (split; [assumption|]). exact H7.
Qed.

(** X19: the report's bullish list holds the results of highest positive
    score, five of them or all when fewer are positive, in descending order,
    and its bearish list the results of lowest negative score, five of them
    or all when fewer are negative, in ascending order; a result with score
    0 is in neither. *)
Theorem report_ranking (results : list ScanResult) :
  (exists rest,
     Permutation (topBullish results ++ rest)
                 (filter (fun r => JS.Qlt_bool 0 (sr_score r)) results)
     /\ (length (topBullish results) <= 5)%nat
     /\ length (topBullish results)
        = Nat.min 5 (length (filter (fun r => JS.Qlt_bool 0 (sr_score r)) results))
     /\ StronglySorted (fun a b => sr_score b <= sr_score a) (topBullish results)
     /\ (forall a b, In a (topBullish results) -> In b rest -> sr_score b <= sr_score a)
     /\ (forall r, In r (topBullish results) -> In r results /\ 0 < sr_score r))
  /\ (exists rest,
        Permutation (topBearish results ++ rest)
                    (filter (fun r => JS.Qlt_bool (sr_score r) 0) results)
        /\ (length (topBearish results) <= 5)%nat
        /\ length (topBearish results)
           = Nat.min 5 (length (filter (fun r => JS.Qlt_bool (sr_score r) 0) results))
        /\ StronglySorted (fun a b => sr_score a <= sr_score b) (topBearish results)
        /\ (forall a b, In a (topBearish results) -> In b rest -> sr_score a <= sr_score b)
        /\ (forall r, In r (topBearish results) -> In r results /\ sr_score r < 0))
  /\ (forall r, sr_score r == 0 ->
                ~ In r (topBullish results) /\ ~ In r (topBearish results)).
Proof.
  pose proof (topBullish_ranked results) as Hb.
  pose proof (topBearish_ranked results) as Hn.
  split; [exact Hb|]. split; [exact Hn|].
  destruct Hb as (_ & _ & _ & _ & _ & _ & Hb), Hn as (_ & _ & _ & _ & _ & _ & Hn).
  intros r Hr. split; intro Hin.
  - destruct (Hb r Hin) as [_ H]. lra.
  - destruct (Hn r Hin) as [_ H]. lra.
Qed.

(** ** Aggregator *)

(** X20: for a panel that is not empty, of vectors within [5, 100] that
    sum to 85, and whatever the order of the keys of [CURRENT_WEIGHTS], the
    weights [averageWeights] returns are whole numbers that sum to 85, none
    above 72; the first key of [CURRENT_WEIGHTS], which takes the remainder
    correction, is at least 3, and every other key is at least 5. *)
Theorem averageWeights_well_formed (first : Key) (others : list Key)
    (rs : list LearningOutcome) :
  rs <> [] ->
  Forall (fun r => in_range (weights r) /\ wtotal (weights r) == 85) rs ->
  let out := fst (averageWeights_in (first :: others) rs) in
  wtotal out == 85
  /\ whole out
  /\ 3 <= wget out first
  /\ (forall k, k <> first -> 5 <= wget out k)
  /\ (forall k, wget out k <= 72).
Proof. apply averageWeights_well_formed_aux. Qed.

Lemma averageWeights_well_formed_witness :
  let out := fst (averageWeights_in stored_key_order
                    [mkOutcome panel_a (Pct 50); mkOutcome panel_b (Pct 60)]) in
  wtotal out == 85
  /\ whole out
  /\ 3 <= wget out MACD
  /\ (forall k, k <> MACD -> 5 <= wget out k)
  /\ (forall k, wget out k <= 72).
Proof.
  apply (averageWeights_well_formed MACD [OBV; OI_PROXY; STOCH]
           [mkOutcome panel_a (Pct 50); mkOutcome panel_b (Pct 60)]).
  - discriminate.
  - constructor; [split; [apply in_range_check|]; reflexivity|].
    constructor; [split; [apply in_range_check|]; reflexivity|].
    constructor.
Defined.

Lemma accuracy_total_range (rs : list LearningOutcome) :
  Forall (fun r => exists v, accuracy r = Pct v /\ 0 <= v <= 100) rs ->
  forall t n, 0 <= t <= 100 * n ->
    exists t',
      fold_left (fun ta r => JS.lift2 Qplus ta (parseFloat (accuracy r))) rs (Some t)
      = Some t'
      /\ 0 <= t' <= 100 * (n + inject_Z (Z.of_nat (length rs))).
Proof.
  induction 1 as [|r rs (v & Ev & Hv) _ IH]; intros t n Ht; cbn [fold_left length].
  - exists t. split; [reflexivity|]. change (inject_Z (Z.of_nat 0)) with 0. lra.
  - rewrite Ev. cbn [parseFloat JS.lift2].
    destruct (IH (t + v) (n + 1)) as (t' & E & H'); [lra|].
    exists t'. split; [exact E|].
    rewrite Nat2Z.inj_succ. unfold Z.succ. rewrite inject_Z_plus.
    change (inject_Z 1) with 1. lra.
Qed.

Lemma averageWeights_accuracy_range (rs : list LearningOutcome) :
  rs <> [] ->
  Forall (fun r => exists v, accuracy r = Pct v /\ 0 <= v <= 100) rs ->
  exists v, snd (averageWeights rs) = Some v /\ 0 <= v <= 100.
Proof.
  intros Hne H. rewrite averageWeights_accuracy. unfold accuracy_total.
  destruct (accuracy_total_range rs H 0 0) as (t & -> & Ht); [lra|].
  eexists. split; [reflexivity|]. apply toFixed_1_range.
  assert (Hc : 1 <= inject_Z (Z.of_nat (length rs))).
  { change 1 with (inject_Z 1). rewrite <- Zle_Qle.
    destruct rs; [contradiction|cbn [length]; lia]. }
  split.
  - apply Qle_shift_div_l; lra.
  - apply Qle_shift_div_r; lra.
Qed.

(** X21: for a panel that is not empty and whose accuracies are all
    numbers between 0 and 100, the average accuracy [averageWeights]
    reports is a number between 0 and 100. *)
Theorem averageWeights_accuracy_in_range (rs : list LearningOutcome) :
  rs <> [] ->
  Forall (fun r => exists v, accuracy r = Pct v /\ 0 <= v <= 100) rs ->
  exists v, snd (averageWeights rs) = Some v /\ 0 <= v <= 100.
Proof. apply averageWeights_accuracy_range. Qed.

Lemma averageWeights_accuracy_in_range_witness :
  exists v,
    snd (averageWeights [mkOutcome panel_a (Pct 50); mkOutcome panel_b (Pct 60)]) = Some v
    /\ 0 <= v <= 100.
Proof.
  apply (averageWeights_accuracy_in_range
           [mkOutcome panel_a (Pct 50); mkOutcome panel_b (Pct 60)]).
  - discriminate.
  - constructor; [exists 50; split; [reflexivity|split; vm_compute; discriminate]|].
    constructor; [exists 60; split; [reflexivity|split; vm_compute; discriminate]|].
    constructor.
Defined.

(** ** Learning phase *)









(** X23: the earlier revision of the learner returns the input weights
    with the accuracy ['N/A'] below 54 candles; from 54 candles on it
    returns normally after [min(50, length - 30)] trials, the number of
    counters whose prediction index is at least 26, with the accuracy
    [hits / trials] as a percentage with one decimal. *)
Theorem earlier_learner_trials (data : list Candle) (w : Weights) :
  ((Z.of_nat (length data) < LEARNING_TRADE_COUNT + LOOKAHEAD_CANDLES)%Z ->
   Earlier.calculate_and_adjust_weights data w = Some (mkOutcome w NA))
  /\ ((LEARNING_TRADE_COUNT + LOOKAHEAD_CANDLES <= Z.of_nat (length data))%Z ->
      exists st out,
        Earlier.learn data w = Some (st, out)
        /\ Earlier.calculate_and_adjust_weights data w = Some out
        /\ totalTrades st = Z.min 50 (Z.of_nat (length data) - 30)
        /\ (0 <= hits st <= totalTrades st)%Z
        /\ accuracy out
           = Pct (JS.toFixed 1 (inject_Z (hits st) / inject_Z (totalTrades st) * 100))).
Proof. apply earlier_calculate_and_adjust_weights_guard. Qed.

Lemma earlier_learner_trials_witness :
  exists st out,
    Earlier.learn candles54 CURRENT_WEIGHTS = Some (st, out)
    /\ Earlier.calculate_and_adjust_weights candles54 CURRENT_WEIGHTS = Some out
    /\ totalTrades st = Z.min 50 (Z.of_nat (length candles54) - 30)
    /\ (0 <= hits st <= totalTrades st)%Z
    /\ accuracy out
       = Pct (JS.toFixed 1 (inject_Z (hits st) / inject_Z (totalTrades st) * 100)).
Proof.
  apply (proj2 (earlier_learner_trials candles54 CURRENT_WEIGHTS)).
  vm_compute. discriminate.
Defined.
